(** * MorningButler: the dashboard's triage pipeline (static/dashboard.js)

    A shallow embedding of the decision logic of [static/dashboard.js]:
    the seen-announcement ledger kept in [localStorage], the assignment
    normaliser [formatAssignmentData], [shortenAssignmentName],
    [sortAssignments] and the notification pass [sendNotifications].

    Conventions.
    - A JavaScript string is its sequence of UTF-16 code units, so that
      [length] is the script's [.length] and the en dash, the em dash and
      the ellipsis are one unit each.
    - A [Date] is its time value: milliseconds since the epoch, or the
      invalid date whose time value is NaN.
    - What the script obtains from the browser (date parsing and
      rendering, collation, the JSON codec, the local time zone) is
      collected in the class [Host]; the functions of the script are
      written once, over any host.  The local zone keeps one offset from
      UTC (no daylight-saving change inside the days looked at).

    The file has two parts: the model (strings, the browser, the functions
    of the script, a reference host and the notions the properties use),
    then the properties. *)

From Stdlib Require Import ZArith List Ascii String Permutation Sorted Lia.
From stdpp Require Import base option list gmap pretty.

Local Open Scope Z_scope.

(** * The model *)

(** ** JavaScript strings *)

Abbreviation char16 := N (only parsing).
Abbreviation jsstring := (list N) (only parsing).

(** A literal written with ASCII characters only. *)
Definition lit (s : String.string) : jsstring :=
  List.map N_of_ascii (list_ascii_of_string s).

Definition COLON : char16 := 58%N.
Definition HYPHEN : char16 := 45%N.
Definition EN_DASH : char16 := 8211%N.
Definition EM_DASH : char16 := 8212%N.
Definition ELLIPSIS : char16 := 8230%N.

(** The code units [String.prototype.trim] strips: WhiteSpace and
    LineTerminator of ECMA-262. *)
Definition isWhiteSpace (c : char16) : bool :=
  ((9 <=? c) && (c <=? 13) || (c =? 32) || (c =? 160) || (c =? 5760)
   || (8192 <=? c) && (c <=? 8202) || (c =? 8232) || (c =? 8233)
   || (c =? 8239) || (c =? 8287) || (c =? 12288) || (c =? 65279))%N.

Fixpoint trimStart (s : jsstring) : jsstring :=
  match s with
  | c :: s' => if isWhiteSpace c then trimStart s' else s
  | [] => []
  end.

Definition trim (s : jsstring) : jsstring :=
  rev (trimStart (rev (trimStart s))).

(** [s.split(re)] for a regular expression [re] that matches exactly one
    code unit satisfying [sep]: the pieces between the matches, empty
    pieces included. *)
Fixpoint split (sep : char16 -> bool) (s : jsstring) : list jsstring :=
  match s with
  | [] => [[]]
  | c :: s' =>
      if sep c then [] :: split sep s'
      else match split sep s' with
           | p :: ps => (c :: p) :: ps
           | [] => [[c]]
           end
  end.

(** JavaScript truthiness of a possibly absent string. *)
Definition truthy (v : option jsstring) : bool :=
  match v with
  | Some (_ :: _) => true
  | _ => false
  end.

(** ** ASSIGNMENT HELPER *)

(** The character class of [/[:\-–—]/]. *)
Definition isSeparator (c : char16) : bool :=
  ((c =? COLON) || (c =? HYPHEN) || (c =? EN_DASH) || (c =? EM_DASH))%N.

Definition defaultMaxLen : nat := 45.

Definition shortenAssignmentName (fullName : jsstring) (maxLen : nat) : jsstring :=
  if (length fullName <=? maxLen)%nat then fullName
  else
    let parts := split isSeparator fullName in
    let truncated := take maxLen fullName ++ [ELLIPSIS] in
    if (1 <? length parts)%nat then
      let lastPart := trim (List.last parts []) in
      if ((10 <? length lastPart) && (length lastPart <=? maxLen))%nat
      then lastPart
      else truncated
    else truncated.

(** The test of the second branch, on its own: the split yields more than
    one part and the trimmed last part is longer than 10 and at most
    [maxLen] code units. *)
Definition lastPartQualifies (fullName : jsstring) (maxLen : nat) : bool :=
  let parts := split isSeparator fullName in
  let lastPart := trim (List.last parts []) in
  ((1 <? length parts) && (10 <? length lastPart) && (length lastPart <=? maxLen))%nat.


(** ** The browser *)

(** What [JSON.parse] can return, as far as the ledger code tells values
    apart.  An object is the list of its own properties in property order,
    the order of [Object.keys] and of [JSON.stringify]: first the names
    that are array indices, ascending, then the other names in the order
    of their creation.  Its prototype is [Object.prototype].  The members
    are strings, which is what [markAnnouncementSeen] writes.  Arrays and
    objects with other members are outside this model. *)
Inductive jsvalue : Type :=
  | VObject (members : list (jsstring * jsstring))
  | VNull
  | VPrimitive (text : jsstring).

Definition isDigit (c : char16) : bool := ((48 <=? c) && (c <=? 57))%N.

Definition decimalValue (s : jsstring) : N :=
  foldl (fun n c => (n * 10 + (c - 48))%N) 0%N s.

(** The array index a property name stands for: the name is the decimal
    numeral, without leading zero, of an integer below 2^32 - 1. *)
Definition arrayIndex (key : jsstring) : option N :=
  match key with
  | [] => None
  | c :: rest =>
      if forallb isDigit key && (negb (c =? 48)%N || bool_decide (rest = []))
         && (decimalValue key <? 4294967295)%N
      then Some (decimalValue key)
      else None
  end.

(** The place of a name in property order: an array index goes by its
    value, every other name comes after all array indices. *)
Definition slot (key : jsstring) : N := default 4294967295%N (arrayIndex key).

(** Whether a new property [key] is placed before the property [k] that
    exists already. *)
Definition placedBefore (key k : jsstring) : bool := (slot key <? slot k)%N.

(** The own property [key] of an object; [None] when it has none. *)
Fixpoint ownProperty (members : list (jsstring * jsstring)) (key : jsstring)
  : option jsstring :=
  match members with
  | [] => None
  | (k, v) :: rest => if decide (k = key) then Some v else ownProperty rest key
  end.

(** The value of an own property changes; its place stays. *)
Fixpoint replaceProperty (members : list (jsstring * jsstring)) (key value : jsstring)
  : list (jsstring * jsstring) :=
  match members with
  | [] => []
  | (k, v) :: rest =>
      if decide (k = key) then (k, value) :: rest
      else (k, v) :: replaceProperty rest key value
  end.

(** A property that the object does not have yet is created, at its place
    in property order. *)
Fixpoint addProperty (members : list (jsstring * jsstring)) (key value : jsstring)
  : list (jsstring * jsstring) :=
  match members with
  | [] => [(key, value)]
  | (k, v) :: rest =>
      if placedBefore key k then (key, value) :: (k, v) :: rest
      else (k, v) :: addProperty rest key value
  end.

(** An own data property is defined, whatever the prototype has: what
    [JSON.parse] does with each member it reads. *)
Definition defineProperty (members : list (jsstring * jsstring)) (key value : jsstring)
  : list (jsstring * jsstring) :=
  match ownProperty members key with
  | Some _ => replaceProperty members key value
  | None => addProperty members key value
  end.

(** The property names of [Object.prototype] in a page that has not added
    any.  All are writable data properties, except [__proto__], which is
    an accessor. *)
Definition objectPrototypeNames : list jsstring :=
  [ lit "constructor"; lit "__defineGetter__"; lit "__defineSetter__";
    lit "hasOwnProperty"; lit "__lookupGetter__"; lit "__lookupSetter__";
    lit "isPrototypeOf"; lit "propertyIsEnumerable"; lit "toString";
    lit "valueOf"; lit "__proto__"; lit "toLocaleString" ].

(** [obj[id] = value] for a string [value], on an object whose prototype
    is [Object.prototype].  An own property is overwritten.  Otherwise the
    assignment to [__proto__] goes to the setter of [Object.prototype],
    which ignores a value that is neither an object nor [null]; any other
    name becomes a new own property. *)
Definition assignProperty (members : list (jsstring * jsstring)) (id value : jsstring)
  : list (jsstring * jsstring) :=
  match ownProperty members id with
  | Some _ => replaceProperty members id value
  | None =>
      if decide (id = lit "__proto__") then members
      else addProperty members id value
  end.

(** [id in obj]: an own property, or one of the prototype. *)
Definition inObject (id : jsstring) (members : list (jsstring * jsstring)) : bool :=
  bool_decide (is_Some (ownProperty members id))
  || bool_decide (id ∈ objectPrototypeNames).

(** The members of an object are in property order: no name twice, and
    no member placed after one that it should precede. *)
Definition propertyOrder (members : list (jsstring * jsstring)) : Prop :=
  NoDup members.*1
  /\ StronglySorted (fun k1 k2 => placedBefore k2 k1 = false) members.*1.

Class Host : Type := {
  (** time value of [new Date(s)]; [None] stands for NaN *)
  Date_parse : jsstring -> option Z;
  (** [d.toLocaleString([], {month: 'short', day: 'numeric',
      hour: '2-digit', minute: '2-digit'})] of a valid date *)
  Date_toLocaleString : Z -> jsstring;
  (** local time minus UTC, in milliseconds; the zone keeps one offset *)
  timezoneOffset : Z;
  (** [a.localeCompare(b)]: negative, zero or positive *)
  localeCompare : jsstring -> jsstring -> Z;
  (** [JSON.parse]; [None] stands for the SyntaxError it throws *)
  JSON_parse : jsstring -> option jsvalue;
  JSON_stringify : jsvalue -> jsstring;
}.

(** The comparison of the host orders strings consistently. *)
Class Collation (H : Host) : Prop := {
  localeCompare_flip a b : localeCompare a b < 0 <-> 0 < localeCompare b a;
  localeCompare_trans a b c :
    localeCompare a b <= 0 -> localeCompare b c <= 0 -> localeCompare a c <= 0;
}.

(** An object that [JSON.parse] returns has its members in property
    order; [JSON.parse] reads back what [JSON.stringify] wrote for a
    ledger; and the text of an object is not the empty string. *)
Class JsonCodec (H : Host) : Prop := {
  JSON_parse_object text members :
    JSON_parse text = Some (VObject members) -> propertyOrder members;
  JSON_parse_stringify members :
    propertyOrder members ->
    JSON_parse (JSON_stringify (VObject members)) = Some (VObject members);
  JSON_stringify_object members : JSON_stringify (VObject members) <> [];
}.

(** Exceptions. *)
Inductive exn : Type := SyntaxError | TypeError.

Inductive Except (A : Type) : Type :=
  | Return (a : A)
  | Throw (e : exn).
Arguments Return {A} a.
Arguments Throw {A} e.

#[global] Instance Except_bind : MBind Except := fun A B k c =>
  match c with
  | Return a => k a
  | Throw e => Throw e
  end.

(** *** Dates *)

Inductive Date : Type :=
  | InvalidDate
  | DateAt (t : Z).

Definition msPerDay : Z := 86400000.

Definition Date_le (a b : Date) : bool :=
  match a, b with
  | DateAt x, DateAt y => x <=? y
  | _, _ => false
  end.

(** [a.getTime() === b.getTime()]: NaN is equal to nothing. *)
Definition Date_sameTime (a b : Date) : bool :=
  match a, b with
  | DateAt x, DateAt y => x =? y
  | _, _ => false
  end.

Section WithHost.

Context {H : Host}.

(** [new Date(s)] for a string. *)
Definition newDate (s : jsstring) : Date :=
  match Date_parse s with
  | Some t => DateAt t
  | None => InvalidDate
  end.

(** [new Date(v)] for a field that holds a string or [null]; the time
    value of [new Date(null)] is 0. *)
Definition newDateOf (v : option jsstring) : Date :=
  match v with
  | Some s => newDate s
  | None => DateAt 0
  end.

(** Local midnight of the day that contains [t]. *)
Definition startOfDay (t : Z) : Z :=
  t - (t + timezoneOffset) mod msPerDay.

(** [d.setHours(h, m, s, ms)]. *)
Definition setHours (d : Date) (h m s ms : Z) : Date :=
  match d with
  | DateAt t => DateAt (startOfDay t + ((h * 60 + m) * 60 + s) * 1000 + ms)
  | InvalidDate => InvalidDate
  end.

(** [d.setDate(d.getDate() + n)]. *)
Definition addDays (d : Date) (n : Z) : Date :=
  match d with
  | DateAt t => DateAt (t + n * msPerDay)
  | InvalidDate => InvalidDate
  end.

Definition toLocaleString (d : Date) : jsstring :=
  match d with
  | DateAt t => Date_toLocaleString t
  | InvalidDate => lit "Invalid Date"
  end.

(** *** SEEN ANNOUNCEMENTS (LOCAL STATE) *)

Definition SEEN_ANNOUNCEMENTS_KEY : jsstring := lit "butler_seen_announcements".

(** [localStorage]: strings under string keys. *)
Definition getItem (ls : gmap jsstring jsstring) (key : jsstring) : option jsstring :=
  ls !! key.

Definition setItem (ls : gmap jsstring jsstring) (key value : jsstring)
  : gmap jsstring jsstring :=
  <[key := value]> ls.

(** [JSON.parse(text)]. *)
Definition parseJSON (text : jsstring) : Except jsvalue :=
  match JSON_parse text with
  | Some v => Return v
  | None => Throw SyntaxError
  end.

(** [seen[id] = value] in a script that is not in strict mode: a property
    of an object is assigned, [null] has no properties, and on a primitive
    the assignment is dropped. *)
Definition setProperty (seen : jsvalue) (id value : jsstring) : Except jsvalue :=
  match seen with
  | VObject members => Return (VObject (assignProperty members id value))
  | VNull => Throw TypeError
  | VPrimitive t => Return (VPrimitive t)
  end.

(** [id in seen]. *)
Definition hasProperty (id : jsstring) (seen : jsvalue) : Except bool :=
  match seen with
  | VObject members => Return (inObject id members)
  | VNull | VPrimitive _ => Throw TypeError
  end.

Definition getSeenAnnouncements (ls : gmap jsstring jsstring) : Except jsvalue :=
  let stored := getItem ls SEEN_ANNOUNCEMENTS_KEY in
  if truthy stored then parseJSON (default [] stored) else Return (VObject []).

Definition markAnnouncementSeen (id postedAt : jsstring) (ls : gmap jsstring jsstring)
  : Except (gmap jsstring jsstring) :=
  seen ← getSeenAnnouncements ls;
  seen' ← setProperty seen id postedAt;
  Return (setItem ls SEEN_ANNOUNCEMENTS_KEY (JSON_stringify seen')).

Definition isAnnouncementSeen (id : jsstring) (ls : gmap jsstring jsstring) : Except bool :=
  seen ← getSeenAnnouncements ls;
  hasProperty id seen.

(** *** FORMAT DATA *)

Record Submission : Type := {
  workflow_state : jsstring;
  grade : option jsstring;
  score : option Z;          (* integral scores *)
  preview_url : option jsstring;
}.

Record RawAssignment : Type := {
  raw_course : jsstring;
  raw_name : jsstring;
  due_at : option jsstring;
  submission : option Submission;
}.

Inductive Urgency : Type := today | week.

Record AssignmentView : Type := {
  course : jsstring;
  name : jsstring;
  shortName : jsstring;
  due : jsstring;
  dueDate : option jsstring;
  status : jsstring;
  url : jsstring;
  isUrgent : option bool;      (* [None] is the script's [null] *)
  hasDueDate : bool;
  urgency : option Urgency;    (* [None] is the script's [null] *)
}.

(** The value of [a.submission.grade || a.submission.score]. *)
Inductive gradeValue : Type :=
  | GUndefined
  | GString (s : jsstring)
  | GNumber (n : Z).

Definition gradeOrScore (sub : Submission) : gradeValue :=
  if truthy (grade sub) then GString (default [] (grade sub))
  else match score sub with
       | Some n => GNumber n
       | None => GUndefined
       end.

Definition gradeTruthy (g : gradeValue) : bool :=
  match g with
  | GUndefined => false
  | GString s => truthy (Some s)
  | GNumber n => negb (n =? 0)
  end.

(** The text of a grade inside a template literal. *)
Definition gradeText (g : gradeValue) : jsstring :=
  match g with
  | GUndefined => lit "undefined"
  | GString s => s
  | GNumber n => lit (pretty n)
  end.

Definition statusOf (sub : option Submission) : jsstring :=
  match sub with
  | Some sub =>
      if decide (workflow_state sub = lit "graded") then
        let g := gradeOrScore sub in
        if gradeTruthy g then lit "Graded: " ++ gradeText g else lit "Graded"
      else if decide (workflow_state sub = lit "submitted") then lit "Submitted"
      else lit "Not submitted"
  | None => lit "Not submitted"
  end.

(** The four dates [formatAssignmentData] derives from the clock. *)
Definition midnightNow (clock : Z) : Date := setHours (DateAt clock) 0 0 0 0.

Definition oneWeekOut (clock : Z) : Date :=
  setHours (addDays (midnightNow clock) 7) 23 59 59 999.

Definition todayStart (clock : Z) : Date := setHours (midnightNow clock) 0 0 0 0.

Definition tomorrowStart (clock : Z) : Date := addDays (todayStart clock) 1.

(** The arrow function mapped over the assignments; [clock] is the time
    value of the [new Date()] at the head of [formatAssignmentData]. *)
Definition formatAssignment (clock : Z) (a : RawAssignment) : AssignmentView :=
  let now := midnightNow clock in
  let dueDate := if truthy (due_at a) then Some (newDate (default [] (due_at a))) else None in
  let dueStr :=
    match dueDate with
    | Some d => toLocaleString d
    | None => lit "No due date"
    end in
  let statusStr := statusOf (submission a) in
  let urgency :=
    match dueDate with
    | Some d =>
        let dueDateOnly := setHours d 0 0 0 0 in
        if Date_sameTime dueDateOnly (todayStart clock) then Some today
        else if Date_le (tomorrowStart clock) d && Date_le d (oneWeekOut clock)
             then Some week
             else None
    | None => None
    end in
  let isUrgent :=
    match dueDate with
    | Some d => Some (Date_le now d && Date_le d (oneWeekOut clock))
    | None => None
    end in
  {| course := raw_course a;
     name := raw_name a;
     shortName := shortenAssignmentName (raw_name a) defaultMaxLen;
     due := dueStr;
     dueDate := due_at a;
     status := statusStr;
     url := match submission a with
            | Some sub => if truthy (preview_url sub) then default [] (preview_url sub) else []
            | None => []
            end;
     isUrgent := isUrgent;
     hasDueDate := bool_decide (is_Some dueDate);
     urgency := urgency |}.

(** [canvasData.assignments || []], mapped. *)
Definition formatAssignmentData (clock : Z) (assignments : option (list RawAssignment))
  : list AssignmentView :=
  List.map (formatAssignment clock) (default [] assignments).

(** *** SEARCH & SORT *)

(** The numbers a comparator returns.  Time values are integers and their
    difference is kept exact: rounding a difference to a double changes
    neither its sign nor whether it is zero, and [sort] looks at nothing
    else. *)
Inductive number : Type :=
  | NaN
  | NegInfinity
  | Finite (z : Z)
  | PosInfinity.

Definition number_sub (a b : number) : number :=
  match a, b with
  | NaN, _ | _, NaN => NaN
  | PosInfinity, PosInfinity | NegInfinity, NegInfinity => NaN
  | PosInfinity, _ | _, NegInfinity => PosInfinity
  | NegInfinity, _ | _, PosInfinity => NegInfinity
  | Finite x, Finite y => Finite (x - y)
  end.

Definition isPositive (v : number) : bool :=
  match v with
  | PosInfinity => true
  | Finite z => 0 <? z
  | NaN | NegInfinity => false
  end.

(** [Array.prototype.sort] with a comparator.  ECMA-262 requires the sort
    to be stable and reads a NaN from the comparator as +0; with a
    consistent comparator every stable sort returns the same array, and
    insertion from the right is one of them. *)
Section ArraySort.
Context {A : Type} (comparefn : A -> A -> number).

Fixpoint insertSorted (x : A) (l : list A) : list A :=
  match l with
  | [] => [x]
  | y :: l' =>
      if isPositive (comparefn x y) then y :: insertSorted x l'
      else x :: y :: l'
  end.

Fixpoint Array_sort (l : list A) : list A :=
  match l with
  | [] => []
  | x :: l' => insertSorted x (Array_sort l')
  end.
End ArraySort.

Inductive direction : Type := asc | desc.

Definition infinityOf (d : direction) : number :=
  match d with
  | asc => PosInfinity
  | desc => NegInfinity
  end.

Definition dateValue (a : AssignmentView) (d : direction) : number :=
  if negb (hasDueDate a) || negb (truthy (dueDate a)) then infinityOf d
  else match newDate (default [] (dueDate a)) with
       | InvalidDate => infinityOf d
       | DateAt t => Finite t
       end.

Definition sortAssignments (assignments : list AssignmentView) (sortBy : jsstring)
  : list AssignmentView :=
  let sorted := assignments in
  if decide (sortBy = lit "due-desc") then
    Array_sort (fun a b => number_sub (dateValue b desc) (dateValue a desc)) sorted
  else if decide (sortBy = lit "course") then
    Array_sort (fun a b => Finite (localeCompare (course a) (course b))) sorted
  else if decide (sortBy = lit "status") then
    Array_sort (fun a b => Finite (localeCompare (status a) (status b))) sorted
  else
    Array_sort (fun a b => number_sub (dateValue a asc) (dateValue b asc)) sorted.

(** *** NOTIFICATIONS *)

Record Notification : Type := {
  title : jsstring;
  body : jsstring;
  icon : jsstring;
  tag : jsstring;
}.

Inductive Permission : Type := granted | denied | undecided.

Record CanvasConfig : Type := { token_expiration : option jsstring }.
Record Config : Type := { canvas : option CanvasConfig }.

(** What a pass can change: the storage, the notifications shown so far
    (latest first) and the number of permission requests. *)
Record Browser : Type := {
  localStorage : gmap jsstring jsstring;
  shown : list Notification;
  permissionRequests : nat;
}.

Definition showNotification (n : Notification) (w : Browser) : Browser :=
  {| localStorage := localStorage w;
     shown := n :: shown w;
     permissionRequests := permissionRequests w |}.

Definition storeItem (key value : jsstring) (w : Browser) : Browser :=
  {| localStorage := setItem (localStorage w) key value;
     shown := shown w;
     permissionRequests := permissionRequests w |}.

Definition requestPermission (w : Browser) : Browser :=
  {| localStorage := localStorage w;
     shown := shown w;
     permissionRequests := S (permissionRequests w) |}.

(** [parts.join(sep)]. *)
Fixpoint join (sep : jsstring) (parts : list jsstring) : jsstring :=
  match parts with
  | [] => []
  | [p] => p
  | p :: ps => p ++ sep ++ join sep ps
  end.

(** [Math.ceil(a / b)] for integers [a] and a positive [b].  The division
    is rounded to a double; for the quotients the script tests against 0
    and 7 the rounding is far smaller than [1 / b], so the ceiling is that
    of the exact quotient (a result of -0 counts and prints as 0). *)
Definition ceilDiv (a b : Z) : Z := - ((- a) / b).

Definition dueSoon (clock : Z) (a : AssignmentView) : bool :=
  let tomorrow := setHours (addDays (DateAt clock) 1) 0 0 0 0 in
  if negb (hasDueDate a) then false
  else
    let dueDate := newDateOf (dueDate a) in
    Date_le dueDate tomorrow && bool_decide (status a = lit "Not submitted").

Definition urgentNotification (urgent : list AssignmentView) : Notification :=
  {| title := if (length urgent =? 1)%nat then lit "1 assignment due soon"
              else lit (pretty (length urgent)) ++ lit " assignments due soon";
     body := join (lit ", ")
               (List.map (fun a => course a ++ lit ": " ++ shortName a) (take 2 urgent));
     icon := lit "/favicon.ico";
     tag := lit "assignment-urgent" |}.

Definition notifyKey (expiration : jsstring) : jsstring :=
  lit "canvasTokenExpiryNotified:" ++ expiration.

Definition daysUntilExpiry (clock expiry : Z) : Z :=
  ceilDiv (expiry - clock) (1000 * 60 * 60 * 24).

Definition expiryNotification (daysUntil : Z) : Notification :=
  {| title := lit "Canvas token expiring soon";
     body := lit "Your Canvas API token expires in " ++ lit (pretty daysUntil)
             ++ lit " day" ++ (if daysUntil =? 1 then [] else lit "s") ++ lit ".";
     icon := lit "/favicon.ico";
     tag := lit "canvas-token-expiry" |}.

(** The Canvas token expiration warning of a pass with permission. *)
Definition tokenExpiryWarning (clock : Z) (config : Config) (w : Browser) : Browser :=
  let expiration := canvas config ≫= token_expiration in
  if truthy expiration then
    let expiration := default [] expiration in
    match newDate (expiration ++ lit "T00:00:00") with
    | DateAt expiry =>
        let daysUntil := daysUntilExpiry clock expiry in
        if (0 <=? daysUntil) && (daysUntil <=? 7)
           && negb (truthy (getItem (localStorage w) (notifyKey expiration)))
        then storeItem (notifyKey expiration) (lit "true")
               (showNotification (expiryNotification daysUntil) w)
        else w
    | InvalidDate => w
    end
  else w.

(** One pass.  [supported] is ['Notification' in window], [permission] is
    [Notification.permission] and [clock] the time value of [new Date()]. *)
Definition sendNotifications (supported : bool) (permission : Permission) (clock : Z)
    (assignments : list AssignmentView) (config : Config) (w : Browser) : Browser :=
  if negb supported then w
  else match permission with
       | granted =>
           let urgent := List.filter (dueSoon clock) assignments in
           let w := if (0 <? length urgent)%nat
                    then showNotification (urgentNotification urgent) w
                    else w in
           tokenExpiryWarning clock config w
       | denied => w
       | undecided => requestPermission w
       end.

End WithHost.

(** ** A reference host

    One concrete browser, used to run the script on examples: ISO 8601
    timestamps of the two shapes the application meets
    ([YYYY-MM-DDTHH:MM:SSZ] from the Canvas feed, [YYYY-MM-DDT00:00:00] for
    the token expiration), an en-US rendering, comparison by code units
    and a JSON codec for ledgers.  Theorems are stated over every host;
    this one instantiates them. *)
Module Reference.

(** *** Calendar arithmetic (proleptic Gregorian) *)

Definition daysFromCivil (y m d : Z) : Z :=
  let y' := if m <=? 2 then y - 1 else y in
  let era := y' / 400 in
  let yoe := y' - era * 400 in
  let doy := (153 * (if 2 <? m then m - 3 else m + 9) + 2) / 5 + d - 1 in
  let doe := yoe * 365 + yoe / 4 - yoe / 100 + doy in
  era * 146097 + doe - 719468.

(** Month (1 to 12) and day of the month of a day number. *)
Definition civilFromDays (days : Z) : Z * Z :=
  let z := days + 719468 in
  let era := z / 146097 in
  let doe := z - era * 146097 in
  let yoe := (doe - doe / 1460 + doe / 36524 - doe / 146096) / 365 in
  let doy := doe - (365 * yoe + yoe / 4 - yoe / 100) in
  let mp := (5 * doy + 2) / 153 in
  (if mp <? 10 then mp + 3 else mp - 9, doy - (153 * mp + 2) / 5 + 1).

Definition isLeapYear (y : Z) : bool :=
  (y mod 4 =? 0) && (negb (y mod 100 =? 0) || (y mod 400 =? 0)).

Definition daysInMonth (y m : Z) : Z :=
  if m =? 2 then (if isLeapYear y then 29 else 28)
  else if (m =? 4) || (m =? 6) || (m =? 9) || (m =? 11) then 30
  else 31.

(** *** Reading timestamps *)

Definition digitValue (c : char16) : option Z :=
  if ((48 <=? c) && (c <=? 57))%N then Some (Z.of_N c - 48) else None.

Fixpoint digitsValue (acc : Z) (s : jsstring) : option Z :=
  match s with
  | [] => Some acc
  | c :: s' => d ← digitValue c; digitsValue (acc * 10 + d) s'
  end.

(** A field of [n] digits followed by the rest of the text. *)
Definition field (n : nat) (s : jsstring) : option (Z * jsstring) :=
  if (length s <? n)%nat then None
  else v ← digitsValue 0 (take n s); Some (v, drop n s).

(** One given code unit. *)
Definition expect (c : char16) (s : jsstring) : option jsstring :=
  match s with
  | c' :: s' => if (c' =? c)%N then Some s' else None
  | [] => None
  end.

Definition parseTimestamp (tz : Z) (s : jsstring) : option Z :=
  '(y, s) ← field 4 s;
  s ← expect 45 s;
  '(mo, s) ← field 2 s;
  s ← expect 45 s;
  '(d, s) ← field 2 s;
  s ← expect 84 s;
  '(h, s) ← field 2 s;
  s ← expect 58 s;
  '(mi, s) ← field 2 s;
  s ← expect 58 s;
  '(sec, s) ← field 2 s;
  if (1 <=? mo) && (mo <=? 12) && (1 <=? d) && (d <=? daysInMonth y mo)
     && (h <=? 23) && (mi <=? 59) && (sec <=? 59)
  then
    let wall := daysFromCivil y mo d * msPerDay + ((h * 60 + mi) * 60 + sec) * 1000 in
    match s with
    | [] => Some (wall - tz)
    | [c] => if (c =? 90)%N then Some wall else None
    | _ => None
    end
  else None.

(** *** Rendering *)

Definition monthName (m : Z) : String.string :=
  List.nth (Z.to_nat (m - 1))
    ["Jan"; "Feb"; "Mar"; "Apr"; "May"; "Jun";
     "Jul"; "Aug"; "Sep"; "Oct"; "Nov"; "Dec"]%string EmptyString.

Definition twoDigits (n : Z) : jsstring :=
  (if n <? 10 then lit "0" else []) ++ lit (pretty n).

Definition renderTimestamp (tz : Z) (t : Z) : jsstring :=
  let wall := t + tz in
  let '(m, d) := civilFromDays (wall / msPerDay) in
  let minutes := (wall mod msPerDay) / 60000 in
  let h := minutes / 60 in
  let h12 := if h mod 12 =? 0 then 12 else h mod 12 in
  lit (monthName m) ++ lit " " ++ lit (pretty d) ++ lit ", "
    ++ twoDigits h12 ++ lit ":" ++ twoDigits (minutes mod 60)
    ++ lit (if h <? 12 then " AM" else " PM").

(** *** Comparing strings by code units *)

Fixpoint compareUnits (a b : jsstring) : Z :=
  match a, b with
  | [], [] => 0
  | [], _ :: _ => -1
  | _ :: _, [] => 1
  | x :: a', y :: b' =>
      if (x <? y)%N then -1
      else if (y <? x)%N then 1
      else compareUnits a' b'
  end.

(** *** JSON for ledgers *)

Definition QUOTE : char16 := 34%N.
Definition BACKSLASH : char16 := 92%N.

Definition hexDigit (n : N) : char16 :=
  (if n <? 10 then 48 + n else 87 + n)%N.

Definition hexValue (c : char16) : option N :=
  (if (48 <=? c) && (c <=? 57) then Some (c - 48)
   else if (97 <=? c) && (c <=? 102) then Some (c - 87)
   else if (65 <=? c) && (c <=? 70) then Some (c - 55)
   else None)%N.

(** The text [JSON.stringify] writes for one code unit of a string. *)
Definition escapeUnit (c : char16) : jsstring :=
  (if c =? QUOTE then [BACKSLASH; QUOTE]
   else if c =? BACKSLASH then [BACKSLASH; BACKSLASH]
   else if c =? 8 then [BACKSLASH; 98]
   else if c =? 9 then [BACKSLASH; 116]
   else if c =? 10 then [BACKSLASH; 110]
   else if c =? 12 then [BACKSLASH; 102]
   else if c =? 13 then [BACKSLASH; 114]
   else if c <? 32 then [BACKSLASH; 117; 48; 48; hexDigit (c / 16); hexDigit (c mod 16)]
   else [c])%N.

Definition quoteString (s : jsstring) : jsstring :=
  QUOTE :: concat (List.map escapeUnit s) ++ [QUOTE].

Definition writeMember (kv : jsstring * jsstring) : jsstring :=
  quoteString kv.1 ++ [COLON] ++ quoteString kv.2.

Definition stringify (v : jsvalue) : jsstring :=
  match v with
  | VObject m => [123%N] ++ join [44%N] (List.map writeMember m) ++ [125%N]
  | VNull => lit "null"
  | VPrimitive t => t
  end.

(** The code unit a one-letter escape stands for. *)
Definition unescape (e : char16) : option char16 :=
  (if (e =? QUOTE) || (e =? BACKSLASH) || (e =? 47) then Some e
   else if e =? 98 then Some 8
   else if e =? 102 then Some 12
   else if e =? 110 then Some 10
   else if e =? 114 then Some 13
   else if e =? 116 then Some 9
   else None)%N.

(** The characters of a string literal after its opening quote, and the
    text after its closing quote. *)
Fixpoint readChars (s : jsstring) : option (jsstring * jsstring) :=
  match s with
  | [] => None
  | c :: s1 =>
      if (c =? QUOTE)%N then Some ([], s1)
      else if (c =? BACKSLASH)%N then
        match s1 with
        | [] => None
        | e :: s2 =>
            if (e =? 117)%N then
              match s2 with
              | h1 :: h2 :: h3 :: h4 :: s3 =>
                  a ← hexValue h1; b ← hexValue h2; c ← hexValue h3; d ← hexValue h4;
                  '(r, rest) ← readChars s3;
                  Some ((((a * 16 + b) * 16 + c) * 16 + d)%N :: r, rest)
              | _ => None
              end
            else
              u ← unescape e;
              '(r, rest) ← readChars s2;
              Some (u :: r, rest)
        end
      else if (c <? 32)%N then None
      else '(r, rest) ← readChars s1; Some (c :: r, rest)
  end.

Definition isJsonSpace (c : char16) : bool :=
  ((c =? 32) || (c =? 9) || (c =? 10) || (c =? 13))%N.

Fixpoint skipSpace (s : jsstring) : jsstring :=
  match s with
  | c :: s' => if isJsonSpace c then skipSpace s' else s
  | [] => []
  end.

Definition readString (s : jsstring) : option (jsstring * jsstring) :=
  s ← expect QUOTE (skipSpace s); readChars s.

(** The members of an object after its opening brace, up to and including
    the closing brace. *)
Fixpoint readMembers (fuel : nat) (acc : list (jsstring * jsstring)) (s : jsstring)
  : option (list (jsstring * jsstring) * jsstring) :=
  match fuel with
  | O => None
  | S fuel =>
      '(k, s) ← readString s;
      s ← expect COLON (skipSpace s);
      '(v, s) ← readString s;
      match skipSpace s with
      | c :: s' =>
          if (c =? 44)%N then readMembers fuel (defineProperty acc k v) s'
          else if (c =? 125)%N then Some (defineProperty acc k v, s')
          else None
      | [] => None
      end
  end.

Definition readValue (s : jsstring) : option (jsvalue * jsstring) :=
  match skipSpace s with
  | c :: s' =>
      if (c =? 123)%N then
        match skipSpace s' with
        | c' :: s'' =>
            if (c' =? 125)%N then Some (VObject [], s'')
            else '(m, rest) ← readMembers (length s') [] s'; Some (VObject m, rest)
        | [] => None
        end
      else if (c =? QUOTE)%N then
        '(r, rest) ← readChars s'; Some (VPrimitive (quoteString r), rest)
      else if decide (take 4 (c :: s') = lit "null") then Some (VNull, drop 4 (c :: s'))
      else if decide (take 4 (c :: s') = lit "true") then
        Some (VPrimitive (lit "true"), drop 4 (c :: s'))
      else if decide (take 5 (c :: s') = lit "false") then
        Some (VPrimitive (lit "false"), drop 5 (c :: s'))
      else None
  | [] => None
  end.

(** Ledger-shaped texts, string literals and the three keywords are read.
    Every other text is refused: malformed text, as in a browser, and also
    the numbers, arrays and nested objects a browser would read, for which
    [jsvalue] has no place. *)
Definition parse (s : jsstring) : option jsvalue :=
  '(v, rest) ← readValue s;
  match skipSpace rest with
  | [] => Some v
  | _ :: _ => None
  end.

(** What reading one more member does to the object read so far. *)
Definition insertMember (m : list (jsstring * jsstring)) (kv : jsstring * jsstring)
  : list (jsstring * jsstring) :=
  defineProperty m kv.1 kv.2.

(** The host, in the time zone [tz] milliseconds east of Greenwich. *)
Definition host (tz : Z) : Host :=
  {| Date_parse := parseTimestamp tz;
     Date_toLocaleString := renderTimestamp tz;
     timezoneOffset := tz;
     localeCompare := compareUnits;
     JSON_parse := parse;
     JSON_stringify := stringify |}.

End Reference.

(** ** Sample records *)
Module Sample.

Definition assignment (due : option jsstring) (sub : option Submission) : RawAssignment :=
  {| raw_course := lit "CS 101";
     raw_name := lit "Homework 3";
     due_at := due;
     submission := sub |}.

Definition graded (g : option jsstring) (points : option Z) : Submission :=
  {| workflow_state := lit "graded";
     grade := g;
     score := points;
     preview_url := None |}.

(** 08:00 UTC on 1 January 1970. *)
Definition eightOClock : Z := 8 * 3600000.

Definition submitted : Submission :=
  {| workflow_state := lit "submitted";
     grade := None;
     score := None;
     preview_url := Some (lit "https://canvas.example/preview/7") |}.

(** A feed of five assignments: due in three days, without due date, due
    tonight, with a due date that does not parse, and due in three days
    again. *)
Definition feed : list RawAssignment :=
  [ {| raw_course := lit "MATH 220"; raw_name := lit "Problem Set 4";
       due_at := Some (lit "1970-01-04T12:00:00Z"); submission := None |};
    {| raw_course := lit "CS 101"; raw_name := lit "Reading log";
       due_at := None; submission := Some submitted |};
    {| raw_course := lit "CS 101"; raw_name := lit "Homework 3";
       due_at := Some (lit "1970-01-01T23:59:00Z"); submission := None |};
    {| raw_course := lit "ART 110"; raw_name := lit "Sketchbook";
       due_at := Some (lit "next Friday"); submission := None |};
    {| raw_course := lit "BIO 150"; raw_name := lit "Lab report";
       due_at := Some (lit "1970-01-04T12:00:00Z");
       submission := Some (graded (Some (lit "A-")) (Some 91)) |} ].

Definition views : list AssignmentView :=
  formatAssignmentData (H := Reference.host 0) eightOClock (Some feed).

(** A storage whose ledger holds one announcement seen earlier. *)
Definition seenBefore : list (jsstring * jsstring) :=
  [ (lit "BIO_150_Quiz_2", lit "1969-12-30T10:00:00Z") ].

Definition storage : gmap jsstring jsstring :=
  {[ SEEN_ANNOUNCEMENTS_KEY := Reference.stringify (VObject seenBefore);
     lit "dashboardOpenCount" := lit "2" ]}.

Definition freshBrowser : Browser :=
  {| localStorage := ∅; shown := []; permissionRequests := 0 |}.

End Sample.

(** ** Words of the specification

    Notions the properties below are stated with. *)

Section Notions.

Context {H : Host}.

(** The window of the week: its end is local midnight of the clock's day
    plus seven days, at 23:59:59.999. *)
Definition weekWindowEnd (clock : Z) : Z :=
  startOfDay clock + 7 * msPerDay + (msPerDay - 1).

(** The due instant of a raw assignment, when [due_at] is a timestamp. *)
Definition dueInstant (a : RawAssignment) : option Z :=
  if truthy (due_at a) then due_at a ≫= Date_parse else None.

(** The due instant [sortAssignments] sees in a view; none when the due
    date is missing or does not parse. *)
Definition viewInstant (a : AssignmentView) : option Z :=
  if hasDueDate a && truthy (dueDate a) then dueDate a ≫= Date_parse else None.

(** Ascending by due instant, views without one last. *)
Definition dueAscending (a b : AssignmentView) : Prop :=
  match viewInstant a, viewInstant b with
  | Some x, Some y => x <= y
  | _, None => True
  | None, Some _ => False
  end.

(** Descending by due instant, views without one last. *)
Definition dueDescending (a b : AssignmentView) : Prop :=
  match viewInstant a, viewInstant b with
  | Some x, Some y => y <= x
  | _, None => True
  | None, Some _ => False
  end.

(** The order a sort key asks for. *)
Definition orderOf (sortBy : jsstring) : AssignmentView -> AssignmentView -> Prop :=
  if decide (sortBy = lit "due-desc") then dueDescending
  else if decide (sortBy = lit "course") then
    fun a b => localeCompare (course a) (course b) <= 0
  else if decide (sortBy = lit "status") then
    fun a b => localeCompare (status a) (status b) <= 0
  else dueAscending.

(** The views that tie with [x] under a sort key. *)
Definition tiesOf (sortBy : jsstring) (x : AssignmentView) : AssignmentView -> bool :=
  if decide (sortBy = lit "due-desc") then
    fun y => bool_decide (viewInstant y = viewInstant x)
  else if decide (sortBy = lit "course") then
    fun y => localeCompare (course x) (course y) =? 0
  else if decide (sortBy = lit "status") then
    fun y => localeCompare (status x) (status y) =? 0
  else fun y => bool_decide (viewInstant y = viewInstant x).

Definition dated (a : AssignmentView) : bool := bool_decide (is_Some (viewInstant a)).

(** [r] is [l] sorted by [before], stably: the same items, in order, and
    the items of every class of ties in the order they had in [l]. *)
Definition stableSortedBy {A : Type} (before : A -> A -> Prop) (ties : A -> A -> bool)
    (l r : list A) : Prop :=
  Permutation l r
  /\ StronglySorted before r
  /\ forall x, List.filter (ties x) r = List.filter (ties x) l.

(** The credential-expiry notifications among those shown. *)
Definition isExpiryNotification (n : Notification) : bool :=
  bool_decide (tag n = lit "canvas-token-expiry").

Definition expiryCount (w : Browser) : nat :=
  length (List.filter isExpiryNotification (shown w)).

(** [config?.canvas?.token_expiration]. *)
Definition expirationOf (config : Config) : option jsstring :=
  canvas config ≫= token_expiration.

(** The configuration whose Canvas token expires on [expiration]. *)
Definition configExpiring (expiration : jsstring) : Config :=
  {| canvas := Some {| token_expiration := Some expiration |} |}.

(** The test of the expiration warning: the day count is between 0 and 7
    and nothing truthy is stored under the key of this expiration date. *)
Definition expiryDue (clock expiry : Z) (expiration : jsstring)
    (ls : gmap jsstring jsstring) : bool :=
  (0 <=? daysUntilExpiry clock expiry) && (daysUntilExpiry clock expiry <=? 7)
  && negb (truthy (ls !! notifyKey expiration)).

(** A run of passes with permission: each pass has its clock reading, its
    list of assignments and its configuration. *)
Fixpoint passes (run : list (Z * list AssignmentView * Config)) (w : Browser) : Browser :=
  match run with
  | [] => w
  | (clock, assignments, config) :: run' =>
      passes run' (sendNotifications true granted clock assignments config w)
  end.

(** The number of passes of a run that are configured with [expiration]
    and show the credential-expiry notification. *)
Fixpoint emissionsFor (expiration : jsstring)
    (run : list (Z * list AssignmentView * Config)) (w : Browser) : nat :=
  match run with
  | [] => 0
  | (clock, assignments, config) :: run' =>
      let w' := sendNotifications true granted clock assignments config w in
      (if bool_decide (expirationOf config = Some expiration)
          && (expiryCount w <? expiryCount w')%nat
       then 1 else 0)%nat
      + emissionsFor expiration run' w'
  end%nat.

(** The two outcomes of the warning: nothing happens, or the notification
    of a configured, parsed and due expiration date is shown and its key
    stored. *)
Inductive warningOutcome (clock : Z) (config : Config) (w w' : Browser) : Prop :=
  | warning_skipped :
      w' = w ->
      (forall expiration expiry,
         expirationOf config = Some expiration -> expiration <> [] ->
         Date_parse (expiration ++ lit "T00:00:00") = Some expiry ->
         expiryDue clock expiry expiration (localStorage w) = false) ->
      warningOutcome clock config w w'
  | warning_shown expiration expiry :
      expirationOf config = Some expiration -> expiration <> [] ->
      Date_parse (expiration ++ lit "T00:00:00") = Some expiry ->
      expiryDue clock expiry expiration (localStorage w) = true ->
      w' = storeItem (notifyKey expiration) (lit "true")
             (showNotification (expiryNotification (daysUntilExpiry clock expiry)) w) ->
      warningOutcome clock config w w'.

End Notions.

(** * The model, continued

    The rest of the script: announcements, search, the filters and views
    of [renderDashboard], the click handler, the theme, the e-mail
    settings and the greeting. *)

(** ** More of JavaScript strings *)

Definition UNDERSCORE : char16 := 95%N.

(** [s.replace(/\s+/g, '_')]: every maximal run of white space becomes one
    underscore.  [inRun] tells that the unit before was white space. *)
Fixpoint replaceRuns (inRun : bool) (s : jsstring) : jsstring :=
  match s with
  | [] => []
  | c :: s' =>
      if isWhiteSpace c then
        if inRun then replaceRuns true s' else UNDERSCORE :: replaceRuns true s'
      else c :: replaceRuns false s'
  end.

Definition collapseWhitespace (s : jsstring) : jsstring := replaceRuns false s.

(** [s.startsWith(prefix)]. *)
Definition startsWith (s prefix : jsstring) : bool :=
  bool_decide (take (length prefix) s = prefix).

(** [s.includes(sub)]. *)
Fixpoint includes (s sub : jsstring) : bool :=
  startsWith s sub
  || match s with
     | [] => false
     | _ :: s' => includes s' sub
     end.

(** [s.padStart(2, '0')]. *)
Definition padStart2 (s : jsstring) : jsstring :=
  replicate (2 - length s) 48%N ++ s.

(** [String.prototype.toLowerCase], which the browser provides. *)
Class Casing : Type := {
  toLowerCase : jsstring -> jsstring;
}.

(** Lower case of one ASCII code unit. *)
Definition asciiLower (c : char16) : char16 :=
  (if (65 <=? c) && (c <=? 90) then c + 32 else c)%N.

(** What the properties need of [toLowerCase]: the ASCII units at the
    head of a string are lowered one by one, whatever follows, and lowering
    twice is lowering once. *)
Class CasingLaws (C : Casing) : Prop := {
  toLowerCase_ascii p r :
    Forall (fun c => (c < 128)%N) p ->
    take (length p) (toLowerCase (p ++ r)) = List.map asciiLower p;
  toLowerCase_idem s : toLowerCase (toLowerCase s) = toLowerCase s;
}.

(** ** Objects as the script reads them

    Where the script reads a property that an object may not have, the
    object is its list of properties. *)
Inductive propertyValue : Type :=
  | PNull
  | PBool (b : bool)
  | PString (s : jsstring).

(** [obj[key]]; [None] is [undefined]. *)
Definition getProperty (obj : list (jsstring * propertyValue)) (key : jsstring)
  : option propertyValue :=
  (list_to_map obj : gmap jsstring propertyValue) !! key.

(** What [if (v) div.dataset.x = v] leaves in the data set: nothing for a
    falsy value, else its text. *)
Definition datasetValue (v : option propertyValue) : option jsstring :=
  match v with
  | Some (PString (c :: s)) => Some (c :: s)
  | Some (PBool true) => Some (lit "true")
  | _ => None
  end.

Section MoreOfTheScript.

Context {H : Host} {C : Casing}.

(** ** FORMAT DATA: announcements *)

Record RawAnnouncement : Type := {
  ann_course : jsstring;
  ann_title : jsstring;
  ann_posted : option jsstring;
  ann_url : option jsstring;
}.

Record AnnouncementView : Type := {
  view_course : jsstring;
  view_title : jsstring;
  view_posted : jsstring;
  view_id : jsstring;
  isSeen : bool;
  view_url : jsstring;
}.

(** [`${a.course}_${a.title}`.replace(/\s+/g, '_')]. *)
Definition announcementId (course title : jsstring) : jsstring :=
  collapseWhitespace (course ++ [UNDERSCORE] ++ title).

(** The arrow function mapped over the announcements. *)
Definition formatAnnouncement (ls : gmap jsstring jsstring) (a : RawAnnouncement)
  : Except AnnouncementView :=
  let id := announcementId (ann_course a) (ann_title a) in
  let posted := if truthy (ann_posted a)
                then toLocaleString (newDate (default [] (ann_posted a)))
                else [] in
  seenFlag ← isAnnouncementSeen id ls;
  Return {| view_course := ann_course a;
            view_title := ann_title a;
            view_posted := posted;
            view_id := id;
            isSeen := seenFlag;
            view_url := if truthy (ann_url a) then default [] (ann_url a) else [] |}.

(** [items.map(f)] for an [f] that may throw: the first exception ends the
    loop. *)
Fixpoint mapExcept {A B : Type} (f : A -> Except B) (items : list A) : Except (list B) :=
  match items with
  | [] => Return []
  | x :: items' =>
      y ← f x;
      ys ← mapExcept f items';
      Return (y :: ys)
  end.

Definition formatAnnouncementData (ls : gmap jsstring jsstring)
    (announcements : option (list RawAnnouncement)) : Except (list AnnouncementView) :=
  seen ← getSeenAnnouncements ls;
  mapExcept (formatAnnouncement ls) (default [] announcements).

(** [allAnnouncements.filter(a => !a.isSeen)]. *)
Definition unseenAnnouncements (allAnnouncements : list AnnouncementView)
  : list AnnouncementView :=
  List.filter (fun a => negb (isSeen a)) allAnnouncements.

(** The announcements on the page: the first two unseen ones, or all of
    them once "view all" was clicked. *)
Definition announcementsOnPage (showAllAnnouncements : bool)
    (allAnnouncements : list AnnouncementView) : list AnnouncementView :=
  let announcementsToShow := take 2 (unseenAnnouncements allAnnouncements) in
  if showAllAnnouncements then allAnnouncements else announcementsToShow.

(** ** REVEAL ANIMATION and CLICK HANDLERS *)

(** The object literal [formatAnnouncementData] returns. *)
Definition announcementObject (v : AnnouncementView) : list (jsstring * propertyValue) :=
  [ (lit "course", PString (view_course v));
    (lit "title", PString (view_title v));
    (lit "posted", PString (view_posted v));
    (lit "id", PString (view_id v));
    (lit "isSeen", PBool (isSeen v));
    (lit "url", PString (view_url v)) ].

(** The object literal [formatAssignmentData] returns. *)
Definition assignmentObject (v : AssignmentView) : list (jsstring * propertyValue) :=
  [ (lit "course", PString (course v));
    (lit "name", PString (name v));
    (lit "shortName", PString (shortName v));
    (lit "due", PString (due v));
    (lit "dueDate", from_option PString PNull (dueDate v));
    (lit "status", PString (status v));
    (lit "url", PString (url v));
    (lit "isUrgent", from_option PBool PNull (isUrgent v));
    (lit "hasDueDate", PBool (hasDueDate v));
    (lit "urgency",
      match urgency v with
      | Some today => PString (lit "today")
      | Some week => PString (lit "week")
      | None => PNull
      end) ].

(** The data set of the [div] that [revealItems] builds for an item.
    [revealItems] never sets [data-posted]. *)
Record ItemElement : Type := {
  data_url : option jsstring;
  data_announcementId : option jsstring;
  data_posted : option jsstring;
}.

Definition revealItem (item : list (jsstring * propertyValue)) : ItemElement :=
  {| data_url := datasetValue (getProperty item (lit "url"));
     data_announcementId := datasetValue (getProperty item (lit "announcementId"));
     data_posted := None |}.

(** What a click can change: the storage and the tabs opened so far,
    latest first. *)
Record Page : Type := {
  page_storage : gmap jsstring jsstring;
  page_opened : list jsstring;
}.

(** The listener of [setupClickHandlers], for a click inside the item
    [item]; [isoNow] is [new Date().toISOString()]. *)
Definition clickItem (isoNow : jsstring) (item : ItemElement) (p : Page) : Except Page :=
  let url := data_url item in
  let announcementId := data_announcementId item in
  storage ←
    (if truthy announcementId then
       let posted := if truthy (data_posted item) then default [] (data_posted item)
                     else isoNow in
       markAnnouncementSeen (default [] announcementId) posted (page_storage p)
     else Return (page_storage p));
  Return {| page_storage := storage;
            page_opened := if truthy url then default [] url :: page_opened p
                           else page_opened p |}.

(** ** SEARCH *)

Definition matchesQuery (lq : jsstring) (a : AssignmentView) : bool :=
  includes (toLowerCase (name a)) lq || includes (toLowerCase (course a)) lq.

Definition searchAssignments (assignments : list AssignmentView) (query : jsstring)
  : list AssignmentView :=
  match query with
  | [] => assignments
  | _ :: _ =>
      let lq := toLowerCase query in
      List.filter (matchesQuery lq) assignments
  end.

(** ** RENDER DASHBOARD: filters and views *)

(** [config.assignmentFilters]. *)
Record AssignmentFilters : Type := {
  hideNoDueDate : option bool;
  hideCompleted : option bool;
  defaultView : option jsstring;
}.

(** [assignmentFilters.hideNoDueDate !== false]. *)
Definition hideNoDueDateOf (filters : option AssignmentFilters) : bool :=
  match filters ≫= hideNoDueDate with
  | Some false => false
  | _ => true
  end.

(** [assignmentFilters.hideCompleted || false]. *)
Definition hideCompletedOf (filters : option AssignmentFilters) : bool :=
  match filters ≫= hideCompleted with
  | Some true => true
  | _ => false
  end.

(** [assignmentFilters.defaultView || 'week']. *)
Definition defaultViewOf (filters : option AssignmentFilters) : jsstring :=
  let v := filters ≫= defaultView in
  if truthy v then default [] v else lit "week".

(** The test of the [hideCompleted] filter, before its negation. *)
Definition isCompleted (a : AssignmentView) : bool :=
  let status := toLowerCase (status a) in
  startsWith status (lit "graded") || startsWith status (lit "submitted").

(** [filteredAssignments], from [allAssignments] and the configuration. *)
Definition filterAssignments (filters : option AssignmentFilters)
    (allAssignments : list AssignmentView) : list AssignmentView :=
  let filtered := allAssignments in
  let filtered := if hideNoDueDateOf filters then List.filter hasDueDate filtered
                  else filtered in
  if hideCompletedOf filters then List.filter (fun a => negb (isCompleted a)) filtered
  else filtered.

(** The test of the [day] view. *)
Definition dueOnDay (clock : Z) (a : AssignmentView) : bool :=
  let today := setHours (DateAt clock) 0 0 0 0 in
  if negb (hasDueDate a) then false
  else
    let dueDate := setHours (newDateOf (dueDate a)) 0 0 0 0 in
    Date_sameTime dueDate today.

(** The test of the [week] view. *)
Definition dueInWeek (clock : Z) (a : AssignmentView) : bool :=
  let today := setHours (DateAt clock) 0 0 0 0 in
  let oneWeekOut := setHours (addDays today 7) 23 59 59 999 in
  if negb (hasDueDate a) then false
  else
    let dueDate := setHours (newDateOf (dueDate a)) 0 0 0 0 in
    Date_le today dueDate && Date_le dueDate oneWeekOut.

(** [applyDefaultViewFilter]; [clock] is the time value of [nowDate]. *)
Definition applyDefaultViewFilter (defaultView : jsstring) (clock : Z)
    (items : list AssignmentView) : list AssignmentView :=
  if decide (defaultView = lit "day") then List.filter (dueOnDay clock) items
  else if decide (defaultView = lit "week") then List.filter (dueInWeek clock) items
  else items.

(** The list [renderAssignmentsFiltered] hands to [revealItems]. *)
Definition renderAssignmentsFiltered (filteredAssignments : list AssignmentView)
    (showAllAssignments : bool) (defaultView : jsstring) (clock : Z)
    (searchQuery sortBy : jsstring) : list AssignmentView :=
  let toRender := filteredAssignments in
  let toRender := if truthy (Some searchQuery) then searchAssignments toRender searchQuery
                  else toRender in
  let toRender := sortAssignments toRender sortBy in
  if negb showAllAssignments then applyDefaultViewFilter defaultView clock toRender
  else toRender.

(** ** CONFIG: theme and e-mail *)

(** [classList.toggle(name, force)]. *)
Definition classToggle (name : jsstring) (force : bool) (classList : gset jsstring)
  : gset jsstring :=
  if force then {[ name ]} ∪ classList else classList ∖ {[ name ]}.

(** [applyTheme]; [prefersDark] is the answer of
    [matchMedia('(prefers-color-scheme: dark)')]. *)
Definition applyTheme (theme : jsstring) (prefersDark : bool) (classList : gset jsstring)
  : gset jsstring :=
  let dark := if decide (theme = lit "dark") then true
              else if decide (theme = lit "light") then false
              else if decide (theme = lit "auto") then prefersDark
              else false in
  classToggle (lit "light-theme") (negb dark) (classToggle (lit "dark-theme") dark classList).

Record Email : Type := { subject : option jsstring }.

(** [config.emails]: an array of accounts, or an object that may have a
    boolean [enabled] and an array [accounts]. *)
Inductive EmailsSetting : Type :=
  | EmailsArray (accounts : list Email)
  | EmailsObject (enabled : option bool) (accounts : option (list Email)).

(** [config] is [None] when the script has no configuration object;
    [emails] is [None] when [config.emails] is missing or of another
    kind. *)
Definition getEmailAccounts (config : option (option EmailsSetting)) : list Email :=
  match config with
  | None => []
  | Some (Some (EmailsArray accounts)) => accounts
  | Some (Some (EmailsObject _ (Some accounts))) => accounts
  | Some _ => []
  end.

Definition isEmailsEnabled (config : option (option EmailsSetting)) : bool :=
  match config with
  | None => false
  | Some (Some (EmailsObject (Some enabled) _)) => enabled
  | Some _ => (0 <? length (getEmailAccounts config))%nat
  end.

(** The e-mails [renderDashboard] lists; none when the section stays
    hidden. *)
Definition emailsOnPage (config : option (option EmailsSetting)) : list Email :=
  let emailAccounts := getEmailAccounts config in
  if isEmailsEnabled config && (0 <? length emailAccounts)%nat
  then take 3 emailAccounts
  else [].

(** ** Greeting & time *)

Definition greeting (hours : Z) : jsstring :=
  if hours <? 12 then lit "Good morning."
  else if hours <? 18 then lit "Good afternoon."
  else lit "Good evening.".

Definition timeStr (hours minutes : Z) : jsstring :=
  let minutes := padStart2 (lit (pretty minutes)) in
  let isPm := 12 <=? hours in
  let hours12 := if hours mod 12 =? 0 then 12 else hours mod 12 in
  lit (pretty hours12) ++ lit ":" ++ minutes ++ lit " "
    ++ lit (if isPm then "PM" else "AM").

End MoreOfTheScript.

(** ** The reference host, continued *)
Module ReferenceText.

(** Lower case for ASCII letters; the other code units stay. *)
Definition casing : Casing := {| toLowerCase := List.map asciiLower |}.

End ReferenceText.

(** ** More sample records *)
Module MoreSamples.

Definition announcements : list RawAnnouncement :=
  [ {| ann_course := lit "CS 101"; ann_title := lit "Midterm Info";
       ann_posted := Some (lit "1970-01-01T07:30:00Z");
       ann_url := Some (lit "https://canvas.example/a/1") |};
    {| ann_course := lit "BIO 150"; ann_title := lit "Quiz 2";
       ann_posted := None; ann_url := None |};
    {| ann_course := lit "MATH 220"; ann_title := lit "Office  hours moved";
       ann_posted := Some (lit "1970-01-01T06:00:00Z"); ann_url := None |} ].

Definition accounts : list Email :=
  [ {| subject := Some (lit "Welcome") |}; {| subject := None |};
    {| subject := Some (lit "Receipt") |}; {| subject := Some (lit "Reminder") |} ].

End MoreSamples.

(** ** More words for the properties *)

Section MoreNotions.

Context {H : Host}.

(** What an announcement becomes when the ledger is the object [m]. *)
Definition viewOf (m : list (jsstring * jsstring)) (a : RawAnnouncement) : AnnouncementView :=
  {| view_course := ann_course a;
     view_title := ann_title a;
     view_posted := if truthy (ann_posted a)
                    then toLocaleString (newDate (default [] (ann_posted a)))
                    else [];
     view_id := announcementId (ann_course a) (ann_title a);
     isSeen := inObject (announcementId (ann_course a) (ann_title a)) m;
     view_url := if truthy (ann_url a) then default [] (ann_url a) else [] |}.

(** The urgent-assignment notices among the notifications shown. *)
Definition isUrgentNotice (n : Notification) : bool :=
  bool_decide (tag n = lit "assignment-urgent").

Definition urgentNoticeCount (w : Browser) : nat :=
  length (List.filter isUrgentNotice (shown w)).

(** The passes of a run that find an assignment due soon. *)
Fixpoint passesWithUrgent (run : list (Z * list AssignmentView * Config)) : nat :=
  match run with
  | [] => 0
  | (clock, assignments, _) :: run' =>
      ((if (0 <? length (List.filter (dueSoon clock) assignments))%nat then 1 else 0)
       + passesWithUrgent run')%nat
  end.

(** The hours and minutes [getHours] and [getMinutes] can return. *)
Definition minutesOfDay : list (Z * Z) :=
  h ← seqZ 0 24; m ← seqZ 0 60; [(h, m)].

End MoreNotions.

(** * Properties *)

(** ** Objects and property order *)

Section ObjectFacts.

Implicit Types (m : list (jsstring * jsstring)) (k key value : jsstring).

Lemma ownProperty_None m key : ownProperty m key = None <-> key ∉ m.*1.
Proof.
  induction m as [| [k v] m IH]; cbn.
  - split; [intros _; apply not_elem_of_nil | reflexivity].
  - destruct (decide (k = key)) as [-> | Hne].
    + split; [discriminate |]. intros Hn. exfalso. apply Hn, list_elem_of_here.
    + rewrite IH, not_elem_of_cons. split; [intros Hk; split; congruence | tauto].
Qed.

Lemma replaceProperty_keys m key value : (replaceProperty m key value).*1 = m.*1.
Proof.
  induction m as [| [k v] m IH]; [reflexivity |]. cbn.
  destruct (decide (k = key)); cbn; [reflexivity | rewrite IH; reflexivity].
Qed.

Lemma ownProperty_replace_eq m key value :
  is_Some (ownProperty m key) -> ownProperty (replaceProperty m key value) key = Some value.
Proof.
  induction m as [| [k v] m IH]; cbn; [intros [x Hx]; discriminate |].
  destruct (decide (k = key)) as [-> | Hne]; cbn.
  - intros _. rewrite decide_True by reflexivity. reflexivity.
  - intros Hs. rewrite decide_False by exact Hne. apply IH, Hs.
Qed.

Lemma ownProperty_replace_ne m key value k :
  k <> key -> ownProperty (replaceProperty m key value) k = ownProperty m k.
Proof.
  intros Hk. induction m as [| [k0 v] m IH]; [reflexivity |]. cbn.
  destruct (decide (k0 = key)) as [-> | Hne]; cbn.
  - rewrite !decide_False by congruence. reflexivity.
  - rewrite IH. reflexivity.
Qed.

Lemma ownProperty_add_eq m key value :
  ownProperty m key = None -> ownProperty (addProperty m key value) key = Some value.
Proof.
  induction m as [| [k v] m IH]; cbn.
  - intros _. rewrite decide_True by reflexivity. reflexivity.
  - destruct (decide (k = key)) as [-> | Hne]; [discriminate |]. intros Hn.
    destruct (placedBefore key k); cbn.
    + rewrite decide_True by reflexivity. reflexivity.
    + rewrite decide_False by exact Hne. apply IH, Hn.
Qed.

Lemma ownProperty_add_ne m key value k :
  k <> key -> ownProperty (addProperty m key value) k = ownProperty m k.
Proof.
  intros Hk. induction m as [| [k0 v] m IH]; cbn.
  - rewrite decide_False by congruence. reflexivity.
  - destruct (placedBefore key k0); cbn.
    + rewrite (decide_False (P := key = k)) by congruence. reflexivity.
    + rewrite IH. reflexivity.
Qed.

Lemma addProperty_keys m key value : (addProperty m key value).*1 ≡ₚ key :: m.*1.
Proof.
  induction m as [| [k v] m IH]; [reflexivity |]. cbn.
  destruct (placedBefore key k); cbn; [reflexivity |].
  rewrite IH. apply perm_swap.
Qed.

Lemma addProperty_sorted m key value :
  StronglySorted (fun k1 k2 => placedBefore k2 k1 = false) m.*1 ->
  StronglySorted (fun k1 k2 => placedBefore k2 k1 = false) (addProperty m key value).*1.
Proof.
  induction m as [| [k v] m IH]; cbn; intros Hs.
  - repeat constructor.
  - apply StronglySorted_inv in Hs as [Hs Hk].
    destruct (placedBefore key k) eqn:Hp; cbn.
    + constructor; [constructor; assumption |].
      unfold placedBefore in *. apply N.ltb_lt in Hp.
      constructor; [apply N.ltb_ge; lia |].
      eapply Forall_impl; [exact Hk |]. cbn. intros k' Hk'.
      apply N.ltb_ge. apply N.ltb_ge in Hk'. lia.
    + constructor; [apply IH, Hs |].
      rewrite (addProperty_keys m key value).
      constructor; [exact Hp | exact Hk].
Qed.

Lemma propertyOrder_nil : propertyOrder [].
Proof. split; constructor. Qed.

Lemma propertyOrder_add m key value :
  ownProperty m key = None -> propertyOrder m -> propertyOrder (addProperty m key value).
Proof.
  intros Hn [Hnd Hs]. split; [| apply addProperty_sorted, Hs].
  rewrite addProperty_keys. apply NoDup_cons. split; [| exact Hnd].
  apply ownProperty_None, Hn.
Qed.

Lemma propertyOrder_replace m key value :
  propertyOrder m -> propertyOrder (replaceProperty m key value).
Proof. unfold propertyOrder. rewrite replaceProperty_keys. tauto. Qed.

Lemma propertyOrder_define m key value :
  propertyOrder m -> propertyOrder (defineProperty m key value).
Proof.
  intros Hm. unfold defineProperty. destruct (ownProperty m key) eqn:Hk.
  - apply propertyOrder_replace, Hm.
  - apply propertyOrder_add; assumption.
Qed.

Lemma propertyOrder_assign m key value :
  propertyOrder m -> propertyOrder (assignProperty m key value).
Proof.
  intros Hm. unfold assignProperty. destruct (ownProperty m key) eqn:Hk.
  - apply propertyOrder_replace, Hm.
  - destruct (decide (key = lit "__proto__")); [exact Hm |].
    apply propertyOrder_add; assumption.
Qed.

(** A property that belongs after all the others is added at the end. *)
Lemma addProperty_last m key value :
  Forall (fun k => placedBefore key k = false) m.*1 ->
  addProperty m key value = m ++ [(key, value)].
Proof.
  induction m as [| [k v] m IH]; cbn; [reflexivity |].
  intros [Hk Hm]%Forall_cons. rewrite Hk, IH by exact Hm. reflexivity.
Qed.

Lemma sorted_middle {A : Type} (R : A -> A -> Prop) (l1 l2 : list A) (x : A) :
  StronglySorted R (l1 ++ x :: l2) -> Forall (fun a => R a x) l1.
Proof.
  induction l1 as [| a l1 IH]; cbn; [constructor |].
  intros [Hs Ha]%StronglySorted_inv. constructor; [| apply IH, Hs].
  rewrite Forall_app, Forall_cons in Ha. tauto.
Qed.

(** Defining the members of an object one by one, in their order, builds
    the object again. *)
Lemma foldl_defineProperty m2 : forall m1,
  propertyOrder (m1 ++ m2) ->
  foldl (fun m kv => defineProperty m kv.1 kv.2) m1 m2 = m1 ++ m2.
Proof.
  induction m2 as [| [k v] m2 IH]; intros m1 Hm; cbn [foldl].
  - rewrite app_nil_r. reflexivity.
  - assert (Hstep : defineProperty m1 k v = m1 ++ [(k, v)]).
    { destruct Hm as [Hnd Hs]. rewrite fmap_app in Hnd, Hs. cbn in Hnd, Hs.
      unfold defineProperty. cbn [fst snd].
      assert (Hn : ownProperty m1 k = None).
      { apply ownProperty_None. intros Hin.
        apply NoDup_app in Hnd as (_ & Hdis & _). apply (Hdis k Hin), list_elem_of_here. }
      rewrite Hn. apply addProperty_last. exact (sorted_middle _ _ _ _ Hs). }
    cbn [fst snd]. rewrite Hstep. rewrite IH; rewrite <- app_assoc; [reflexivity | exact Hm].
Qed.

(** *** Assignment *)

Lemma ownProperty_assign m id value k :
  ownProperty (assignProperty m id value) k
  = if decide (k = id)
    then (if bool_decide (id = lit "__proto__") && bool_decide (ownProperty m id = None)
          then None else Some value)
    else ownProperty m k.
Proof.
  unfold assignProperty. destruct (decide (k = id)) as [-> | Hne].
  - destruct (ownProperty m id) as [x |] eqn:Hid.
    + rewrite ownProperty_replace_eq by (rewrite Hid; eexists; reflexivity).
      rewrite (bool_decide_eq_false_2 (Some x = None)) by discriminate.
      rewrite andb_false_r. reflexivity.
    + rewrite (bool_decide_eq_true_2 (None = None)) by reflexivity. rewrite andb_true_r.
      destruct (decide (id = lit "__proto__")) as [Hp | Hp].
      * rewrite (bool_decide_eq_true_2 _ Hp). exact Hid.
      * rewrite (bool_decide_eq_false_2 _ Hp). apply ownProperty_add_eq, Hid.
  - destruct (ownProperty m id) eqn:Hid.
    + apply ownProperty_replace_ne, Hne.
    + destruct (decide (id = lit "__proto__")); [reflexivity |].
      apply ownProperty_add_ne, Hne.
Qed.


Lemma replaceProperty_twice m key v1 v2 :
  replaceProperty (replaceProperty m key v1) key v2 = replaceProperty m key v2.
Proof.
  induction m as [| [k v] m IH]; [reflexivity |]. cbn.
  destruct (decide (k = key)) as [-> | Hne]; cbn.
  - rewrite decide_True by reflexivity. reflexivity.
  - rewrite decide_False by exact Hne. rewrite IH. reflexivity.
Qed.

Lemma replaceProperty_added m key v1 v2 :
  ownProperty m key = None ->
  replaceProperty (addProperty m key v1) key v2 = addProperty m key v2.
Proof.
  induction m as [| [k v] m IH]; cbn.
  - intros _. rewrite decide_True by reflexivity. reflexivity.
  - destruct (decide (k = key)) as [-> | Hne]; [discriminate |]. intros Hn.
    destruct (placedBefore key k); cbn.
    + rewrite decide_True by reflexivity. reflexivity.
    + rewrite decide_False by exact Hne. rewrite IH by exact Hn. reflexivity.
Qed.

Lemma assignProperty_own m id value x :
  ownProperty m id = Some x -> assignProperty m id value = replaceProperty m id value.
Proof. intros Hid. unfold assignProperty. rewrite Hid. reflexivity. Qed.

Lemma assignProperty_proto m id value :
  ownProperty m id = None -> id = lit "__proto__" -> assignProperty m id value = m.
Proof.
  intros Hid Hp. unfold assignProperty. rewrite Hid, decide_True by exact Hp. reflexivity.
Qed.

Lemma assignProperty_new m id value :
  ownProperty m id = None -> id <> lit "__proto__" ->
  assignProperty m id value = addProperty m id value.
Proof.
  intros Hid Hp. unfold assignProperty. rewrite Hid, decide_False by exact Hp. reflexivity.
Qed.

(** A second assignment to a name overrides the first. *)
Lemma assignProperty_twice m id v1 v2 :
  assignProperty (assignProperty m id v1) id v2 = assignProperty m id v2.
Proof.
  destruct (ownProperty m id) as [x |] eqn:Hid.
  - rewrite (assignProperty_own m id v1 x Hid), (assignProperty_own m id v2 x Hid).
    rewrite (assignProperty_own _ id v2 v1)
      by (apply ownProperty_replace_eq; rewrite Hid; eexists; reflexivity).
    apply replaceProperty_twice.
  - destruct (decide (id = lit "__proto__")) as [Hp | Hp].
    + rewrite (assignProperty_proto m id v1 Hid Hp). reflexivity.
    + rewrite (assignProperty_new m id v1 Hid Hp), (assignProperty_new m id v2 Hid Hp).
      rewrite (assignProperty_own _ id v2 v1) by (apply ownProperty_add_eq, Hid).
      apply replaceProperty_added, Hid.
Qed.

Lemma replaceProperty_swap m a b va vb :
  a <> b ->
  replaceProperty (replaceProperty m a va) b vb = replaceProperty (replaceProperty m b vb) a va.
Proof.
  intros Hab. induction m as [| [k v] m IH]; [reflexivity |]. cbn.
  repeat (destruct (decide _); cbn); congruence.
Qed.

Lemma addProperty_replaced m a b va vb :
  a <> b ->
  addProperty (replaceProperty m a va) b vb = replaceProperty (addProperty m b vb) a va.
Proof.
  intros Hab. induction m as [| [k v] m IH]; cbn.
  - destruct (decide _); congruence.
  - destruct (decide (k = a)) as [Ha | Ha]; cbn; destruct (placedBefore b k); cbn;
      repeat (destruct (decide _); cbn); congruence.
Qed.

(** Assignments to two names, one of which the object has already, give
    the same object in either order. *)
Lemma assignProperty_swap_own m a b va vb :
  a <> b -> is_Some (ownProperty m a) ->
  assignProperty (assignProperty m a va) b vb = assignProperty (assignProperty m b vb) a va.
Proof.
  intros Hab [x Ha].
  assert (Hba : b <> a) by congruence.
  rewrite (assignProperty_own m a va x Ha).
  destruct (ownProperty m b) as [y |] eqn:Hb.
  - rewrite (assignProperty_own m b vb y Hb).
    rewrite (assignProperty_own _ b vb y) by (rewrite ownProperty_replace_ne; assumption).
    rewrite (assignProperty_own _ a va x) by (rewrite ownProperty_replace_ne; assumption).
    apply replaceProperty_swap, Hab.
  - destruct (decide (b = lit "__proto__")) as [Hp | Hp].
    + rewrite (assignProperty_proto m b vb Hb Hp).
      rewrite assignProperty_proto by (try rewrite ownProperty_replace_ne; assumption).
      symmetry. apply (assignProperty_own m a va x Ha).
    + rewrite (assignProperty_new m b vb Hb Hp).
      rewrite assignProperty_new by (try rewrite ownProperty_replace_ne; assumption).
      rewrite (assignProperty_own _ a va x) by (rewrite ownProperty_add_ne; assumption).
      apply addProperty_replaced, Hab.
Qed.

Lemma ownProperty_assign_swap m a b va vb k :
  a <> b ->
  ownProperty (assignProperty (assignProperty m a va) b vb) k
  = ownProperty (assignProperty (assignProperty m b vb) a va) k.
Proof.
  intros Hab. rewrite !ownProperty_assign.
  rewrite (decide_False (P := b = a)) by congruence.
  rewrite (decide_False (P := a = b)) by exact Hab.
  destruct (decide (k = b)) as [Hb | Hb]; destruct (decide (k = a)) as [Ha | Ha];
    congruence.
Qed.

End ObjectFacts.

(** ** The reference host keeps the laws *)

Module ReferenceFacts.
Import Reference.

(** *** Comparison by code units *)

Lemma compareUnits_range a b :
  compareUnits a b = -1 \/ compareUnits a b = 0 \/ compareUnits a b = 1.
Proof.
  revert b. induction a as [| x a IH]; intros [| y b]; cbn; auto.
  destruct (x <? y)%N; auto. destruct (y <? x)%N; auto.
Qed.

Lemma compareUnits_flip a b : compareUnits a b < 0 <-> 0 < compareUnits b a.
Proof.
  revert b. induction a as [| x a IH]; intros [| y b]; cbn; try lia.
  destruct (N.ltb_spec x y), (N.ltb_spec y x); try lia. apply IH.
Qed.

Lemma compareUnits_trans a b c :
  compareUnits a b <= 0 -> compareUnits b c <= 0 -> compareUnits a c <= 0.
Proof.
  revert b c. induction a as [| x a IH]; intros [| y b] [| z c]; cbn; try lia.
  destruct (N.ltb_spec x y), (N.ltb_spec y x), (N.ltb_spec y z), (N.ltb_spec z y),
    (N.ltb_spec x z), (N.ltb_spec z x); try lia.
  apply IH.
Qed.

Lemma host_collation tz : Collation (host tz).
Proof.
  split; [apply compareUnits_flip | apply compareUnits_trans].
Qed.

(** *** Strings are read back *)

Lemma hexValue_hexDigit n : (n < 16)%N -> hexValue (hexDigit n) = Some n.
Proof.
  intros Hn. unfold hexValue, hexDigit.
  destruct (N.ltb_spec n 10).
  - replace ((48 <=? 48 + n) && (48 + n <=? 57))%N with true
      by (symmetry; apply andb_true_iff; split; apply N.leb_le; lia).
    f_equal. lia.
  - replace ((48 <=? 87 + n) && (87 + n <=? 57))%N with false
      by (symmetry; apply andb_false_iff; right; apply N.leb_gt; lia).
    replace ((97 <=? 87 + n) && (87 + n <=? 102))%N with true
      by (symmetry; apply andb_true_iff; split; apply N.leb_le; lia).
    f_equal. lia.
Qed.

Lemma readChars_plain c s :
  c <> QUOTE -> c <> BACKSLASH -> (32 <= c)%N ->
  readChars (c :: s) = '(r, rest) ← readChars s; Some (c :: r, rest).
Proof.
  intros Hq Hb Hc. cbn [readChars].
  destruct (N.eqb_spec c QUOTE); [contradiction |].
  destruct (N.eqb_spec c BACKSLASH); [contradiction |].
  destruct (N.ltb_spec c 32); [lia | reflexivity].
Qed.

Lemma readChars_letter e u s :
  unescape e = Some u -> e <> 117%N ->
  readChars (BACKSLASH :: e :: s) = '(r, rest) ← readChars s; Some (u :: r, rest).
Proof.
  intros Hu He. cbn [readChars].
  replace (BACKSLASH =? QUOTE)%N with false by reflexivity.
  replace (BACKSLASH =? BACKSLASH)%N with true by reflexivity.
  destruct (N.eqb_spec e 117); [contradiction |].
  rewrite Hu. reflexivity.
Qed.

Lemma readChars_control c s :
  (c < 32)%N ->
  readChars (BACKSLASH :: 117%N :: 48%N :: 48%N :: hexDigit (c / 16) :: hexDigit (c mod 16) :: s)
  = '(r, rest) ← readChars s; Some (c :: r, rest).
Proof.
  intros Hc. cbn [readChars].
  replace (BACKSLASH =? QUOTE)%N with false by reflexivity.
  replace (BACKSLASH =? BACKSLASH)%N with true by reflexivity.
  replace (117 =? 117)%N with true by reflexivity.
  replace (hexValue 48) with (Some 0%N) by reflexivity.
  assert (H1 : (c / 16 < 16)%N) by (apply N.Div0.div_lt_upper_bound; lia).
  assert (H0 : (c mod 16 < 16)%N) by (apply N.mod_lt; lia).
  rewrite (hexValue_hexDigit _ H1), (hexValue_hexDigit _ H0).
  cbn [mbind option_bind].
  replace (((0 * 16 + 0) * 16 + c / 16) * 16 + c mod 16)%N with c
    by (rewrite (N.div_mod c 16) at 1; lia).
  reflexivity.
Qed.

(** One case of [escapeUnit]: the unit [c] is compared with a unit that
    has a one-letter escape. *)
Ltac escape_letter c :=
  match goal with
  | |- context [(c =? ?k)%N] =>
      destruct (N.eqb_spec c k) as [-> |];
      [apply readChars_letter; [reflexivity | discriminate] |]
  end.

Lemma readChars_escapeUnit c s :
  readChars (escapeUnit c ++ s) = '(r, rest) ← readChars s; Some (c :: r, rest).
Proof.
  unfold escapeUnit. do 7 escape_letter c.
  destruct (N.ltb_spec c 32).
  - apply readChars_control. assumption.
  - apply readChars_plain; assumption.
Qed.

Lemma readChars_escaped s rest :
  readChars (concat (List.map escapeUnit s) ++ QUOTE :: rest) = Some (s, rest).
Proof.
  induction s as [| c s IH]; [reflexivity |].
  cbn [List.map concat]. rewrite <- app_assoc, readChars_escapeUnit, IH. reflexivity.
Qed.

Lemma readString_quoteString s rest :
  readString (quoteString s ++ rest) = Some (s, rest).
Proof.
  unfold readString, quoteString. cbn [app skipSpace].
  replace (isJsonSpace QUOTE) with false by reflexivity.
  cbn [expect]. replace (QUOTE =? QUOTE)%N with true by reflexivity.
  cbn [mbind option_bind]. rewrite <- app_assoc. apply readChars_escaped.
Qed.

(** *** Ledgers are read back *)

Lemma readMembers_written l : forall fuel acc rest,
  l <> [] -> (length l <= fuel)%nat ->
  readMembers fuel acc (join [44%N] (List.map writeMember l) ++ 125%N :: rest)
  = Some (foldl insertMember acc l, rest).
Proof.
  induction l as [| [k v] l IH]; intros fuel acc rest Hne Hfuel; [congruence |].
  destruct fuel as [| fuel]; [cbn in Hfuel; lia |].
  assert (Hhead : forall tail,
    readMembers (S fuel) acc (writeMember (k, v) ++ tail)
    = match skipSpace tail with
      | c :: s' =>
          if (c =? 44)%N then readMembers fuel (defineProperty acc k v) s'
          else if (c =? 125)%N then Some (defineProperty acc k v, s')
          else None
      | [] => None
      end).
  { intros tail. unfold writeMember. cbn [fst snd readMembers].
    rewrite <- !app_assoc, readString_quoteString. cbn [mbind option_bind app].
    replace (skipSpace (COLON :: quoteString v ++ tail)) with (COLON :: quoteString v ++ tail)
      by reflexivity.
    cbn [expect]. replace (COLON =? COLON)%N with true by reflexivity.
    cbn [mbind option_bind]. rewrite readString_quoteString. reflexivity. }
  destruct l as [| kv' l].
  - cbn [List.map join foldl]. rewrite Hhead. reflexivity.
  - change (join [44%N] (List.map writeMember ((k, v) :: kv' :: l)))
      with (writeMember (k, v) ++ [44%N] ++ join [44%N] (List.map writeMember (kv' :: l))).
    rewrite <- !app_assoc, Hhead. cbn [app skipSpace].
    replace (isJsonSpace 44%N) with false by reflexivity.
    replace (44 =? 44)%N with true by reflexivity.
    rewrite IH; [reflexivity | discriminate | cbn in *; lia].
Qed.

Lemma foldl_insertMember (l : list (jsstring * jsstring)) :
  propertyOrder l -> foldl insertMember [] l = l.
Proof. intros Hl. apply (foldl_defineProperty l []). exact Hl. Qed.

(** What [readMembers] returns is in property order. *)
Lemma readMembers_ordered fuel : forall acc s m rest,
  propertyOrder acc -> readMembers fuel acc s = Some (m, rest) -> propertyOrder m.
Proof.
  induction fuel as [| fuel IH]; intros acc s m rest Hacc Hread; [discriminate |].
  cbn [readMembers] in Hread.
  destruct (readString s) as [[k s1] |]; [| discriminate]. cbn [mbind option_bind] in Hread.
  destruct (expect COLON (skipSpace s1)) as [s2 |]; [| discriminate].
  cbn [mbind option_bind] in Hread.
  destruct (readString s2) as [[v s3] |]; [| discriminate]. cbn [mbind option_bind] in Hread.
  destruct (skipSpace s3) as [| c s4]; [discriminate |].
  destruct (c =? 44)%N.
  - apply (IH _ _ _ _ (propertyOrder_define acc k v Hacc) Hread).
  - destruct (c =? 125)%N; [| discriminate].
    injection Hread as <- _. apply propertyOrder_define, Hacc.
Qed.

Lemma parse_object_ordered text m : parse text = Some (VObject m) -> propertyOrder m.
Proof.
  unfold parse. destruct (readValue text) as [[v rest] |] eqn:Hv; [| discriminate].
  cbn [mbind option_bind]. destruct (skipSpace rest); [| discriminate].
  intros [= ->]. unfold readValue in Hv.
  destruct (skipSpace text) as [| c s']; [discriminate |].
  destruct (c =? 123)%N.
  - destruct (skipSpace s') as [| c' s'']; [discriminate |].
    destruct (c' =? 125)%N.
    + injection Hv as <- _. apply propertyOrder_nil.
    + destruct (readMembers (length s') [] s') as [[m' rest'] |] eqn:Hm; [| discriminate].
      cbn [mbind option_bind] in Hv. injection Hv as <- _.
      apply (readMembers_ordered _ _ _ _ _ propertyOrder_nil Hm).
  - destruct (c =? QUOTE)%N.
    + destruct (readChars s') as [[r rest'] |]; [| discriminate]. discriminate.
    + repeat (case_decide; [discriminate |]). discriminate.
Qed.

Lemma writeMember_length kv : (1 <= length (writeMember kv))%nat.
Proof. unfold writeMember, quoteString. cbn. lia. Qed.

Lemma join_members_length l :
  (length l <= length (join [44%N] (List.map writeMember l)))%nat.
Proof.
  induction l as [| kv l IH]; [cbn; lia |].
  destruct l as [| kv' l].
  - cbn [List.map join length]. pose proof (writeMember_length kv). lia.
  - change (join [44%N] (List.map writeMember (kv :: kv' :: l)))
      with (writeMember kv ++ [44%N] ++ join [44%N] (List.map writeMember (kv' :: l))).
    rewrite !length_app. cbn [length] in *. lia.
Qed.

Lemma parse_stringify_object m :
  propertyOrder m -> parse (stringify (VObject m)) = Some (VObject m).
Proof.
  intros Hm. unfold parse, stringify, readValue. cbn [app skipSpace].
  replace (isJsonSpace 123%N) with false by reflexivity.
  replace (123 =? 123)%N with true by reflexivity.
  destruct m as [| [k v] l]; [reflexivity |].
  set (text := join [44%N] (List.map writeMember ((k, v) :: l)) ++ [125%N]).
  assert (Hstart : exists t, text = QUOTE :: t).
  { unfold text. destruct l; cbn; eexists; reflexivity. }
  destruct Hstart as [t Ht]. rewrite Ht. cbn [skipSpace].
  replace (isJsonSpace QUOTE) with false by reflexivity.
  replace (QUOTE =? 125)%N with false by reflexivity.
  rewrite <- Ht. unfold text.
  rewrite readMembers_written;
    [| discriminate | rewrite length_app; pose proof (join_members_length ((k, v) :: l)); lia].
  cbn [mbind option_bind skipSpace]. rewrite foldl_insertMember by exact Hm. reflexivity.
Qed.

Lemma host_json tz : JsonCodec (host tz).
Proof.
  split.
  - apply parse_object_ordered.
  - apply parse_stringify_object.
  - intros m. cbn. discriminate.
Qed.

End ReferenceFacts.

(** ** Short names *)

Section ShortenFacts.

Lemma shorten_short s n :
  (length s <= n)%nat -> shortenAssignmentName s n = s.
Proof.
  intros H. unfold shortenAssignmentName.
  destruct (Nat.leb_spec (length s) n); [reflexivity | lia].
Qed.

Lemma shorten_lastPart s n :
  (n < length s)%nat -> lastPartQualifies s n = true ->
  shortenAssignmentName s n = trim (List.last (split isSeparator s) []).
Proof.
  intros Hlen Hq. unfold shortenAssignmentName, lastPartQualifies in *.
  destruct (Nat.leb_spec (length s) n); [lia |].
  apply andb_true_iff in Hq as [Hq H3]. apply andb_true_iff in Hq as [H1 H2].
  rewrite H1. cbn zeta. rewrite H2, H3. reflexivity.
Qed.

Lemma shorten_truncate s n :
  (n < length s)%nat -> lastPartQualifies s n = false ->
  shortenAssignmentName s n = take n s ++ [ELLIPSIS].
Proof.
  intros Hlen Hq. unfold shortenAssignmentName, lastPartQualifies in *.
  destruct (Nat.leb_spec (length s) n); [lia |].
  cbn zeta in *.
  destruct (1 <? length (split isSeparator s))%nat; [| reflexivity].
  cbn [andb] in Hq. rewrite Hq. reflexivity.
Qed.

Lemma truncate_length (s : jsstring) n :
  (n < length s)%nat -> length (take n s ++ [ELLIPSIS]) = S n.
Proof.
  intros H. rewrite length_app, length_take. cbn. lia.
Qed.

Lemma lastPartQualifies_length s n :
  lastPartQualifies s n = true ->
  (10 < length (trim (List.last (split isSeparator s) [])) <= n)%nat.
Proof.
  unfold lastPartQualifies. cbn zeta. intros Hq.
  apply andb_true_iff in Hq as [Hq H3]. apply andb_true_iff in Hq as [_ H2].
  apply Nat.ltb_lt in H2. apply Nat.leb_le in H3. lia.
Qed.

(** The three branches of [shortenAssignmentName] at the default length. *)
Lemma shortName_length_by_branch_aux (fullName : jsstring) :
  let r := shortenAssignmentName fullName defaultMaxLen in
  ((length fullName <= 45)%nat /\ r = fullName /\ (length r <= 45)%nat)
  \/ ((45 < length fullName)%nat /\ lastPartQualifies fullName 45 = true
      /\ r = trim (List.last (split isSeparator fullName) [])
      /\ (10 < length r <= 45)%nat)
  \/ ((45 < length fullName)%nat /\ lastPartQualifies fullName 45 = false
      /\ r = take 45 fullName ++ [ELLIPSIS]
      /\ length r = 46%nat).
Proof.
  intros r. subst r. unfold defaultMaxLen.
  destruct (Nat.le_gt_cases (length fullName) 45) as [Hle | Hgt].
  - left. rewrite shorten_short by exact Hle. auto.
  - right. destruct (lastPartQualifies fullName 45) eqn:Hq.
    + left. rewrite shorten_lastPart by assumption.
      split; [lia |]. split; [reflexivity |]. split; [reflexivity |].
      apply lastPartQualifies_length, Hq.
    + right. rewrite shorten_truncate by assumption.
      split; [lia |]. split; [reflexivity |]. split; [reflexivity |].
      apply truncate_length. lia.
Qed.

End ShortenFacts.

(** C5, as the specification words it, fails: a name of sixty letters
    [a] without separator is cut to 45 code units and the ellipsis makes
    46. *)
Lemma shortName_length_counterexample :
  ~ (length (shortenAssignmentName (replicate 60 97%N) defaultMaxLen) <= 45)%nat.
Proof. vm_compute. lia. Qed.

(** C5 (amended): with the default [maxLen] of 45 the short name is the
    name itself (at most 45 code units), or the qualifying last part (at
    most 45), or the first 45 code units and one ellipsis (exactly 46). *)
Theorem shortName_length_by_branch (fullName : jsstring) :
  let r := shortenAssignmentName fullName defaultMaxLen in
  ((length fullName <= 45)%nat /\ r = fullName /\ (length r <= 45)%nat)
  \/ ((45 < length fullName)%nat /\ lastPartQualifies fullName 45 = true
      /\ r = trim (List.last (split isSeparator fullName) [])
      /\ (10 < length r <= 45)%nat)
  \/ ((45 < length fullName)%nat /\ lastPartQualifies fullName 45 = false
      /\ r = take 45 fullName ++ [ELLIPSIS]
      /\ length r = 46%nat).
Proof. exact (shortName_length_by_branch_aux fullName). Qed.

(** C6, as the specification words it, fails: ["AAAA: "] followed by 55
    letters [b] is cut to 46 code units, and the cut text has a last part
    of 40 code units, which the second application returns. *)
Lemma shorten_twice_counterexample :
  shortenAssignmentName
    (shortenAssignmentName (lit "AAAA: " ++ replicate 55 98%N) defaultMaxLen) defaultMaxLen
  <> shortenAssignmentName (lit "AAAA: " ++ replicate 55 98%N) defaultMaxLen.
Proof. vm_compute. discriminate. Qed.

(** C6 (amended): a second application returns the first result exactly
    when that result has at most 45 code units (the name was returned
    unchanged, or its last part was) or, being a cut of 46 code units, has
    no qualifying last part of its own. *)
Theorem shorten_twice (s : jsstring) :
  let once := shortenAssignmentName s defaultMaxLen in
  shortenAssignmentName once defaultMaxLen = once
  <-> ((length once <= 45)%nat \/ lastPartQualifies once 45 = false).
Proof.
  intros once. unfold defaultMaxLen in *. split.
  - intros Hfix.
    destruct (Nat.le_gt_cases (length once) 45) as [Hle | Hgt]; [left; exact Hle |].
    right. destruct (lastPartQualifies once 45) eqn:Hq; [| reflexivity].
    exfalso. rewrite shorten_lastPart in Hfix by assumption.
    apply lastPartQualifies_length in Hq. rewrite Hfix in Hq. lia.
  - intros [Hle | Hq].
    + apply shorten_short, Hle.
    + destruct (Nat.le_gt_cases (length once) 45) as [Hle | Hgt];
        [apply shorten_short, Hle |].
      rewrite shorten_truncate by assumption.
      pose proof (shortName_length_by_branch_aux s) as Hb. cbn zeta in Hb.
      unfold defaultMaxLen in Hb. fold once in Hb.
      destruct Hb as [(_ & _ & Hl) | [(_ & _ & _ & Hl) | (Hs & _ & Hr & _)]];
        [lia | lia |].
      rewrite Hr.
      rewrite take_app_le by (rewrite length_take; lia).
      rewrite take_take. replace (45 `min` 45)%nat with 45%nat by reflexivity.
      reflexivity.
Qed.

(** ** Days and windows *)

Section DateFacts.

Context {H : Host}.

Lemma msPerDay_pos : 0 < msPerDay.
Proof. reflexivity. Qed.

Lemma startOfDay_bounds t : startOfDay t <= t < startOfDay t + msPerDay.
Proof.
  unfold startOfDay.
  pose proof (Z.mod_pos_bound (t + timezoneOffset) msPerDay msPerDay_pos). lia.
Qed.

Lemma startOfDay_aligned t : (startOfDay t + timezoneOffset) mod msPerDay = 0.
Proof.
  unfold startOfDay.
  replace (t - (t + timezoneOffset) mod msPerDay + timezoneOffset)
    with ((t + timezoneOffset) - (t + timezoneOffset) mod msPerDay) by lia.
  rewrite Zminus_mod, Z.mod_mod, Z.sub_diag by (unfold msPerDay; lia).
  reflexivity.
Qed.

(** A local midnight [s] is the start of the day of every instant of the
    following 24 hours. *)
Lemma startOfDay_unique s d :
  (s + timezoneOffset) mod msPerDay = 0 -> s <= d < s + msPerDay ->
  startOfDay d = s.
Proof.
  intros Hs Hd. unfold startOfDay.
  replace (d + timezoneOffset) with ((d - s) + (s + timezoneOffset)) by lia.
  rewrite Zplus_mod, Hs, Z.add_0_r, Z.mod_mod by (unfold msPerDay; lia).
  rewrite Z.mod_small by lia. lia.
Qed.

Lemma startOfDay_idem t : startOfDay (startOfDay t) = startOfDay t.
Proof.
  apply startOfDay_unique; [apply startOfDay_aligned |].
  pose proof msPerDay_pos. lia.
Qed.

Lemma startOfDay_shift t n : startOfDay (t + n * msPerDay) = startOfDay t + n * msPerDay.
Proof.
  unfold startOfDay.
  replace (t + n * msPerDay + timezoneOffset) with (t + timezoneOffset + n * msPerDay) by lia.
  rewrite Z_mod_plus_full. lia.
Qed.

(** Two instants are on one calendar day exactly when the second lies in
    the 24 hours that start at the local midnight of the first. *)
Lemma same_day_iff c d :
  startOfDay d = startOfDay c <-> startOfDay c <= d < startOfDay c + msPerDay.
Proof.
  split.
  - intros <-. apply startOfDay_bounds.
  - intros Hd. apply startOfDay_unique; [apply startOfDay_aligned | exact Hd].
Qed.

Lemma midnightNow_eq clock : midnightNow clock = DateAt (startOfDay clock).
Proof. unfold midnightNow, setHours. f_equal; lia. Qed.

Lemma todayStart_eq clock : todayStart clock = DateAt (startOfDay clock).
Proof.
  unfold todayStart. rewrite midnightNow_eq. unfold setHours.
  rewrite startOfDay_idem. f_equal; lia.
Qed.

Lemma tomorrowStart_eq clock : tomorrowStart clock = DateAt (startOfDay clock + msPerDay).
Proof. unfold tomorrowStart. rewrite todayStart_eq. unfold addDays. f_equal; lia. Qed.

Lemma oneWeekOut_eq clock : oneWeekOut clock = DateAt (weekWindowEnd clock).
Proof.
  unfold oneWeekOut, weekWindowEnd. rewrite midnightNow_eq. unfold addDays, setHours.
  rewrite startOfDay_shift, startOfDay_idem. f_equal; unfold msPerDay; lia.
Qed.

(** What [formatAssignment] computes from a timestamp that parses. *)
Lemma formatAssignment_dated clock a d :
  dueInstant a = Some d ->
  hasDueDate (formatAssignment clock a) = true
  /\ isUrgent (formatAssignment clock a)
     = Some ((startOfDay clock <=? d) && (d <=? weekWindowEnd clock))
  /\ urgency (formatAssignment clock a)
     = if startOfDay d =? startOfDay clock then Some today
       else if (startOfDay clock + msPerDay <=? d) && (d <=? weekWindowEnd clock)
            then Some week
            else None.
Proof.
  unfold dueInstant, formatAssignment. cbn [hasDueDate isUrgent urgency].
  destruct (truthy (due_at a)) eqn:Ht; [| discriminate].
  destruct (due_at a) as [s |]; [| discriminate]. cbn [default mbind option_bind].
  intros Hd. unfold id, newDate. rewrite Hd.
  rewrite midnightNow_eq, todayStart_eq, tomorrowStart_eq, oneWeekOut_eq.
  cbn [setHours Date_sameTime Date_le].
  replace (startOfDay d + ((0 * 60 + 0) * 60 + 0) * 1000 + 0) with (startOfDay d) by lia.
  repeat split; reflexivity.
Qed.

(** What [formatAssignment] computes from a [due_at] that is present and
    does not parse. *)
Lemma formatAssignment_unparseable clock a s :
  due_at a = Some s -> s <> [] -> Date_parse s = None ->
  hasDueDate (formatAssignment clock a) = true
  /\ due (formatAssignment clock a) = lit "Invalid Date"
  /\ urgency (formatAssignment clock a) = None
  /\ isUrgent (formatAssignment clock a) = Some false.
Proof.
  intros Ha Hs Hp. unfold formatAssignment.
  cbn [hasDueDate due isUrgent urgency]. rewrite Ha.
  destruct s as [| c s]; [congruence |]. cbn [truthy default].
  unfold id, newDate. rewrite Hp. cbn. repeat split; reflexivity.
Qed.

(** What [formatAssignment] computes without a [due_at]. *)
Lemma formatAssignment_undated clock a :
  truthy (due_at a) = false ->
  hasDueDate (formatAssignment clock a) = false
  /\ due (formatAssignment clock a) = lit "No due date"
  /\ urgency (formatAssignment clock a) = None
  /\ isUrgent (formatAssignment clock a) = None.
Proof.
  intros Ha. unfold formatAssignment.
  cbn [hasDueDate due isUrgent urgency]. rewrite Ha. auto.
Qed.

(** [hasDueDate] tells whether [due_at] is present, whether or not it
    parses. *)
Lemma hasDueDate_present clock a :
  hasDueDate (formatAssignment clock a) = truthy (due_at a).
Proof.
  unfold formatAssignment. cbn [hasDueDate]. destruct (truthy (due_at a)); reflexivity.
Qed.

End DateFacts.

(** ** The assignment normaliser *)

(** C1: the code departs from the claim.  On the reference host, at
    08:00 UTC, an assignment whose [due_at] is the text [not-a-date] (which
    does not parse) is given [hasDueDate = true] and the due text
    [Invalid Date]; its urgency is [null] and [isUrgent] is false. *)
Theorem unparseable_due_at_counts_as_dated :
  let a := Sample.assignment (Some (lit "not-a-date")) None in
  let v := formatAssignment (H := Reference.host 0) Sample.eightOClock a in
  Date_parse (Host := Reference.host 0) (lit "not-a-date") = None
  /\ hasDueDate v = true
  /\ due v = lit "Invalid Date"
  /\ urgency v = None
  /\ isUrgent v = Some false.
Proof.
  split; [reflexivity |].
  apply (formatAssignment_unparseable (H := Reference.host 0)) with (s := lit "not-a-date");
    [reflexivity | discriminate | reflexivity].
Qed.

(** C3, as the specification words it, fails: at 08:00 an assignment due
    at 07:00 of the same day is urgent although its due instant is before
    the current instant. *)
Lemma isUrgent_counterexample :
  let a := Sample.assignment (Some (lit "1970-01-01T07:00:00Z")) None in
  let clock := Sample.eightOClock in
  dueInstant (H := Reference.host 0) a = Some (7 * 3600000)
  /\ ~ (isUrgent (formatAssignment (H := Reference.host 0) clock a) = Some true
        <-> clock <= 7 * 3600000 <= weekWindowEnd (H := Reference.host 0) clock).
Proof.
  split; [reflexivity |].
  intros [Hurgent _]. specialize (Hurgent eq_refl).
  vm_compute in Hurgent. destruct Hurgent as [Hle _]. apply Hle. reflexivity.
Qed.

(** C3 (amended): [isUrgent] is true exactly when the due instant lies
    between the local midnight that starts the current day and the end of
    the week window, both included; so a due instant earlier today, before
    the current instant, is urgent. *)
Theorem isUrgent_window {H : Host} (clock : Z) (a : RawAssignment) (d : Z) :
  dueInstant a = Some d ->
  (isUrgent (formatAssignment clock a) = Some true
   <-> startOfDay clock <= d <= weekWindowEnd clock)
  /\ (startOfDay clock <= d < clock -> isUrgent (formatAssignment clock a) = Some true).
Proof.
  intros Hd. destruct (formatAssignment_dated clock a d Hd) as (_ & -> & _).
  assert (Hiff : Some ((startOfDay clock <=? d) && (d <=? weekWindowEnd clock)) = Some true
                 <-> startOfDay clock <= d <= weekWindowEnd clock).
  { split.
    - intros [= Hb]. apply andb_true_iff in Hb as [H1 H2]. lia.
    - intros [H1 H2]. f_equal. apply andb_true_iff. split; lia. }
  split; [exact Hiff |].
  intros [H1 H2]. apply Hiff. split; [exact H1 |].
  pose proof (startOfDay_bounds clock). unfold weekWindowEnd, msPerDay in *. lia.
Qed.

Lemma isUrgent_window_witness :
  let a := Sample.assignment (Some (lit "1970-01-01T07:00:00Z")) None in
  let clock := Sample.eightOClock in
  (isUrgent (formatAssignment (H := Reference.host 0) clock a) = Some true
   <-> startOfDay (H := Reference.host 0) clock <= 7 * 3600000
       <= weekWindowEnd (H := Reference.host 0) clock)
  /\ (startOfDay (H := Reference.host 0) clock <= 7 * 3600000 < clock ->
      isUrgent (formatAssignment (H := Reference.host 0) clock a) = Some true).
Proof.
  exact (isUrgent_window (H := Reference.host 0) Sample.eightOClock
           (Sample.assignment (Some (lit "1970-01-01T07:00:00Z")) None)
           (7 * 3600000) eq_refl).
Defined.

(** C4, as the specification words it, fails: an assignment due exactly
    at tomorrow's local midnight is classified [week], although that
    instant is not after tomorrow's start. *)
Lemma urgency_counterexample :
  let a := Sample.assignment (Some (lit "1970-01-02T00:00:00Z")) None in
  let clock := Sample.eightOClock in
  dueInstant (H := Reference.host 0) a = Some msPerDay
  /\ tomorrowStart (H := Reference.host 0) clock = DateAt msPerDay
  /\ ~ (urgency (formatAssignment (H := Reference.host 0) clock a) = Some week
        <-> msPerDay < msPerDay <= weekWindowEnd (H := Reference.host 0) clock).
Proof.
  split; [reflexivity |]. split; [reflexivity |].
  intros [Hweek _]. specialize (Hweek eq_refl). lia.
Qed.

(** C4 (amended): for a due instant [d], the urgency is [today] exactly
    when [d] is on the calendar day of the clock, [week] exactly when [d]
    lies between tomorrow's local midnight and the end of the week window,
    both included, and [null] exactly in the remaining case. *)
Theorem urgency_classes {H : Host} (clock : Z) (a : RawAssignment) (d : Z) :
  dueInstant a = Some d ->
  let u := urgency (formatAssignment clock a) in
  (u = Some today <-> startOfDay d = startOfDay clock)
  /\ (u = Some week <-> startOfDay clock + msPerDay <= d <= weekWindowEnd clock)
  /\ (u = None <-> startOfDay d <> startOfDay clock
                   /\ ~ (startOfDay clock + msPerDay <= d <= weekWindowEnd clock)).
Proof.
  intros Hd u. subst u.
  destruct (formatAssignment_dated clock a d Hd) as (_ & _ & ->).
  pose proof (startOfDay_bounds d) as Hb.
  destruct (Z.eqb_spec (startOfDay d) (startOfDay clock)) as [Heq | Hne].
  - split; [tauto |]. split; split; try discriminate; intros; exfalso; lia.
  - destruct ((startOfDay clock + msPerDay <=? d) && (d <=? weekWindowEnd clock)) eqn:Hin.
    + apply andb_true_iff in Hin as [H1 H2].
      split; [split; [discriminate | tauto] |].
      split; [split; [lia | reflexivity] |].
      split; [discriminate | intros [_ Hno]; exfalso; apply Hno; lia].
    + apply andb_false_iff in Hin.
      split; [split; [discriminate | tauto] |].
      split; [split; [discriminate | intros; exfalso; lia] |].
      split; [intros _; split; [exact Hne | lia] | reflexivity].
Qed.

Lemma urgency_classes_witness :
  let a := Sample.assignment (Some (lit "1970-01-02T00:00:00Z")) None in
  let clock := Sample.eightOClock in
  let u := urgency (formatAssignment (H := Reference.host 0) clock a) in
  (u = Some today <-> startOfDay (H := Reference.host 0) msPerDay
                      = startOfDay (H := Reference.host 0) clock)
  /\ (u = Some week <-> startOfDay (H := Reference.host 0) clock + msPerDay <= msPerDay
                        <= weekWindowEnd (H := Reference.host 0) clock)
  /\ (u = None <-> startOfDay (H := Reference.host 0) msPerDay
                   <> startOfDay (H := Reference.host 0) clock
                   /\ ~ (startOfDay (H := Reference.host 0) clock + msPerDay <= msPerDay
                         <= weekWindowEnd (H := Reference.host 0) clock)).
Proof.
  exact (urgency_classes (H := Reference.host 0) Sample.eightOClock
           (Sample.assignment (Some (lit "1970-01-02T00:00:00Z")) None)
           msPerDay eq_refl).
Defined.

(** The status text, case by case. *)
Lemma statusOf_cases (sub : option Submission) :
  statusOf sub =
    match sub with
    | None => lit "Not submitted"
    | Some s =>
        if decide (workflow_state s = lit "graded") then
          match grade s, score s with
          | Some (c :: g), _ => lit "Graded: " ++ c :: g
          | _, Some n => if n =? 0 then lit "Graded" else lit "Graded: " ++ lit (pretty n)
          | _, None => lit "Graded"
          end
        else if decide (workflow_state s = lit "submitted") then lit "Submitted"
        else lit "Not submitted"
    end.
Proof.
  destruct sub as [s |]; [| reflexivity]. unfold statusOf, gradeOrScore.
  destruct (decide (workflow_state s = lit "graded")); [| reflexivity].
  destruct (grade s) as [[| c g] |], (score s) as [n |]; cbn; try reflexivity;
    destruct (n =? 0); reflexivity.
Qed.

(** C9: the code departs from the claim.  A graded submission without a
    grade and with the score 0 gets the status [Graded], not
    [Graded: 0]. *)
Theorem graded_score_zero_status (H : Host) (clock : Z) :
  status (formatAssignment clock
            (Sample.assignment None (Some (Sample.graded None (Some 0)))))
  = lit "Graded".
Proof. reflexivity. Qed.

(** ** The seen ledger *)

Section LedgerFacts.

Context {H : Host}.

Lemma getSeenAnnouncements_absent (ls : gmap jsstring jsstring) :
  truthy (ls !! SEEN_ANNOUNCEMENTS_KEY) = false ->
  getSeenAnnouncements ls = Return (VObject []).
Proof. intros Hs. unfold getSeenAnnouncements, getItem. rewrite Hs. reflexivity. Qed.

Lemma getSeenAnnouncements_text (ls : gmap jsstring jsstring) c s :
  ls !! SEEN_ANNOUNCEMENTS_KEY = Some (c :: s) ->
  getSeenAnnouncements ls = parseJSON (c :: s).
Proof. intros Hs. unfold getSeenAnnouncements, getItem. rewrite Hs. reflexivity. Qed.

(** A ledger that cannot be read stops the three operations. *)
Lemma unreadable_ledger (ls : gmap jsstring jsstring) e id postedAt :
  getSeenAnnouncements ls = Throw e ->
  markAnnouncementSeen id postedAt ls = Throw e /\ isAnnouncementSeen id ls = Throw e.
Proof.
  intros He. unfold markAnnouncementSeen, isAnnouncementSeen. rewrite He. auto.
Qed.

(** What the operations do on a ledger that reads as an object. *)
Lemma readable_ledger (ls : gmap jsstring jsstring) m id postedAt :
  getSeenAnnouncements ls = Return (VObject m) ->
  markAnnouncementSeen id postedAt ls
  = Return (<[SEEN_ANNOUNCEMENTS_KEY := JSON_stringify (VObject (assignProperty m id postedAt))]> ls)
  /\ isAnnouncementSeen id ls = Return (inObject id m).
Proof.
  intros Hm. unfold markAnnouncementSeen, isAnnouncementSeen. rewrite Hm. auto.
Qed.

(** The object a ledger reads as is in property order. *)
Lemma ledger_ordered {J : JsonCodec H} (ls : gmap jsstring jsstring) m :
  getSeenAnnouncements ls = Return (VObject m) -> propertyOrder m.
Proof.
  unfold getSeenAnnouncements, parseJSON. destruct (truthy _).
  - destruct (JSON_parse _) as [v |] eqn:Hparse; [| discriminate].
    intros [= ->]. exact (JSON_parse_object _ _ Hparse).
  - intros [= <-]. apply propertyOrder_nil.
Qed.

(** Marking, on a ledger that reads as [m]: the storage afterwards, and
    how its ledger reads. *)
Lemma markAnnouncementSeen_frame_aux {J : JsonCodec H} (ls : gmap jsstring jsstring) m
    id postedAt :
  getSeenAnnouncements ls = Return (VObject m) ->
  exists ls',
    markAnnouncementSeen id postedAt ls = Return ls'
    /\ getSeenAnnouncements ls' = Return (VObject (assignProperty m id postedAt)).
Proof.
  intros Hm. destruct (readable_ledger ls m id postedAt Hm) as [Hmark _].
  eexists. split; [exact Hmark |].
  destruct (JSON_stringify (VObject (assignProperty m id postedAt))) as [| c s] eqn:Htext;
    [exfalso; exact (JSON_stringify_object _ Htext) |].
  rewrite (getSeenAnnouncements_text _ c s) by apply lookup_insert_eq.
  unfold parseJSON. rewrite <- Htext, JSON_parse_stringify; [reflexivity |].
  apply propertyOrder_assign, (ledger_ordered ls m Hm).
Qed.

Lemma markAnnouncementSeen_storage (ls : gmap jsstring jsstring) m id postedAt :
  getSeenAnnouncements ls = Return (VObject m) ->
  markAnnouncementSeen id postedAt ls
  = Return (<[SEEN_ANNOUNCEMENTS_KEY := JSON_stringify (VObject (assignProperty m id postedAt))]> ls).
Proof. intros Hm. apply (readable_ledger ls m id postedAt Hm). Qed.

End LedgerFacts.

(** C2, as the specification words it, fails: with the text [{oops] in
    the slot, [getSeenAnnouncements] throws the SyntaxError of
    [JSON.parse], and so do [markAnnouncementSeen] and
    [isAnnouncementSeen]. *)
Lemma corrupted_ledger_counterexample :
  let ls : gmap jsstring jsstring := {[ SEEN_ANNOUNCEMENTS_KEY := lit "{oops" ]} in
  getSeenAnnouncements (H := Reference.host 0) ls = Throw SyntaxError
  /\ markAnnouncementSeen (H := Reference.host 0) (lit "CS_101_Midterm_Info")
       (lit "2024-03-10T09:00:00Z") ls = Throw SyntaxError
  /\ isAnnouncementSeen (H := Reference.host 0) (lit "CS_101_Midterm_Info") ls
     = Throw SyntaxError.
Proof.
  assert (Hget : getSeenAnnouncements (H := Reference.host 0)
                   ({[ SEEN_ANNOUNCEMENTS_KEY := lit "{oops" ]} : gmap jsstring jsstring)
                 = Throw SyntaxError).
  { rewrite (getSeenAnnouncements_text _ 123%N (lit "oops"))
      by apply lookup_singleton_eq.
    reflexivity. }
  split; [exact Hget |]. apply unreadable_ledger. exact Hget.
Qed.

(** C2 (amended): [getSeenAnnouncements] returns the empty mapping when
    the slot is absent or holds the empty string, and what [JSON.parse]
    reads when the slot holds JSON text; when that is an object,
    [markAnnouncementSeen] and [isAnnouncementSeen] return as well.  When
    the slot holds text that is not JSON, the three operations throw the
    SyntaxError of [JSON.parse]. *)
Theorem getSeenAnnouncements_by_slot {H : Host} (ls : gmap jsstring jsstring)
    (id postedAt : jsstring) :
  match ls !! SEEN_ANNOUNCEMENTS_KEY with
  | None | Some [] => getSeenAnnouncements ls = Return (VObject [])
  | Some (c :: s) =>
      match JSON_parse (c :: s) with
      | Some (VObject m) =>
          getSeenAnnouncements ls = Return (VObject m)
          /\ (exists ls', markAnnouncementSeen id postedAt ls = Return ls')
          /\ (exists b, isAnnouncementSeen id ls = Return b)
      | Some v => getSeenAnnouncements ls = Return v
      | None =>
          getSeenAnnouncements ls = Throw SyntaxError
          /\ markAnnouncementSeen id postedAt ls = Throw SyntaxError
          /\ isAnnouncementSeen id ls = Throw SyntaxError
      end
  end.
Proof.
  destruct (ls !! SEEN_ANNOUNCEMENTS_KEY) as [[| c s] |] eqn:Hslot.
  - apply getSeenAnnouncements_absent. rewrite Hslot. reflexivity.
  - pose proof (getSeenAnnouncements_text ls c s Hslot) as Hget.
    unfold parseJSON in Hget.
    destruct (JSON_parse (c :: s)) as [[m | | t] |].
    + split; [exact Hget |].
      destruct (readable_ledger ls m id postedAt Hget) as [Hmark Hseen].
      split; eexists; eassumption.
    + exact Hget.
    + exact Hget.
    + split; [exact Hget |]. apply unreadable_ledger. exact Hget.
  - apply getSeenAnnouncements_absent. rewrite Hslot. reflexivity.
Qed.




(** ** Sorting *)

Section ArraySortFacts.

Context {A : Type} (comparefn : A -> A -> number).
Context (before : A -> A -> Prop) (ties : A -> A -> bool).

(** The comparator is consistent: it decides a total preorder, and tying
    items are below one another. *)
Hypothesis comparefn_before : forall a b, isPositive (comparefn a b) = false <-> before a b.
Hypothesis before_total : forall a b, before a b \/ before b a.
Hypothesis before_trans : forall a b c, before a b -> before b c -> before a c.
Hypothesis ties_before : forall x a b, ties x a = true -> ties x b = true -> before a b.

Lemma insertSorted_Permutation x l : Permutation (x :: l) (insertSorted comparefn x l).
Proof.
  induction l as [| y l IH]; cbn; [reflexivity |].
  destruct (isPositive (comparefn x y)); [| reflexivity].
  rewrite perm_swap. apply perm_skip, IH.
Qed.

Lemma Array_sort_Permutation l : Permutation l (Array_sort comparefn l).
Proof.
  induction l as [| x l IH]; cbn; [reflexivity |].
  rewrite <- insertSorted_Permutation. apply perm_skip, IH.
Qed.

Lemma insertSorted_StronglySorted x l :
  StronglySorted before l -> StronglySorted before (insertSorted comparefn x l).
Proof.
  induction l as [| y l IH]; intros Hl; cbn.
  - repeat constructor.
  - apply StronglySorted_inv in Hl as [Hl Hy].
    destruct (isPositive (comparefn x y)) eqn:Hxy.
    + constructor; [apply IH, Hl |].
      rewrite <- insertSorted_Permutation. constructor; [| exact Hy].
      destruct (before_total y x) as [Hyx | Hyx]; [exact Hyx |].
      apply comparefn_before in Hyx. congruence.
    + apply comparefn_before in Hxy.
      constructor; [constructor; assumption |].
      constructor; [exact Hxy |].
      eapply Forall_impl; [exact Hy |]. intros z Hz. cbn. eauto.
Qed.

Lemma Array_sort_StronglySorted l : StronglySorted before (Array_sort comparefn l).
Proof.
  induction l as [| x l IH]; cbn; [constructor |].
  apply insertSorted_StronglySorted, IH.
Qed.

Lemma insertSorted_filter x0 x l :
  List.filter (ties x0) (insertSorted comparefn x l) = List.filter (ties x0) (x :: l).
Proof.
  induction l as [| y l IH]; [reflexivity |].
  cbn [insertSorted].
  destruct (isPositive (comparefn x y)) eqn:Hxy; [| reflexivity].
  cbn [List.filter] in *. rewrite IH.
  destruct (ties x0 x) eqn:Hx, (ties x0 y) eqn:Hy; try reflexivity.
  exfalso. pose proof (ties_before x0 x y Hx Hy) as Hb.
  apply comparefn_before in Hb. congruence.
Qed.

Lemma Array_sort_filter x0 l :
  List.filter (ties x0) (Array_sort comparefn l) = List.filter (ties x0) l.
Proof.
  induction l as [| x l IH]; [reflexivity |].
  cbn [Array_sort]. rewrite insertSorted_filter. cbn [List.filter]. rewrite IH. reflexivity.
Qed.

Lemma Array_sort_stable l : stableSortedBy before ties l (Array_sort comparefn l).
Proof.
  split; [apply Array_sort_Permutation |].
  split; [apply Array_sort_StronglySorted | intros x; apply Array_sort_filter].
Qed.

End ArraySortFacts.

(** The stable sorted arrangement of a list is unique, so that the choice
    of insertion sort for [Array.prototype.sort] does not matter. *)
Section StableSortUnique.

Context {A : Type} (before : A -> A -> Prop) (ties : A -> A -> bool).

Hypothesis before_refl : forall a, before a a.
Hypothesis ties_spec : forall x y, ties x y = true <-> before x y /\ before y x.

Lemma sorted_same_ties_eq (r1 : list A) : forall r2,
  StronglySorted before r1 -> StronglySorted before r2 -> Permutation r1 r2 ->
  (forall x, List.filter (ties x) r1 = List.filter (ties x) r2) ->
  r1 = r2.
Proof.
  induction r1 as [| a r1 IH]; intros r2 Hs1 Hs2 Hperm Hties.
  - symmetry. apply Permutation_nil, Hperm.
  - destruct r2 as [| b r2]; [apply Permutation_sym, Permutation_nil_cons in Hperm; contradiction |].
    apply StronglySorted_inv in Hs1 as [Hs1 Ha]. apply StronglySorted_inv in Hs2 as [Hs2 Hb].
    assert (Hab : a = b).
    { assert (Hin_b : b ∈ a :: r1) by (rewrite Hperm; apply list_elem_of_here).
      assert (Hin_a : a ∈ b :: r2) by (rewrite <- Hperm; apply list_elem_of_here).
      apply elem_of_cons in Hin_b as [-> | Hin_b]; [reflexivity |].
      apply elem_of_cons in Hin_a as [-> | Hin_a]; [reflexivity |].
      rewrite Forall_forall in Ha, Hb.
      assert (Htie : ties a b = true) by (apply ties_spec; split; [apply Ha | apply Hb]; assumption).
      assert (Hself : ties a a = true) by (apply ties_spec; split; apply before_refl).
      specialize (Hties a). cbn [List.filter] in Hties. rewrite Htie, Hself in Hties.
      congruence. }
    subst b. f_equal. apply IH; try assumption.
    + eapply Permutation_cons_inv, Hperm.
    + intros x. specialize (Hties x). cbn [List.filter] in Hties.
      destruct (ties x a); congruence.
Qed.

Lemma stableSortedBy_unique (l r1 r2 : list A) :
  stableSortedBy before ties l r1 -> stableSortedBy before ties l r2 -> r1 = r2.
Proof.
  intros (Hp1 & Hs1 & Ht1) (Hp2 & Hs2 & Ht2).
  apply sorted_same_ties_eq; try assumption.
  - rewrite <- Hp1. exact Hp2.
  - intros x. rewrite Ht1, Ht2. reflexivity.
Qed.

End StableSortUnique.


(** The four branches of the [switch] on the sort key. *)
Ltac case_sort_key sortBy :=
  destruct (decide (sortBy = lit "due-desc"));
    [| destruct (decide (sortBy = lit "course"));
       [| destruct (decide (sortBy = lit "status"))]].

Section SortFacts.

Context {H : Host} {C : Collation H}.

Lemma dateValue_instant a d :
  dateValue a d = match viewInstant a with
                  | Some t => Finite t
                  | None => infinityOf d
                  end.
Proof.
  unfold dateValue, viewInstant.
  destruct (hasDueDate a); [| reflexivity].
  destruct (dueDate a) as [[| c s] |]; try reflexivity.
  cbn. unfold newDate. destruct (Date_parse (c :: s)); reflexivity.
Qed.

Lemma comparefn_dueAscending a b :
  isPositive (number_sub (dateValue a asc) (dateValue b asc)) = false <-> dueAscending a b.
Proof.
  rewrite !dateValue_instant. unfold dueAscending.
  destruct (viewInstant a), (viewInstant b); cbn; try tauto; [| split; [discriminate | tauto]].
  rewrite Z.ltb_ge. lia.
Qed.

Lemma comparefn_dueDescending a b :
  isPositive (number_sub (dateValue b desc) (dateValue a desc)) = false <-> dueDescending a b.
Proof.
  rewrite !dateValue_instant. unfold dueDescending.
  destruct (viewInstant a), (viewInstant b); cbn; try tauto; [| split; [discriminate | tauto]].
  rewrite Z.ltb_ge. lia.
Qed.

Lemma dueAscending_total a b : dueAscending a b \/ dueAscending b a.
Proof. unfold dueAscending. destruct (viewInstant a), (viewInstant b); try tauto. lia. Qed.

Lemma dueDescending_total a b : dueDescending a b \/ dueDescending b a.
Proof. unfold dueDescending. destruct (viewInstant a), (viewInstant b); try tauto. lia. Qed.

Lemma dueAscending_trans a b c : dueAscending a b -> dueAscending b c -> dueAscending a c.
Proof.
  unfold dueAscending.
  destruct (viewInstant a), (viewInstant b), (viewInstant c); try tauto. lia.
Qed.

Lemma dueDescending_trans a b c : dueDescending a b -> dueDescending b c -> dueDescending a c.
Proof.
  unfold dueDescending.
  destruct (viewInstant a), (viewInstant b), (viewInstant c); try tauto. lia.
Qed.

Lemma same_instant_dueAscending x a b :
  bool_decide (viewInstant a = viewInstant x) = true ->
  bool_decide (viewInstant b = viewInstant x) = true -> dueAscending a b.
Proof.
  intros Ha%bool_decide_eq_true Hb%bool_decide_eq_true. unfold dueAscending.
  rewrite Ha, Hb. destruct (viewInstant x); [lia | exact I].
Qed.

Lemma same_instant_dueDescending x a b :
  bool_decide (viewInstant a = viewInstant x) = true ->
  bool_decide (viewInstant b = viewInstant x) = true -> dueDescending a b.
Proof.
  intros Ha%bool_decide_eq_true Hb%bool_decide_eq_true. unfold dueDescending.
  rewrite Ha, Hb. destruct (viewInstant x); [lia | exact I].
Qed.

(** Sorting by a text field [f] with [localeCompare]. *)
Lemma comparefn_collation (f : AssignmentView -> jsstring) a b :
  isPositive (Finite (localeCompare (f a) (f b))) = false <-> localeCompare (f a) (f b) <= 0.
Proof. cbn. rewrite Z.ltb_ge. reflexivity. Qed.

Lemma collation_total (f : AssignmentView -> jsstring) a b :
  localeCompare (f a) (f b) <= 0 \/ localeCompare (f b) (f a) <= 0.
Proof.
  destruct (Z_le_gt_dec (localeCompare (f a) (f b)) 0) as [Hle | Hgt]; [left; exact Hle |].
  right. assert (0 < localeCompare (f a) (f b)) as Hpos by lia.
  apply localeCompare_flip in Hpos. lia.
Qed.

Lemma collation_ties (f : AssignmentView -> jsstring) x a b :
  (localeCompare (f x) (f a) =? 0) = true -> (localeCompare (f x) (f b) =? 0) = true ->
  localeCompare (f a) (f b) <= 0.
Proof.
  intros Ha%Z.eqb_eq Hb%Z.eqb_eq.
  apply localeCompare_trans with (b := f x); [| lia].
  destruct (Z_le_gt_dec (localeCompare (f a) (f x)) 0) as [Hle | Hgt]; [exact Hle |].
  assert (0 < localeCompare (f a) (f x)) as Hpos by lia.
  apply localeCompare_flip in Hpos. lia.
Qed.

(** In a list sorted by due instant, either way, the dated views come
    first. *)
Lemma dated_first (before : AssignmentView -> AssignmentView -> Prop) r :
  (forall a b, before a b -> dated a = false -> dated b = false) ->
  StronglySorted before r ->
  r = List.filter dated r ++ List.filter (fun a => negb (dated a)) r.
Proof.
  intros Hlast Hr. induction Hr as [| a r Hr IH Ha]; [reflexivity |].
  cbn [List.filter]. destruct (dated a) eqn:Hd; cbn [negb].
  - cbn. f_equal. exact IH.
  - assert (Hnone : Forall (fun b => dated b = false) r).
    { eapply Forall_impl; [exact Ha |]. intros b Hb. cbn. eauto. }
    assert (Hf : List.filter dated r = []).
    { clear -Hnone. induction Hnone as [| b r Hb _ IH]; [reflexivity |].
      cbn. rewrite Hb. exact IH. }
    assert (Hg : List.filter (fun a => negb (dated a)) r = r).
    { clear -Hnone. induction Hnone as [| b r Hb _ IH]; [reflexivity |].
      cbn. rewrite Hb. cbn. f_equal. exact IH. }
    rewrite Hf, Hg. reflexivity.
Qed.

Lemma dueAscending_dated a b : dueAscending a b -> dated a = false -> dated b = false.
Proof.
  unfold dueAscending, dated.
  destruct (viewInstant a), (viewInstant b); cbn; try tauto; discriminate.
Qed.

Lemma dueDescending_dated a b : dueDescending a b -> dated a = false -> dated b = false.
Proof.
  unfold dueDescending, dated.
  destruct (viewInstant a), (viewInstant b); cbn; try tauto; discriminate.
Qed.

Lemma orderOf_refl sortBy a : orderOf sortBy a a.
Proof.
  unfold orderOf.
  case_sort_key sortBy.
  - destruct (dueDescending_total a a); assumption.
  - destruct (collation_total course a a); assumption.
  - destruct (collation_total status a a); assumption.
  - destruct (dueAscending_total a a); assumption.
Qed.

Lemma same_instant_iff x y :
  viewInstant y = viewInstant x <-> dueAscending x y /\ dueAscending y x.
Proof.
  unfold dueAscending. destruct (viewInstant x), (viewInstant y); split;
    try tauto; try discriminate; try (intros; f_equal; lia).
  intros [= ->]. lia.
Qed.

Lemma same_instant_iff_desc x y :
  viewInstant y = viewInstant x <-> dueDescending x y /\ dueDescending y x.
Proof.
  unfold dueDescending. destruct (viewInstant x), (viewInstant y); split;
    try tauto; try discriminate; try (intros; f_equal; lia).
  intros [= ->]. lia.
Qed.

Lemma collation_ties_iff (f : AssignmentView -> jsstring) x y :
  (localeCompare (f x) (f y) =? 0) = true
  <-> localeCompare (f x) (f y) <= 0 /\ localeCompare (f y) (f x) <= 0.
Proof.
  rewrite Z.eqb_eq. pose proof (localeCompare_flip (f x) (f y)) as Hxy.
  pose proof (localeCompare_flip (f y) (f x)) as Hyx. lia.
Qed.

Lemma tiesOf_spec sortBy x y :
  tiesOf sortBy x y = true <-> orderOf sortBy x y /\ orderOf sortBy y x.
Proof.
  unfold tiesOf, orderOf.
  case_sort_key sortBy.
  - rewrite bool_decide_eq_true. apply same_instant_iff_desc.
  - apply (collation_ties_iff course).
  - apply (collation_ties_iff status).
  - rewrite bool_decide_eq_true. apply same_instant_iff.
Qed.

(** Each comparator of [sortAssignments] is consistent, so the result is
    the stable sorted arrangement for the order of the key. *)
Lemma sortAssignments_stableSortedBy assignments sortBy :
  stableSortedBy (orderOf sortBy) (tiesOf sortBy) assignments
    (sortAssignments assignments sortBy).
Proof.
  unfold sortAssignments, orderOf, tiesOf. case_sort_key sortBy.
  - apply Array_sort_stable;
      [apply comparefn_dueDescending | apply dueDescending_total
      | apply dueDescending_trans | apply same_instant_dueDescending].
  - apply Array_sort_stable;
      [apply (comparefn_collation course) | apply (collation_total course)
      | intros a b c; apply localeCompare_trans | apply (collation_ties course)].
  - apply Array_sort_stable;
      [apply (comparefn_collation status) | apply (collation_total status)
      | intros a b c; apply localeCompare_trans | apply (collation_ties status)].
  - apply Array_sort_stable;
      [apply comparefn_dueAscending | apply dueAscending_total
      | apply dueAscending_trans | apply same_instant_dueAscending].
Qed.

End SortFacts.

(** C8: whatever the list and the sort key, [sortAssignments] returns the
    same views, stably sorted in the order of the key: ascending due
    instant for [due-asc] (and for an unknown key), descending due instant
    for [due-desc], ascending course or status under [localeCompare] for
    [course] and [status]; tying views keep the order they had.  Under the
    two due keys the views without a due instant (missing or unparseable)
    come after all the others. *)
Theorem sortAssignments_stable {H : Host} {C : Collation H}
    (assignments : list AssignmentView) (sortBy : jsstring) :
  stableSortedBy (orderOf sortBy) (tiesOf sortBy) assignments
    (sortAssignments assignments sortBy)
  /\ (sortBy <> lit "course" -> sortBy <> lit "status" ->
      sortAssignments assignments sortBy
      = List.filter dated (sortAssignments assignments sortBy)
        ++ List.filter (fun a => negb (dated a)) (sortAssignments assignments sortBy)).
Proof.
  pose proof (sortAssignments_stableSortedBy assignments sortBy) as Hstable.
  split; [exact Hstable |]. intros Hcourse Hstatus.
  destruct Hstable as (_ & Hsorted & _). revert Hsorted.
  unfold orderOf. case_sort_key sortBy; try congruence; intros Hsorted.
  - apply (dated_first dueDescending); [apply dueDescending_dated | exact Hsorted].
  - apply (dated_first dueAscending); [apply dueAscending_dated | exact Hsorted].
Qed.

Lemma sortAssignments_stable_witness :
  stableSortedBy (orderOf (H := Reference.host 0) (lit "due-asc"))
    (tiesOf (H := Reference.host 0) (lit "due-asc")) Sample.views
    (sortAssignments (H := Reference.host 0) Sample.views (lit "due-asc"))
  /\ (lit "due-asc" <> lit "course" -> lit "due-asc" <> lit "status" ->
      sortAssignments (H := Reference.host 0) Sample.views (lit "due-asc")
      = List.filter (dated (H := Reference.host 0))
          (sortAssignments (H := Reference.host 0) Sample.views (lit "due-asc"))
        ++ List.filter (fun a => negb (dated (H := Reference.host 0) a))
             (sortAssignments (H := Reference.host 0) Sample.views (lit "due-asc"))).
Proof.
  exact (sortAssignments_stable (H := Reference.host 0) (C := ReferenceFacts.host_collation 0)
           Sample.views (lit "due-asc")).
Defined.

(** Whatever stable sort the browser runs, it returns what
    [sortAssignments] returns here. *)
Lemma sortAssignments_unique {H : Host} {C : Collation H}
    (assignments sorted : list AssignmentView) (sortBy : jsstring) :
  stableSortedBy (orderOf sortBy) (tiesOf sortBy) assignments sorted ->
  sorted = sortAssignments assignments sortBy.
Proof.
  intros Hsorted.
  apply (stableSortedBy_unique (orderOf sortBy) (tiesOf sortBy)
           (orderOf_refl sortBy) (tiesOf_spec sortBy) assignments);
    [exact Hsorted | apply sortAssignments_stableSortedBy].
Qed.

(** ** Notifications *)

Section NotifyFacts.

Context {H : Host}.

Lemma notifyKey_inj e1 e2 : notifyKey e1 = notifyKey e2 -> e1 = e2.
Proof. unfold notifyKey. apply app_inv_head. Qed.

Lemma expiryCount_show n w :
  expiryCount (showNotification n w)
  = if isExpiryNotification n then S (expiryCount w) else expiryCount w.
Proof.
  unfold expiryCount, showNotification. cbn [shown List.filter].
  destruct (isExpiryNotification n); reflexivity.
Qed.

Lemma expiryDue_iff (clock expiry : Z) (expiration : jsstring) (ls : gmap jsstring jsstring) :
  expiryDue clock expiry expiration ls = true
  <-> 0 <= daysUntilExpiry clock expiry <= 7
      /\ truthy (getItem ls (notifyKey expiration)) = false.
Proof.
  unfold expiryDue, getItem.
  rewrite !andb_true_iff, negb_true_iff, Z.leb_le, Z.leb_le. tauto.
Qed.

Lemma tokenExpiryWarning_outcome clock config w :
  warningOutcome clock config w (tokenExpiryWarning clock config w).
Proof.
  unfold tokenExpiryWarning. fold (expirationOf config).
  destruct (expirationOf config) as [[| c s] |] eqn:Hexp; cbn [truthy].
  1, 3: apply warning_skipped; [reflexivity | intros e x He; congruence].
  cbn [default from_option id]. unfold newDate, getItem.
  destruct (Date_parse ((c :: s) ++ lit "T00:00:00")) as [expiry |] eqn:Hparse;
    [| apply warning_skipped; [reflexivity | intros e x He; congruence]].
  fold (expiryDue clock expiry (c :: s) (localStorage w)).
  destruct (expiryDue clock expiry (c :: s) (localStorage w)) eqn:Hdue.
  - eapply warning_shown; [exact Hexp | discriminate | exact Hparse | exact Hdue | reflexivity].
  - apply warning_skipped; [reflexivity |].
    intros e x He _ Hx. rewrite Hexp in He. injection He as <-.
    rewrite Hparse in Hx. injection Hx as <-. exact Hdue.
Qed.

(** A pass with permission shows the notice of urgent assignments, if
    any, and then runs the warning. *)
Lemma sendNotifications_granted clock assignments config w :
  exists w0,
    sendNotifications true granted clock assignments config w
    = tokenExpiryWarning clock config w0
    /\ localStorage w0 = localStorage w
    /\ expiryCount w0 = expiryCount w.
Proof.
  unfold sendNotifications. cbn [negb].
  destruct (0 <? length (List.filter (dueSoon clock) assignments))%nat.
  - eexists. split; [reflexivity |]. split; [reflexivity |].
    rewrite expiryCount_show. reflexivity.
  - eexists. split; [reflexivity |]. split; reflexivity.
Qed.

(** One pass with permission, seen through the count of warnings and the
    storage. *)
Lemma pass_outcome clock assignments config w :
  let w' := sendNotifications true granted clock assignments config w in
  (expiryCount w' = expiryCount w
   /\ localStorage w' = localStorage w
   /\ forall expiration expiry,
        expirationOf config = Some expiration -> expiration <> [] ->
        Date_parse (expiration ++ lit "T00:00:00") = Some expiry ->
        expiryDue clock expiry expiration (localStorage w) = false)
  \/ (exists expiration expiry,
        expirationOf config = Some expiration /\ expiration <> []
        /\ Date_parse (expiration ++ lit "T00:00:00") = Some expiry
        /\ expiryDue clock expiry expiration (localStorage w) = true
        /\ expiryCount w' = S (expiryCount w)
        /\ localStorage w' = <[notifyKey expiration := lit "true"]> (localStorage w)).
Proof.
  intros w'. subst w'.
  destruct (sendNotifications_granted clock assignments config w) as (w0 & -> & Hls & Hcount).
  destruct (tokenExpiryWarning_outcome clock config w0)
    as [-> Hskip | expiration expiry Hexp Hne Hparse Hdue ->].
  - left. rewrite <- Hls. auto.
  - right. exists expiration, expiry. rewrite <- Hls, <- Hcount.
    repeat (split; [assumption |]). split; reflexivity.
Qed.

(** A pass never takes a stored key away. *)
Lemma pass_keeps_key clock assignments config w (expiration : jsstring) :
  truthy (getItem (localStorage w) (notifyKey expiration)) = true ->
  truthy (getItem (localStorage (sendNotifications true granted clock assignments config w))
            (notifyKey expiration)) = true.
Proof.
  intros Hk.
  destruct (pass_outcome clock assignments config w)
    as [(_ & -> & _) | (e & x & _ & _ & _ & _ & _ & ->)]; [exact Hk |].
  unfold getItem in *. destruct (decide (e = expiration)) as [-> | Hne].
  - rewrite lookup_insert_eq. reflexivity.
  - rewrite lookup_insert_ne by (intros Heq; apply notifyKey_inj in Heq; congruence).
    exact Hk.
Qed.

(** Once the key of an expiration date is stored, no pass configured with
    that date shows the warning. *)
Lemma emissionsFor_stored expiration run : forall w,
  truthy (getItem (localStorage w) (notifyKey expiration)) = true ->
  emissionsFor expiration run w = 0%nat.
Proof.
  induction run as [| [[clock assignments] config] run IH]; intros w Hk; [reflexivity |].
  cbn [emissionsFor].
  rewrite IH by (apply pass_keeps_key, Hk).
  destruct (bool_decide_reflect (expirationOf config = Some expiration)) as [Hexp |];
    [| reflexivity].
  destruct (pass_outcome clock assignments config w)
    as [(-> & _) | (e & x & He & _ & _ & Hdue & _)].
  - rewrite Nat.ltb_irrefl. reflexivity.
  - exfalso. rewrite Hexp in He. injection He as <-.
    apply expiryDue_iff in Hdue as [_ Hfalse]. congruence.
Qed.

Lemma emissionsFor_at_most_once expiration run : forall w,
  (emissionsFor expiration run w <= 1)%nat.
Proof.
  induction run as [| [[clock assignments] config] run IH]; intros w; [cbn; lia |].
  cbn [emissionsFor].
  destruct (bool_decide_reflect (expirationOf config = Some expiration)) as [Hexp |];
    cbn [andb]; [| apply IH].
  destruct (pass_outcome clock assignments config w)
    as [(-> & _) | (e & x & He & _ & _ & _ & Hcount & Hls)].
  - rewrite Nat.ltb_irrefl. apply IH.
  - rewrite Hexp in He. injection He as <-.
    rewrite emissionsFor_stored.
    + destruct (_ <? _)%nat; lia.
    + unfold getItem. rewrite Hls, lookup_insert_eq. reflexivity.
Qed.

(** Passes configured with other expiration dates leave the key of this
    one as it is. *)
Lemma passes_other_dates (expiration : jsstring) run : forall w,
  Forall (fun pass => expirationOf pass.2 <> Some expiration) run ->
  getItem (localStorage (passes run w)) (notifyKey expiration)
  = getItem (localStorage w) (notifyKey expiration).
Proof.
  induction run as [| [[clock assignments] config] run IH]; intros w Hrun; [reflexivity |].
  apply Forall_cons in Hrun as [Hconfig Hrun]. cbn [passes snd] in *.
  rewrite IH by exact Hrun.
  destruct (pass_outcome clock assignments config w)
    as [(_ & -> & _) | (e & x & He & _ & _ & _ & _ & ->)]; [reflexivity |].
  unfold getItem. apply lookup_insert_ne.
  intros Heq. apply notifyKey_inj in Heq. congruence.
Qed.

(** The day count is the ceiling of the days from the clock to the
    expiration instant. *)
Lemma ceilDiv_spec a b n : 0 < b -> ceilDiv a b = n <-> (n - 1) * b < a <= n * b.
Proof.
  intros Hb. unfold ceilDiv. split.
  - intros <-.
    pose proof (Z.div_mod (- a) b) as Hdm. pose proof (Z.mod_pos_bound (- a) b Hb) as Hm.
    lia.
  - intros Hn.
    assert (Hq : - n = (- a) / b)
      by (apply (Z.div_unique_pos (- a) b (- n) (n * b - a)); lia).
    lia.
Qed.

Lemma daysUntilExpiry_spec clock expiry n :
  daysUntilExpiry clock expiry = n
  <-> (n - 1) * msPerDay < expiry - clock <= n * msPerDay.
Proof.
  unfold daysUntilExpiry. change (1000 * 60 * 60 * 24) with msPerDay.
  apply ceilDiv_spec. reflexivity.
Qed.

(** The notification a pass has shown last, when it showed the warning. *)
Lemma pass_newest clock assignments config w expiration expiry :
  expirationOf config = Some expiration ->
  Date_parse (expiration ++ lit "T00:00:00") = Some expiry ->
  let w' := sendNotifications true granted clock assignments config w in
  expiryCount w' = S (expiryCount w) ->
  head (shown w') = Some (expiryNotification (daysUntilExpiry clock expiry)).
Proof.
  intros Hexp Hparse w'. subst w'.
  destruct (sendNotifications_granted clock assignments config w) as (w0 & -> & _ & Hcount).
  destruct (tokenExpiryWarning_outcome clock config w0)
    as [-> _ | e x He _ Hx _ ->].
  - lia.
  - intros _. rewrite Hexp in He. injection He as <-.
    rewrite Hparse in Hx. injection Hx as <-. reflexivity.
Qed.

End NotifyFacts.

(** C7: with permission granted and an expiration date that parses, a
    pass shows the credential-expiry notification exactly when the day
    count is between 0 and 7 and nothing is stored under the key of that
    expiration date.  The day count is the ceiling of the days from the
    clock to the expiration instant: the integer [daysUntil] with
    [daysUntil - 1] days < [expiry - clock] <= [daysUntil] days.  Showing
    the notification stores the key, and the notification shown states that
    day count.  In a run of passes, whatever their configurations, at most
    one pass configured with a given expiration date shows the
    notification; and passes configured with other dates leave the key of
    this date alone, so that a changed date is judged by its own key. *)
Theorem expiry_warning_once {H : Host} (expiration : jsstring) (expiry : Z) :
  expiration <> [] -> Date_parse (expiration ++ lit "T00:00:00") = Some expiry ->
  (forall clock assignments config w,
     expirationOf config = Some expiration ->
     let w' := sendNotifications true granted clock assignments config w in
     (expiryCount w' = S (expiryCount w)
      <-> (exists daysUntil,
             (daysUntil - 1) * msPerDay < expiry - clock <= daysUntil * msPerDay
             /\ 0 <= daysUntil <= 7)
          /\ truthy (getItem (localStorage w) (notifyKey expiration)) = false)
     /\ (expiryCount w' = S (expiryCount w) \/ expiryCount w' = expiryCount w)
     /\ (expiryCount w' = S (expiryCount w) ->
         getItem (localStorage w') (notifyKey expiration) = Some (lit "true"))
     /\ (forall daysUntil,
           (daysUntil - 1) * msPerDay < expiry - clock <= daysUntil * msPerDay ->
           expiryCount w' = S (expiryCount w) ->
           head (shown w') = Some (expiryNotification daysUntil)))
  /\ (forall run w, (emissionsFor expiration run w <= 1)%nat)
  /\ (forall run w,
        Forall (fun pass => expirationOf pass.2 <> Some expiration) run ->
        getItem (localStorage (passes run w)) (notifyKey expiration)
        = getItem (localStorage w) (notifyKey expiration)).
Proof.
  intros Hne Hparse.
  split; [| split; [apply emissionsFor_at_most_once | apply passes_other_dates]].
  intros clock assignments config w Hexp w'. subst w'.
  assert (Hdays : 0 <= daysUntilExpiry clock expiry <= 7
                  <-> exists daysUntil,
                        (daysUntil - 1) * msPerDay < expiry - clock <= daysUntil * msPerDay
                        /\ 0 <= daysUntil <= 7).
  { split.
    - intros Hd. exists (daysUntilExpiry clock expiry).
      split; [apply daysUntilExpiry_spec; reflexivity | exact Hd].
    - intros (d & Hd%daysUntilExpiry_spec & Hrange). rewrite Hd. exact Hrange. }
  assert (Hnewest : forall daysUntil,
            (daysUntil - 1) * msPerDay < expiry - clock <= daysUntil * msPerDay ->
            expiryCount (sendNotifications true granted clock assignments config w)
            = S (expiryCount w) ->
            head (shown (sendNotifications true granted clock assignments config w))
            = Some (expiryNotification daysUntil)).
  { intros d Hd%daysUntilExpiry_spec Hshown. rewrite <- Hd.
    apply (pass_newest clock assignments config w expiration expiry Hexp Hparse Hshown). }
  destruct (pass_outcome clock assignments config w)
    as [(Hcount & _ & Hskip) | (e & x & He & _ & Hx & Hdue & Hcount & Hls)].
  - specialize (Hskip expiration expiry Hexp Hne Hparse).
    split; [| split; [| split]].
    + split; [lia |]. intros [Hd Hk]. apply Hdays in Hd.
      assert (Hdue : expiryDue clock expiry expiration (localStorage w) = true)
        by (apply expiryDue_iff; split; assumption).
      congruence.
    + right. exact Hcount.
    + lia.
    + exact Hnewest.
  - rewrite Hexp in He. injection He as <-.
    rewrite Hparse in Hx. injection Hx as <-.
    apply expiryDue_iff in Hdue as [Hd Hk].
    split; [| split; [| split]].
    + split; [intros _; split; [apply Hdays, Hd | exact Hk] | intros _; exact Hcount].
    + left. exact Hcount.
    + intros _. unfold getItem. rewrite Hls. apply lookup_insert_eq.
    + exact Hnewest.
Qed.

Lemma expiry_warning_once_witness :
  let config := configExpiring (lit "1970-01-08") in
  let changed := configExpiring (lit "1970-01-07") in
  let first := sendNotifications (H := Reference.host 0) true granted
                 Sample.eightOClock Sample.views config Sample.freshBrowser in
  (expiryCount first = S (expiryCount Sample.freshBrowser)
   <-> (exists daysUntil,
          (daysUntil - 1) * msPerDay < 7 * msPerDay - Sample.eightOClock
                                     <= daysUntil * msPerDay
          /\ 0 <= daysUntil <= 7)
       /\ truthy (getItem (localStorage Sample.freshBrowser)
                    (notifyKey (lit "1970-01-08"))) = false)
  /\ (emissionsFor (H := Reference.host 0) (lit "1970-01-08")
        [(Sample.eightOClock, Sample.views, config);
         (Sample.eightOClock, Sample.views, changed);
         (Sample.eightOClock, Sample.views, config)]
        Sample.freshBrowser <= 1)%nat.
Proof.
  pose proof (expiry_warning_once (H := Reference.host 0) (lit "1970-01-08") (7 * msPerDay)
                ltac:(discriminate) eq_refl) as [Hpass [Hrun _]].
  split.
  - exact (proj1 (Hpass Sample.eightOClock Sample.views (configExpiring (lit "1970-01-08"))
                    Sample.freshBrowser eq_refl)).
  - exact (Hrun [(Sample.eightOClock, Sample.views, configExpiring (lit "1970-01-08"));
                 (Sample.eightOClock, Sample.views, configExpiring (lit "1970-01-07"));
                 (Sample.eightOClock, Sample.views, configExpiring (lit "1970-01-08"))]
             Sample.freshBrowser).
Defined.

(** ** The scenarios of the specification, run on the reference host *)

Section Scenarios.

Let host0 : Host := Reference.host 0.
Existing Instance host0.

(** Scenario A: due today at 23:59, seen at 08:00, nothing submitted. *)
Example scenario_due_today :
  let v := formatAssignment Sample.eightOClock
             (Sample.assignment (Some (lit "1970-01-01T23:59:00Z")) None) in
  urgency v = Some today /\ status v = lit "Not submitted" /\ isUrgent v = Some true
  /\ due v = lit "Jan 1, 11:59 PM".
Proof. vm_compute. auto. Qed.

(** Scenario B: due ten days from now. *)
Example scenario_due_in_ten_days :
  let v := formatAssignment Sample.eightOClock
             (Sample.assignment (Some (lit "1970-01-11T08:00:00Z")) None) in
  urgency v = None /\ isUrgent v = Some false /\ hasDueDate v = true.
Proof. vm_compute. auto. Qed.

(** The last instant of the week window is urgent and of this week; the
    next millisecond would not be (timestamps have whole seconds). *)
Example scenario_week_boundary :
  let v := formatAssignment Sample.eightOClock
             (Sample.assignment (Some (lit "1970-01-08T23:59:59Z")) None) in
  let v' := formatAssignment Sample.eightOClock
              (Sample.assignment (Some (lit "1970-01-09T00:00:00Z")) None) in
  urgency v = Some week /\ isUrgent v = Some true
  /\ urgency v' = None /\ isUrgent v' = Some false.
Proof. vm_compute. auto. Qed.

(** Scenario D: a name of 36 code units is kept. *)
Example scenario_short_name :
  shortenAssignmentName (lit "Homework 3: Vector Calculus - Part B") defaultMaxLen
  = lit "Homework 3: Vector Calculus - Part B".
Proof. reflexivity. Qed.

(** A long name whose last part qualifies is replaced by that part. *)
Example scenario_last_part :
  shortenAssignmentName
    (lit "Unit 7 Cumulative Review and Practice Problems " ++ [EM_DASH]
       ++ lit " Thermodynamics Lab ") defaultMaxLen
  = lit "Thermodynamics Lab".
Proof. vm_compute. reflexivity. Qed.

(** The five sample views sorted by due date, ascending and descending:
    the two views without a due instant are last both times. *)
Example scenario_sort_by_due :
  List.map course (sortAssignments Sample.views (lit "due-asc"))
  = [lit "CS 101"; lit "MATH 220"; lit "BIO 150"; lit "CS 101"; lit "ART 110"]
  /\ List.map course (sortAssignments Sample.views (lit "due-desc"))
     = [lit "MATH 220"; lit "BIO 150"; lit "CS 101"; lit "CS 101"; lit "ART 110"].
Proof. vm_compute. auto. Qed.

(** Scenario E: two assignments due within the day, nothing submitted. *)
Example scenario_two_urgent :
  let feed := [Sample.assignment (Some (lit "1970-01-01T23:59:00Z")) None;
               Sample.assignment (Some (lit "1970-01-01T18:00:00Z")) None] in
  let w := sendNotifications true granted Sample.eightOClock
             (formatAssignmentData Sample.eightOClock (Some feed))
             {| canvas := None |} Sample.freshBrowser in
  List.map title (shown w) = [lit "2 assignments due soon"]
  /\ List.map body (shown w) = [lit "CS 101: Homework 3, CS 101: Homework 3"].
Proof. vm_compute. auto. Qed.

(** Scenario F: a token that expires in seven days is announced once; a
    second pass on the same day adds nothing; with the expiration date
    changed to six days out, a pass announces again. *)
Example scenario_token_expiry :
  let w1 := sendNotifications true granted Sample.eightOClock []
              (configExpiring (lit "1970-01-08")) Sample.freshBrowser in
  let w2 := sendNotifications true granted (Sample.eightOClock + 3600000) []
              (configExpiring (lit "1970-01-08")) w1 in
  let w3 := sendNotifications true granted (Sample.eightOClock + 3600000) []
              (configExpiring (lit "1970-01-07")) w2 in
  expiryCount w1 = 1%nat /\ expiryCount w2 = 1%nat /\ expiryCount w3 = 2%nat
  /\ List.map body (shown w3)
     = [lit "Your Canvas API token expires in 6 days.";
        lit "Your Canvas API token expires in 7 days."].
Proof. vm_compute. auto. Qed.

(** Without permission nothing is shown: an undecided permission is asked
    for, a denied one is left alone. *)
Example scenario_no_permission :
  let w := sendNotifications true undecided Sample.eightOClock Sample.views
             (configExpiring (lit "1970-01-08")) Sample.freshBrowser in
  let w' := sendNotifications true denied Sample.eightOClock Sample.views
              (configExpiring (lit "1970-01-08")) Sample.freshBrowser in
  shown w = [] /\ permissionRequests w = 1%nat /\ w' = Sample.freshBrowser.
Proof. vm_compute. auto. Qed.

End Scenarios.

(** * More properties *)

(** ** Announcement ids and short names *)

Section CollapseFacts.

Lemma underscore_not_space : isWhiteSpace UNDERSCORE = false.
Proof. reflexivity. Qed.

Lemma replaceRuns_no_space inRun s :
  Forall (fun c => isWhiteSpace c = false) (replaceRuns inRun s).
Proof.
  revert inRun. induction s as [| c s IH]; intros inRun; cbn; [constructor |].
  destruct (isWhiteSpace c) eqn:Hc.
  - destruct inRun; [apply IH | constructor; [apply underscore_not_space | apply IH]].
  - constructor; [exact Hc | apply IH].
Qed.

Lemma replaceRuns_length inRun s : (length (replaceRuns inRun s) <= length s)%nat.
Proof.
  revert inRun. induction s as [| c s IH]; intros inRun; cbn; [lia |].
  destruct (isWhiteSpace c).
  - destruct inRun; cbn; [specialize (IH true) | specialize (IH true)]; lia.
  - cbn. specialize (IH false). lia.
Qed.

Lemma replaceRuns_without_space s :
  Forall (fun c => isWhiteSpace c = false) s -> replaceRuns false s = s.
Proof.
  induction 1 as [| c s Hc _ IH]; cbn; [reflexivity |].
  rewrite Hc, IH. reflexivity.
Qed.

End CollapseFacts.

(** X1: the id of an announcement holds no white-space code unit and is
    never longer than [course_title]; collapsing it again changes nothing,
    and a course and a title without white space are joined as they
    are. *)
Theorem announcementId_clean (course title : jsstring) :
  Forall (fun c => isWhiteSpace c = false) (announcementId course title)
  /\ (length (announcementId course title) <= length course + 1 + length title)%nat
  /\ collapseWhitespace (announcementId course title) = announcementId course title
  /\ (Forall (fun c => isWhiteSpace c = false) (course ++ title) ->
      announcementId course title = course ++ [UNDERSCORE] ++ title).
Proof.
  unfold announcementId, collapseWhitespace.
  split; [apply replaceRuns_no_space |].
  split.
  - etransitivity; [apply replaceRuns_length |].
    rewrite !length_app. cbn. lia.
  - split; [apply replaceRuns_without_space, replaceRuns_no_space |].
    intros Hclean. apply replaceRuns_without_space.
    apply Forall_app in Hclean as [Hc Ht].
    apply Forall_app. split; [exact Hc |].
    apply Forall_cons. split; [apply underscore_not_space | exact Ht].
Qed.

Section SplitTrimFacts.

Variable sep : char16 -> bool.

Lemma split_nonempty s : split sep s <> [].
Proof.
  destruct s as [| c s]; cbn; [discriminate |].
  destruct (sep c); [discriminate |]. destruct (split sep s); discriminate.
Qed.

(** A text that splits into one part is that part. *)
Lemma split_single s p : split sep s = [p] -> p = s.
Proof.
  revert p. induction s as [| c s IH]; intros p; cbn; [congruence |].
  destruct (sep c).
  - intros [= _ Hs]. destruct (split_nonempty s Hs).
  - destruct (split sep s) as [| p' ps] eqn:Hs; [destruct (split_nonempty s Hs) |].
    intros [= <- ->]. rewrite (IH p' eq_refl). reflexivity.
Qed.

(** The last part is the end of the text. *)
Lemma split_last_suffix s : exists front, s = front ++ List.last (split sep s) [].
Proof.
  induction s as [| c s [front IH]]; [exists []; reflexivity |].
  cbn [split]. destruct (sep c).
  - exists (c :: front).
    destruct (split sep s) as [| p ps] eqn:Hs; [destruct (split_nonempty s Hs) |].
    cbn [app]. f_equal. exact IH.
  - destruct (split sep s) as [| p [| p' ps]] eqn:Hs; [destruct (split_nonempty s Hs) | |].
    + exists []. cbn. f_equal. symmetry. apply split_single, Hs.
    + exists (c :: front). cbn [app]. f_equal. exact IH.
Qed.

Lemma split_parts_clean s :
  Forall (Forall (fun c => sep c = false)) (split sep s).
Proof.
  induction s as [| c s IH]; cbn; [repeat constructor |].
  destruct (sep c) eqn:Hc; [constructor; [constructor | exact IH] |].
  destruct (split sep s) as [| p ps]; [repeat constructor; exact Hc |].
  apply Forall_cons in IH as [Hp Hps].
  constructor; [constructor; assumption | exact Hps].
Qed.

Lemma last_Forall {A : Type} (P : A -> Prop) (d : A) (l : list A) :
  P d -> Forall P l -> P (List.last l d).
Proof.
  intros Hd Hl. induction Hl as [| x l Hx Hl IH]; [exact Hd |].
  destruct l; [exact Hx | exact IH].
Qed.

Lemma split_last_clean s :
  Forall (fun c => sep c = false) (List.last (split sep s) []).
Proof. apply last_Forall; [constructor | apply split_parts_clean]. Qed.

(** [trimStart] removes white space from the front, and only that. *)
Lemma trimStart_decompose s :
  exists ws, s = ws ++ trimStart s /\ Forall (fun c => isWhiteSpace c = true) ws.
Proof.
  induction s as [| c s (ws & IH & Hws)]; [exists []; split; [reflexivity | constructor] |].
  cbn. destruct (isWhiteSpace c) eqn:Hc.
  - exists (c :: ws). split; [cbn; f_equal; exact IH | constructor; assumption].
  - exists []. split; [reflexivity | constructor].
Qed.

Lemma trimStart_head s c r : trimStart s = c :: r -> isWhiteSpace c = false.
Proof.
  induction s as [| c' s IH]; cbn; [discriminate |].
  destruct (isWhiteSpace c') eqn:Hc; [exact IH |]. intros [= <- _]. exact Hc.
Qed.

(** [trim] returns the text between the white space at its two ends. *)
Lemma trim_decompose s :
  exists front back,
    s = front ++ trim s ++ back
    /\ Forall (fun c => isWhiteSpace c = true) front
    /\ Forall (fun c => isWhiteSpace c = true) back.
Proof.
  destruct (trimStart_decompose s) as (ws1 & H1 & Hws1).
  destruct (trimStart_decompose (rev (trimStart s))) as (ws2 & H2 & Hws2).
  exists ws1, (rev ws2). unfold trim. split; [| split; [exact Hws1 |]].
  - rewrite <- rev_app_distr, <- H2, rev_involutive. exact H1.
  - apply Forall_rev, Hws2.
Qed.

Lemma trim_ends s :
  (forall c r, trim s = c :: r -> isWhiteSpace c = false)
  /\ (forall c r, trim s = r ++ [c] -> isWhiteSpace c = false).
Proof.
  split; intros c r Hr.
  - destruct (trimStart_decompose (rev (trimStart s))) as (ws2 & H2 & _).
    assert (Ht : trimStart s = trim s ++ rev ws2).
    { unfold trim. rewrite <- rev_app_distr, <- H2, rev_involutive. reflexivity. }
    rewrite Hr in Ht. apply (trimStart_head s c (r ++ rev ws2)). exact Ht.
  - unfold trim in Hr.
    apply (trimStart_head (rev (trimStart s)) c (rev r)).
    rewrite <- (rev_involutive (trimStart (rev (trimStart s)))), Hr, rev_app_distr.
    reflexivity.
Qed.

End SplitTrimFacts.

(** X2: when [shortenAssignmentName] returns the last part of a name,
    whatever [maxLen], that text holds no separator, has no white space at
    either end, and is the end of the name up to trailing white space. *)
Theorem shorten_lastPart_clean (fullName : jsstring) (maxLen : nat) :
  (maxLen < length fullName)%nat -> lastPartQualifies fullName maxLen = true ->
  let r := shortenAssignmentName fullName maxLen in
  Forall (fun c => isSeparator c = false) r
  /\ (forall c r', r = c :: r' -> isWhiteSpace c = false)
  /\ (forall c r', r = r' ++ [c] -> isWhiteSpace c = false)
  /\ exists front back,
       fullName = front ++ r ++ back /\ Forall (fun c => isWhiteSpace c = true) back.
Proof.
  intros Hlen Hq r. subst r. rewrite (shorten_lastPart _ _ Hlen Hq).
  set (part := List.last (split isSeparator fullName) []).
  destruct (trim_decompose part) as (ws1 & ws2 & Hpart & _ & Hws2).
  destruct (trim_ends part) as [Hhead Hlast].
  destruct (split_last_suffix isSeparator fullName) as [front Hfront].
  fold part in Hfront.
  split; [| split; [exact Hhead | split; [exact Hlast |]]].
  - pose proof (split_last_clean isSeparator fullName) as Hclean. fold part in Hclean.
    rewrite Hpart in Hclean.
    apply Forall_app in Hclean as [_ Hclean]. apply Forall_app in Hclean as [Hclean _].
    exact Hclean.
  - exists (front ++ ws1), ws2. split; [| exact Hws2].
    rewrite Hfront at 1. rewrite Hpart at 1. rewrite <- !app_assoc. reflexivity.
Qed.

Lemma shorten_lastPart_clean_witness :
  let fullName := lit "Unit 7 Cumulative Review and Practice Problems - Thermodynamics Lab " in
  let r := shortenAssignmentName fullName defaultMaxLen in
  Forall (fun c => isSeparator c = false) r
  /\ (forall c r', r = c :: r' -> isWhiteSpace c = false)
  /\ (forall c r', r = r' ++ [c] -> isWhiteSpace c = false)
  /\ exists front back,
       fullName = front ++ r ++ back /\ Forall (fun c => isWhiteSpace c = true) back.
Proof.
  apply (shorten_lastPart_clean
           (lit "Unit 7 Cumulative Review and Practice Problems - Thermodynamics Lab ")
           defaultMaxLen);
    [vm_compute; lia | vm_compute; reflexivity].
Defined.

(** ** Announcements and the ledger *)

Section AnnouncementFacts.

Context {H : Host}.

Lemma formatAnnouncement_readable (ls : gmap jsstring jsstring) m a :
  getSeenAnnouncements ls = Return (VObject m) ->
  formatAnnouncement ls a = Return (viewOf m a).
Proof.
  intros Hm. unfold formatAnnouncement.
  destruct (readable_ledger ls m (announcementId (ann_course a) (ann_title a)) [] Hm)
    as [_ ->].
  reflexivity.
Qed.

Lemma mapExcept_total {A B : Type} (f : A -> Except B) (g : A -> B) items :
  (forall x, f x = Return (g x)) -> mapExcept f items = Return (List.map g items).
Proof.
  intros Hf. induction items as [| x items IH]; [reflexivity |].
  cbn [mapExcept List.map]. rewrite Hf, IH. reflexivity.
Qed.

Lemma formatAnnouncementData_readable (ls : gmap jsstring jsstring) m announcements :
  getSeenAnnouncements ls = Return (VObject m) ->
  formatAnnouncementData ls announcements
  = Return (List.map (viewOf m) (default [] announcements)).
Proof.
  intros Hm. unfold formatAnnouncementData. rewrite Hm.
  apply mapExcept_total. intros a. apply formatAnnouncement_readable, Hm.
Qed.

End AnnouncementFacts.


(** X3: when the stored ledger reads as an object, [formatAnnouncementData]
    returns one view for each announcement, in the order of the feed, with
    the course and title of the announcement, the id derived from them,
    and [isSeen] telling whether that id is in the ledger: it is an own
    property of the object or a property name of [Object.prototype], such
    as [__proto__]. *)
Theorem formatAnnouncementData_views {H : Host} (ls : gmap jsstring jsstring)
    (m : list (jsstring * jsstring)) (announcements : option (list RawAnnouncement)) :
  getSeenAnnouncements ls = Return (VObject m) ->
  exists views,
    formatAnnouncementData ls announcements = Return views
    /\ Forall2 (fun a v =>
                  view_course v = ann_course a
                  /\ view_title v = ann_title a
                  /\ view_id v = announcementId (ann_course a) (ann_title a)
                  /\ (isSeen v = true
                      <-> is_Some (ownProperty m (view_id v))
                          \/ view_id v ∈ objectPrototypeNames))
         (default [] announcements) views.
Proof.
  intros Hm. eexists. split; [apply formatAnnouncementData_readable, Hm |].
  induction (default [] announcements) as [| a l IH]; cbn [List.map]; constructor;
    [| exact IH].
  cbn. repeat (split; [reflexivity |]). unfold inObject.
  rewrite orb_true_iff, !bool_decide_eq_true. reflexivity.
Qed.

Lemma formatAnnouncementData_views_witness :
  exists views,
    formatAnnouncementData (H := Reference.host 0) Sample.storage
      (Some MoreSamples.announcements) = Return views
    /\ Forall2 (fun a v =>
                  view_course v = ann_course a
                  /\ view_title v = ann_title a
                  /\ view_id v = announcementId (ann_course a) (ann_title a)
                  /\ (isSeen v = true
                      <-> is_Some (ownProperty Sample.seenBefore (view_id v))
                          \/ view_id v ∈ objectPrototypeNames))
         (default [] (Some MoreSamples.announcements)) views.
Proof.
  assert (Hprior : getSeenAnnouncements (H := Reference.host 0) Sample.storage
                   = Return (VObject Sample.seenBefore)) by (vm_compute; reflexivity).
  exact (formatAnnouncementData_views (H := Reference.host 0) Sample.storage
           Sample.seenBefore (Some MoreSamples.announcements) Hprior).
Defined.

(** X4: the errors of [formatAnnouncementData].  An unreadable ledger
    makes it throw whatever the feed, the empty feed included, because the
    ledger is read before the loop; a stored [null] or primitive lets the
    empty feed through and makes the first announcement throw a
    TypeError. *)
Theorem formatAnnouncementData_errors {H : Host} (ls : gmap jsstring jsstring)
    (announcements : option (list RawAnnouncement)) :
  match getSeenAnnouncements ls with
  | Throw e => formatAnnouncementData ls announcements = Throw e
  | Return (VObject m) => exists views, formatAnnouncementData ls announcements = Return views
  | Return _ =>
      match default [] announcements with
      | [] => formatAnnouncementData ls announcements = Return []
      | _ :: _ => formatAnnouncementData ls announcements = Throw TypeError
      end
  end.
Proof.
  destruct (getSeenAnnouncements ls) as [[m | | t] | e] eqn:Hget.
  - eexists. apply formatAnnouncementData_readable, Hget.
  - unfold formatAnnouncementData. rewrite Hget.
    destruct (default [] announcements) as [| a l]; [reflexivity |].
    cbn. unfold formatAnnouncement, isAnnouncementSeen. rewrite Hget. reflexivity.
  - unfold formatAnnouncementData. rewrite Hget.
    destruct (default [] announcements) as [| a l]; [reflexivity |].
    cbn. unfold formatAnnouncement, isAnnouncementSeen. rewrite Hget. reflexivity.
  - unfold formatAnnouncementData. rewrite Hget. reflexivity.
Qed.



(** X6: without "view all" the page lists at most two announcements, all
    of them unseen, in the order of the feed, and it lists none exactly
    when every announcement is seen; with "view all" it lists the whole
    feed, seen announcements included. *)
Theorem announcementsOnPage_unseen (allAnnouncements : list AnnouncementView) :
  let page := announcementsOnPage false allAnnouncements in
  (length page <= 2)%nat
  /\ Forall (fun a => isSeen a = false) page
  /\ sublist page allAnnouncements
  /\ (page = [] <-> Forall (fun a => isSeen a = true) allAnnouncements)
  /\ (forall a, a ∈ allAnnouncements -> isSeen a = false ->
        (length (unseenAnnouncements allAnnouncements) <= 2)%nat -> a ∈ page)
  /\ announcementsOnPage true allAnnouncements = allAnnouncements.
Proof.
  intros page. subst page. unfold announcementsOnPage, unseenAnnouncements.
  set (unseen := List.filter (fun a => negb (isSeen a)) allAnnouncements).
  assert (Hunseen : Forall (fun a => isSeen a = false) unseen).
  { apply List.Forall_forall. intros a Ha. apply List.filter_In in Ha as [_ Ha].
    apply negb_true_iff, Ha. }
  assert (Hsub : sublist unseen allAnnouncements).
  { unfold unseen. clear. induction allAnnouncements as [| a l IH]; cbn; [constructor |].
    destruct (negb (isSeen a)); [apply sublist_skip | apply sublist_cons]; exact IH. }
  split; [rewrite length_take; lia |].
  split; [apply Forall_take, Hunseen |].
  split; [etransitivity; [apply sublist_take | exact Hsub] |].
  split; [| split; [| reflexivity]].
  - split.
    + intros Hnil. assert (Hu : unseen = []) by (destruct unseen; [reflexivity | discriminate]).
      apply List.Forall_forall. intros a Ha.
      destruct (isSeen a) eqn:Hs; [reflexivity |]. exfalso.
      assert (Hin : List.In a unseen)
        by (apply List.filter_In; split; [exact Ha | rewrite Hs; reflexivity]).
      rewrite Hu in Hin. destruct Hin.
    + intros Hall. assert (Hu : unseen = []); [| rewrite Hu; reflexivity].
      unfold unseen. clear -Hall. induction Hall as [| a l Ha _ IH]; [reflexivity |].
      cbn. rewrite Ha. exact IH.
  - intros a Ha Hs Hlen. rewrite take_ge by exact Hlen.
    apply list_elem_of_In, List.filter_In. split; [apply list_elem_of_In, Ha |].
    rewrite Hs. reflexivity.
Qed.

(** X7: on a ledger that reads as an object, marking is idempotent and a
    later mark of the same id replaces the earlier one.  Marks of two
    different ids leave, in either order, ledgers with the same entries
    and the other slots alike; the stored texts are the same when the
    ledger had one of the ids already (otherwise the members can be
    written in another order). *)
Theorem marks_compose {H : Host} {J : JsonCodec H} (ls : gmap jsstring jsstring)
    (m : list (jsstring * jsstring)) (a b pa pa' pb : jsstring) :
  getSeenAnnouncements ls = Return (VObject m) ->
  (markAnnouncementSeen a pa ls ≫= markAnnouncementSeen a pa
   = markAnnouncementSeen a pa ls)
  /\ (markAnnouncementSeen a pa ls ≫= markAnnouncementSeen a pa'
      = markAnnouncementSeen a pa' ls)
  /\ (a <> b ->
      exists (ls1 ls2 : gmap jsstring jsstring) (m1 m2 : list (jsstring * jsstring)),
        markAnnouncementSeen a pa ls ≫= markAnnouncementSeen b pb = Return ls1
        /\ markAnnouncementSeen b pb ls ≫= markAnnouncementSeen a pa = Return ls2
        /\ getSeenAnnouncements ls1 = Return (VObject m1)
        /\ getSeenAnnouncements ls2 = Return (VObject m2)
        /\ (forall k, ownProperty m1 k = ownProperty m2 k)
        /\ (forall key, key <> SEEN_ANNOUNCEMENTS_KEY -> ls1 !! key = ls2 !! key)
        /\ (is_Some (ownProperty m a) \/ is_Some (ownProperty m b) -> ls1 = ls2)).
Proof.
  intros Hm.
  assert (Htwo : forall x px y py,
            markAnnouncementSeen x px ls ≫= markAnnouncementSeen y py
            = Return (<[SEEN_ANNOUNCEMENTS_KEY :=
                          JSON_stringify
                            (VObject (assignProperty (assignProperty m x px) y py))]> ls)
            /\ getSeenAnnouncements
                 (<[SEEN_ANNOUNCEMENTS_KEY :=
                      JSON_stringify
                        (VObject (assignProperty (assignProperty m x px) y py))]> ls)
               = Return (VObject (assignProperty (assignProperty m x px) y py))).
  { intros x px y py.
    destruct (markAnnouncementSeen_frame_aux ls m x px Hm) as (ls1 & Hmark & Hget).
    destruct (markAnnouncementSeen_frame_aux ls1 _ y py Hget) as (ls2 & Hmark2 & Hget2).
    rewrite Hmark. cbn [mbind Except_bind].
    rewrite (markAnnouncementSeen_storage ls1 _ y py Hget) in Hmark2 |- *.
    rewrite (markAnnouncementSeen_storage ls m x px Hm) in Hmark.
    injection Hmark as <-. injection Hmark2 as <-.
    rewrite insert_insert_eq in Hget2 |- *. split; [reflexivity | exact Hget2]. }
  split; [| split].
  - rewrite (proj1 (Htwo a pa a pa)), assignProperty_twice.
    symmetry. apply markAnnouncementSeen_storage, Hm.
  - rewrite (proj1 (Htwo a pa a pa')), assignProperty_twice.
    symmetry. apply markAnnouncementSeen_storage, Hm.
  - intros Hab. destruct (Htwo a pa b pb) as [Hab1 Hab2].
    destruct (Htwo b pb a pa) as [Hba1 Hba2].
    do 4 eexists. split; [exact Hab1 |]. split; [exact Hba1 |].
    split; [exact Hab2 |]. split; [exact Hba2 |].
    split; [intros k; apply ownProperty_assign_swap, Hab |].
    split.
    + intros key Hkey. rewrite !lookup_insert_ne by congruence. reflexivity.
    + intros [Ha | Hb]; do 3 f_equal.
      * apply assignProperty_swap_own; assumption.
      * symmetry. apply assignProperty_swap_own; [congruence | assumption].
Qed.

Lemma marks_compose_witness :
  let ls := Sample.storage in
  let m := Sample.seenBefore in
  let a := lit "CS_101_Midterm_Info" in
  let b := lit "MATH_220_Office_hours_moved" in
  let pa := lit "1970-01-01T07:30:00Z" in
  let pa' := lit "1970-01-01T08:00:00.000Z" in
  let pb := lit "1970-01-01T06:00:00Z" in
  let mark := markAnnouncementSeen (H := Reference.host 0) in
  (mark a pa ls ≫= mark a pa = mark a pa ls)
  /\ (mark a pa ls ≫= mark a pa' = mark a pa' ls)
  /\ (a <> b ->
      exists (ls1 ls2 : gmap jsstring jsstring) (m1 m2 : list (jsstring * jsstring)),
        mark a pa ls ≫= mark b pb = Return ls1
        /\ mark b pb ls ≫= mark a pa = Return ls2
        /\ getSeenAnnouncements (H := Reference.host 0) ls1 = Return (VObject m1)
        /\ getSeenAnnouncements (H := Reference.host 0) ls2 = Return (VObject m2)
        /\ (forall k, ownProperty m1 k = ownProperty m2 k)
        /\ (forall key, key <> SEEN_ANNOUNCEMENTS_KEY -> ls1 !! key = ls2 !! key)
        /\ (is_Some (ownProperty m a) \/ is_Some (ownProperty m b) -> ls1 = ls2)).
Proof.
  assert (Hprior : getSeenAnnouncements (H := Reference.host 0) Sample.storage
                   = Return (VObject Sample.seenBefore)) by (vm_compute; reflexivity).
  exact (marks_compose (H := Reference.host 0) (J := ReferenceFacts.host_json 0)
           Sample.storage Sample.seenBefore (lit "CS_101_Midterm_Info")
           (lit "MATH_220_Office_hours_moved") (lit "1970-01-01T07:30:00Z")
           (lit "1970-01-01T08:00:00.000Z") (lit "1970-01-01T06:00:00Z") Hprior).
Defined.

(** The order of two first marks shows in the stored text. *)
Example marks_order_in_text :
  let mark := markAnnouncementSeen (H := Reference.host 0) in
  let a := lit "CS_101_Midterm_Info" in
  let b := lit "MATH_220_Office_hours_moved" in
  let p := lit "1970-01-01T07:30:00Z" in
  mark a p ∅ ≫= mark b p <> mark b p ∅ ≫= mark a p.
Proof. vm_compute. discriminate. Qed.

(** Ids that are array indices are written first, in ascending order. *)
Example marks_of_array_indices :
  let mark := markAnnouncementSeen (H := Reference.host 0) in
  ((mark (lit "b") (lit "x") ∅ ≫= mark (lit "2") (lit "y")) ≫= mark (lit "1") (lit "z"))
  = Return (A := gmap jsstring jsstring)
      {[ SEEN_ANNOUNCEMENTS_KEY :=
                [123%N] ++ Reference.quoteString (lit "1") ++ [58%N] ++ Reference.quoteString (lit "z") ++ [44%N]
                ++ Reference.quoteString (lit "2") ++ [58%N] ++ Reference.quoteString (lit "y") ++ [44%N]
                ++ Reference.quoteString (lit "b") ++ [58%N] ++ Reference.quoteString (lit "x") ++ [125%N] ]}.
Proof. vm_compute. reflexivity. Qed.

Section ClickFacts.

Context {H : Host}.

Lemma announcementObject_no_announcementId v :
  getProperty (announcementObject v) (lit "announcementId") = None.
Proof.
  unfold getProperty, announcementObject. cbn [list_to_map foldr uncurry fst snd].
  rewrite !lookup_insert_ne by (vm_compute; discriminate). apply lookup_empty.
Qed.

Lemma assignmentObject_no_announcementId v :
  getProperty (assignmentObject v) (lit "announcementId") = None.
Proof.
  unfold getProperty, assignmentObject. cbn [list_to_map foldr uncurry fst snd].
  rewrite !lookup_insert_ne by (vm_compute; discriminate). apply lookup_empty.
Qed.

Lemma announcementObject_url v :
  getProperty (announcementObject v) (lit "url") = Some (PString (view_url v)).
Proof.
  unfold getProperty, announcementObject. cbn [list_to_map foldr uncurry fst snd].
  rewrite !lookup_insert_ne by (vm_compute; discriminate). apply lookup_insert_eq.
Qed.

Lemma assignmentObject_url v :
  getProperty (assignmentObject v) (lit "url") = Some (PString (url v)).
Proof.
  unfold getProperty, assignmentObject. cbn [list_to_map foldr uncurry fst snd].
  rewrite !lookup_insert_ne by (vm_compute; discriminate). apply lookup_insert_eq.
Qed.

(** A click in an item without [data-announcement-id] opens the url, if
    any, and leaves the storage alone. *)
Lemma clickItem_plain isoNow (item : ItemElement) p :
  data_announcementId item = None ->
  clickItem isoNow item p
  = Return {| page_storage := page_storage p;
              page_opened := if truthy (data_url item)
                             then default [] (data_url item) :: page_opened p
                             else page_opened p |}.
Proof. intros Hid. unfold clickItem. rewrite Hid. reflexivity. Qed.

End ClickFacts.

(** X8: the items [revealItems] builds from the views of
    [formatAnnouncementData] and of [formatAssignmentData] carry no
    [data-announcement-id], since the views have no [announcementId]
    property (announcements have an [id]).  So a click in any item never
    throws and never writes the storage, whatever the state of the
    ledger: it opens the url of the view, if that is not empty, and the
    announcement stays unseen. *)
Theorem click_never_marks {H : Host} (isoNow : jsstring) (p : Page) :
  (forall v : AnnouncementView,
     clickItem isoNow (revealItem (announcementObject v)) p
     = Return {| page_storage := page_storage p;
                 page_opened := match view_url v with
                                | [] => page_opened p
                                | _ :: _ => view_url v :: page_opened p
                                end |})
  /\ (forall v : AssignmentView,
        clickItem isoNow (revealItem (assignmentObject v)) p
        = Return {| page_storage := page_storage p;
                    page_opened := match url v with
                                   | [] => page_opened p
                                   | _ :: _ => url v :: page_opened p
                                   end |}).
Proof.
  split; intros v; rewrite clickItem_plain.
  - unfold revealItem. cbn [data_url]. rewrite announcementObject_url.
    destruct (view_url v); reflexivity.
  - unfold revealItem. cbn [data_announcementId].
    rewrite announcementObject_no_announcementId. reflexivity.
  - unfold revealItem. cbn [data_url]. rewrite assignmentObject_url.
    destruct (url v); reflexivity.
  - unfold revealItem. cbn [data_announcementId].
    rewrite assignmentObject_no_announcementId. reflexivity.
Qed.

(** ** Sorting, searching and filtering together *)

Section StableFilterFacts.

Context {A : Type} (before : A -> A -> Prop) (ties : A -> A -> bool).

Lemma filter_Permutation_compat (p : A -> bool) (l r : list A) :
  Permutation l r -> Permutation (List.filter p l) (List.filter p r).
Proof.
  induction 1 as [| x l r _ IH | x y l | l1 l2 l3 _ IH1 _ IH2]; cbn.
  - reflexivity.
  - destruct (p x); [apply perm_skip |]; exact IH.
  - destruct (p x), (p y); try reflexivity. apply perm_swap.
  - etransitivity; eassumption.
Qed.

Lemma filter_StronglySorted (p : A -> bool) (l : list A) :
  StronglySorted before l -> StronglySorted before (List.filter p l).
Proof.
  induction 1 as [| x l _ IH Hx]; cbn; [constructor |].
  destruct (p x); [| exact IH].
  constructor; [exact IH |].
  apply List.Forall_forall. intros y Hy. apply List.filter_In in Hy as [Hy _].
  rewrite List.Forall_forall in Hx. apply Hx, Hy.
Qed.

Lemma filter_filter_swap (p q : A -> bool) (l : list A) :
  List.filter p (List.filter q l) = List.filter q (List.filter p l).
Proof.
  induction l as [| x l IH]; [reflexivity |]. cbn.
  destruct (q x) eqn:Hq, (p x) eqn:Hp; cbn; rewrite ?Hq, ?Hp, IH; reflexivity.
Qed.

(** Filtering a stable sorted arrangement gives the stable sorted
    arrangement of the filtered list. *)
Lemma stableSortedBy_filter (p : A -> bool) (l r : list A) :
  stableSortedBy before ties l r ->
  stableSortedBy before ties (List.filter p l) (List.filter p r).
Proof.
  intros (Hperm & Hsorted & Hties).
  split; [apply filter_Permutation_compat, Hperm |].
  split; [apply filter_StronglySorted, Hsorted |].
  intros x. rewrite (filter_filter_swap (ties x) p r), Hties.
  apply filter_filter_swap.
Qed.

(** A sorted list is its own stable sorted arrangement. *)
Lemma stableSortedBy_sorted (l : list A) :
  StronglySorted before l -> stableSortedBy before ties l l.
Proof. intros Hl. split; [reflexivity | split; [exact Hl | reflexivity]]. Qed.

Lemma StronglySorted_snoc (R : A -> A -> Prop) (l : list A) (x : A) :
  StronglySorted R l -> Forall (fun a => R a x) l -> StronglySorted R (l ++ [x]).
Proof.
  induction 1 as [| y l Hl IH Hy]; intros Hx; cbn; [repeat constructor |].
  apply Forall_cons in Hx as [Hyx Hx].
  constructor; [apply IH, Hx |].
  apply Forall_app. split; [exact Hy | repeat constructor; exact Hyx].
Qed.

End StableFilterFacts.

Section SortComposeFacts.

Context {H : Host} {L : Collation H}.

Lemma sortAssignments_filter (p : AssignmentView -> bool) assignments sortBy :
  List.filter p (sortAssignments assignments sortBy)
  = sortAssignments (List.filter p assignments) sortBy.
Proof.
  apply sortAssignments_unique, stableSortedBy_filter, sortAssignments_stableSortedBy.
Qed.

Lemma sortAssignments_sorted assignments sortBy :
  StronglySorted (orderOf sortBy) assignments ->
  sortAssignments assignments sortBy = assignments.
Proof.
  intros Hsorted. symmetry. apply sortAssignments_unique, stableSortedBy_sorted, Hsorted.
Qed.

End SortComposeFacts.

(** X9: [sortAssignments] leaves a list alone that is already in the
    order of the key, so sorting twice by one key is sorting once. *)
Theorem sortAssignments_idempotent {H : Host} {L : Collation H}
    (assignments : list AssignmentView) (sortBy : jsstring) :
  (StronglySorted (orderOf sortBy) assignments ->
   sortAssignments assignments sortBy = assignments)
  /\ sortAssignments (sortAssignments assignments sortBy) sortBy
     = sortAssignments assignments sortBy.
Proof.
  split; [apply sortAssignments_sorted |].
  apply sortAssignments_sorted.
  apply (sortAssignments_stableSortedBy assignments sortBy).
Qed.

Lemma sortAssignments_idempotent_witness :
  (StronglySorted (orderOf (H := Reference.host 0) (lit "course")) Sample.views ->
   sortAssignments (H := Reference.host 0) Sample.views (lit "course") = Sample.views)
  /\ sortAssignments (H := Reference.host 0)
       (sortAssignments (H := Reference.host 0) Sample.views (lit "course")) (lit "course")
     = sortAssignments (H := Reference.host 0) Sample.views (lit "course").
Proof.
  exact (sortAssignments_idempotent (H := Reference.host 0)
           (L := ReferenceFacts.host_collation 0) Sample.views (lit "course")).
Defined.

(** X10: the steps of [renderAssignmentsFiltered] can be taken in any
    order: searching a sorted list gives what sorting the found views
    gives, and the default-view filter, which the script applies after the
    sort, can as well be applied before it. *)
Theorem sort_commutes_with_filters {H : Host} {C : Casing} {L : Collation H}
    (assignments : list AssignmentView) (query sortBy defaultView : jsstring) (clock : Z) :
  searchAssignments (sortAssignments assignments sortBy) query
  = sortAssignments (searchAssignments assignments query) sortBy
  /\ applyDefaultViewFilter defaultView clock (sortAssignments assignments sortBy)
     = sortAssignments (applyDefaultViewFilter defaultView clock assignments) sortBy.
Proof.
  split.
  - unfold searchAssignments. destruct query; [reflexivity | apply sortAssignments_filter].
  - unfold applyDefaultViewFilter.
    destruct (decide (defaultView = lit "day")); [apply sortAssignments_filter |].
    destruct (decide (defaultView = lit "week")); [apply sortAssignments_filter |].
    reflexivity.
Qed.

Lemma sort_commutes_with_filters_witness :
  searchAssignments (C := ReferenceText.casing)
    (sortAssignments (H := Reference.host 0) Sample.views (lit "status")) (lit "cs")
  = sortAssignments (H := Reference.host 0)
      (searchAssignments (C := ReferenceText.casing) Sample.views (lit "cs")) (lit "status")
  /\ applyDefaultViewFilter (H := Reference.host 0) (lit "week") Sample.eightOClock
       (sortAssignments (H := Reference.host 0) Sample.views (lit "status"))
     = sortAssignments (H := Reference.host 0)
         (applyDefaultViewFilter (H := Reference.host 0) (lit "week") Sample.eightOClock
            Sample.views) (lit "status").
Proof.
  exact (sort_commutes_with_filters (H := Reference.host 0) (C := ReferenceText.casing)
           (L := ReferenceFacts.host_collation 0) Sample.views (lit "cs") (lit "status")
           (lit "week") Sample.eightOClock).
Defined.

Lemma Forall_forallb {A : Type} (f : A -> bool) (l : list A) :
  forallb f l = true -> Forall (fun a => f a = true) l.
Proof.
  induction l as [| a l IH]; cbn; [constructor |].
  intros [Ha Hl]%andb_true_iff. constructor; [exact Ha | exact (IH Hl)].
Qed.

Section ReverseFacts.

Context {H : Host} {L : Collation H}.

Lemma dueAscending_flip a b :
  dated a = true -> dated b = true -> dueAscending a b -> dueDescending b a.
Proof.
  unfold dated, dueAscending, dueDescending.
  destruct (viewInstant a), (viewInstant b); cbn; try discriminate; auto.
Qed.

(** With one view at most for each due instant, a class of ties has one
    member at most. *)
Lemma filter_same_instant_short (x : AssignmentView) (l : list AssignmentView) :
  NoDup (List.map viewInstant l) ->
  (length (List.filter (fun y => bool_decide (viewInstant y = viewInstant x)) l) <= 1)%nat.
Proof.
  induction l as [| a l IH]; cbn; [lia |].
  intros Hnd. apply NoDup_cons in Hnd as [Ha Hnd].
  destruct (bool_decide_reflect (viewInstant a = viewInstant x)) as [Heq |]; [| apply IH, Hnd].
  cbn. assert (Hnone : List.filter (fun y => bool_decide (viewInstant y = viewInstant x)) l = []).
  { clear IH Hnd. induction l as [| b l IH]; [reflexivity |]. cbn.
    destruct (bool_decide_reflect (viewInstant b = viewInstant x)) as [Hb |].
    - exfalso. apply Ha. cbn. rewrite Heq, <- Hb. apply list_elem_of_here.
    - apply IH. intros Hin. apply Ha. cbn. apply list_elem_of_further, Hin. }
  rewrite Hnone. cbn. lia.
Qed.

Lemma rev_short {A : Type} (l : list A) : (length l <= 1)%nat -> rev l = l.
Proof. destruct l as [| a [| b l]]; cbn; intros; [reflexivity | reflexivity | lia]. Qed.

Lemma filter_rev {A : Type} (p : A -> bool) (l : list A) :
  List.filter p (rev l) = rev (List.filter p l).
Proof.
  induction l as [| a l IH]; [reflexivity |]. cbn.
  rewrite List.filter_app, IH. cbn. destruct (p a); [reflexivity | apply app_nil_r].
Qed.

End ReverseFacts.

(** X11: when every view has a due instant and no two views have the same
    one, the list sorted by [due-desc] is the reverse of the list sorted by
    [due-asc]. *)
Theorem due_desc_is_reverse {H : Host} {L : Collation H} (assignments : list AssignmentView) :
  Forall (fun a => dated a = true) assignments ->
  NoDup (List.map viewInstant assignments) ->
  sortAssignments assignments (lit "due-desc")
  = rev (sortAssignments assignments (lit "due-asc")).
Proof.
  intros Hdated Hdistinct. symmetry. apply sortAssignments_unique.
  destruct (sortAssignments_stableSortedBy assignments (lit "due-asc"))
    as (Hperm & Hsorted & Hties).
  change (orderOf (lit "due-asc")) with dueAscending in Hsorted.
  change (tiesOf (lit "due-asc"))
    with (fun x y : AssignmentView => bool_decide (viewInstant y = viewInstant x)) in Hties.
  change (orderOf (lit "due-desc")) with dueDescending.
  change (tiesOf (lit "due-desc"))
    with (fun x y : AssignmentView => bool_decide (viewInstant y = viewInstant x)).
  split; [rewrite Hperm at 1; apply Permutation_rev |].
  split.
  - assert (Hall : Forall (fun a => dated a = true) (sortAssignments assignments (lit "due-asc")))
      by (rewrite <- Hperm; exact Hdated).
    revert Hsorted Hall. generalize (sortAssignments assignments (lit "due-asc")).
    intros l Hsorted Hall. induction Hsorted as [| x l _ IH Hx]; cbn; [constructor |].
    apply Forall_cons in Hall as [Hdx Hall].
    apply StronglySorted_snoc; [apply IH, Hall |].
    apply Forall_forall. intros a Ha.
    apply list_elem_of_In in Ha. apply List.in_rev in Ha. apply list_elem_of_In in Ha.
    rewrite Forall_forall in Hx, Hall.
    apply dueAscending_flip; [exact Hdx | apply Hall, Ha | apply Hx, Ha].
  - intros x. rewrite filter_rev, Hties. apply rev_short, filter_same_instant_short, Hdistinct.
Qed.

Lemma due_desc_is_reverse_witness :
  let dated3 := take 1 Sample.views ++ take 1 (drop 2 Sample.views) in
  sortAssignments (H := Reference.host 0) dated3 (lit "due-desc")
  = rev (sortAssignments (H := Reference.host 0) dated3 (lit "due-asc")).
Proof.
  apply (due_desc_is_reverse (H := Reference.host 0) (L := ReferenceFacts.host_collation 0)).
  - apply Forall_forallb. vm_compute. reflexivity.
  - apply (bool_decide_unpack _). vm_compute. exact I.
Defined.

(** ** The default views and the flags of the normaliser *)

Section ViewFacts.

Context {H : Host}.

Lemma startOfDay_quot t :
  startOfDay t = msPerDay * ((t + timezoneOffset) / msPerDay) - timezoneOffset.
Proof.
  unfold startOfDay.
  pose proof (Z.div_mod (t + timezoneOffset) msPerDay) as Hdm.
  unfold msPerDay in *. lia.
Qed.

Lemma startOfDay_mono a b : a <= b -> startOfDay a <= startOfDay b.
Proof.
  intros Hab. rewrite !startOfDay_quot.
  assert ((a + timezoneOffset) / msPerDay <= (b + timezoneOffset) / msPerDay)
    by (apply Z.div_le_mono; [reflexivity | lia]).
  unfold msPerDay in *. lia.
Qed.

(** The two tests of the default view, on a view whose due date parses. *)
Lemma dueInWeek_dated clock v s d :
  hasDueDate v = true -> dueDate v = Some s -> Date_parse s = Some d ->
  dueInWeek clock v
  = (startOfDay clock <=? startOfDay d) && (startOfDay d <=? weekWindowEnd clock).
Proof.
  intros Hh Hs Hd. unfold dueInWeek. rewrite Hh, Hs. cbn [negb newDateOf].
  unfold newDate. rewrite Hd. cbn [setHours addDays Date_le].
  replace (startOfDay clock + ((0 * 60 + 0) * 60 + 0) * 1000 + 0)
    with (startOfDay clock) by lia.
  rewrite startOfDay_shift, startOfDay_idem.
  unfold weekWindowEnd. f_equal; f_equal; unfold msPerDay; lia.
Qed.

Lemma dueOnDay_dated clock v s d :
  hasDueDate v = true -> dueDate v = Some s -> Date_parse s = Some d ->
  dueOnDay clock v = (startOfDay d =? startOfDay clock).
Proof.
  intros Hh Hs Hd. unfold dueOnDay. rewrite Hh, Hs. cbn [negb newDateOf].
  unfold newDate. rewrite Hd. cbn [setHours Date_sameTime]. f_equal; lia.
Qed.

Lemma views_unparseable clock v s :
  dueDate v = Some s -> Date_parse s = None ->
  dueInWeek clock v = false /\ dueOnDay clock v = false.
Proof.
  intros Hs Hd. unfold dueInWeek, dueOnDay. rewrite Hs. cbn [newDateOf].
  unfold newDate. rewrite Hd. destruct (hasDueDate v); cbn; auto.
Qed.

(** Day starts that are a week and a day apart at most are a week apart
    at most. *)
Lemma week_of_days c d :
  startOfDay c <= startOfDay d <= weekWindowEnd c <-> startOfDay c <= d <= weekWindowEnd c.
Proof.
  unfold weekWindowEnd.
  pose proof (startOfDay_bounds d) as Hd. pose proof (startOfDay_mono (startOfDay c) d) as Hm.
  rewrite startOfDay_idem in Hm.
  rewrite (startOfDay_quot d), (startOfDay_quot c) in *.
  unfold msPerDay in *. lia.
Qed.

Lemma default_views_agree c1 c2 a :
  startOfDay c1 = startOfDay c2 ->
  (dueInWeek c2 (formatAssignment c1 a) = true
   <-> isUrgent (formatAssignment c1 a) = Some true)
  /\ (dueOnDay c2 (formatAssignment c1 a) = true
      <-> urgency (formatAssignment c1 a) = Some today).
Proof.
  intros Hday.
  destruct (truthy (due_at a)) eqn:Ht.
  - destruct (due_at a) as [s |] eqn:Hs; [| discriminate].
    assert (Hh : hasDueDate (formatAssignment c1 a) = true)
      by (rewrite hasDueDate_present, Hs; exact Ht).
    assert (Hdd : dueDate (formatAssignment c1 a) = Some s) by (cbn; exact Hs).
    destruct (Date_parse s) as [d |] eqn:Hd.
    + assert (Hinst : dueInstant a = Some d)
        by (unfold dueInstant; rewrite Hs, Ht; exact Hd).
      destruct (formatAssignment_dated c1 a d Hinst) as (_ & Hu & Hk).
      rewrite (dueInWeek_dated c2 _ s d Hh Hdd Hd), (dueOnDay_dated c2 _ s d Hh Hdd Hd).
      rewrite Hu, Hk, <- Hday. unfold weekWindowEnd. rewrite <- Hday.
      fold (weekWindowEnd c1). split.
      * rewrite andb_true_iff, !Z.leb_le, week_of_days. split.
        -- intros [H1 H2]. f_equal. apply andb_true_iff. rewrite !Z.leb_le. auto.
        -- intros [= Hb]. apply andb_true_iff in Hb. rewrite !Z.leb_le in Hb. exact Hb.
      * destruct (startOfDay d =? startOfDay c1); [tauto |].
        split; [intros Hx; discriminate Hx |].
        destruct ((startOfDay c1 + msPerDay <=? d) && (d <=? weekWindowEnd c1));
          intros Hx; discriminate Hx.
    + assert (Hne : s <> []) by (intros ->; cbn in Ht; discriminate Ht).
      destruct (formatAssignment_unparseable c1 a s Hs Hne Hd) as (_ & _ & Hk & Hu).
      destruct (views_unparseable c2 _ s Hdd Hd) as [-> ->].
      rewrite Hu, Hk. split; split; discriminate.
  - destruct (formatAssignment_undated c1 a Ht) as (Hh & _ & Hk & Hu).
    unfold dueInWeek, dueOnDay. rewrite Hh, Hu, Hk. cbn. split; split; discriminate.
Qed.

Lemma filter_ext_elem {A : Type} (p q : A -> bool) (l : list A) :
  Forall (fun x => p x = q x) l -> List.filter p l = List.filter q l.
Proof.
  induction 1 as [| x l Hx _ IH]; [reflexivity |]. cbn. rewrite Hx, IH. reflexivity.
Qed.

Lemma filter_filter_implied {A : Type} (p q : A -> bool) (l : list A) :
  (forall x, p x = true -> q x = true) ->
  List.filter p (List.filter q l) = List.filter p l.
Proof.
  intros Hpq. induction l as [| x l IH]; [reflexivity |]. cbn.
  destruct (q x) eqn:Hq; cbn; [rewrite IH; reflexivity |].
  destruct (p x) eqn:Hp; [| exact IH].
  rewrite (Hpq x Hp) in Hq. discriminate.
Qed.

Lemma dueInWeek_hasDueDate clock v : dueInWeek clock v = true -> hasDueDate v = true.
Proof. unfold dueInWeek. destruct (hasDueDate v); [reflexivity | discriminate]. Qed.

End ViewFacts.

(** X12: for a view made by [formatAssignmentData], and a render on the
    same local day, the [week] view keeps the view exactly when its
    [isUrgent] flag is true, and the [day] view exactly when its urgency
    is [today]; a view with a due date that does not parse, or none, is in
    neither. *)
Theorem default_views_match_flags {H : Host} (formatClock renderClock : Z)
    (a : RawAssignment) :
  startOfDay formatClock = startOfDay renderClock ->
  let v := formatAssignment formatClock a in
  (dueInWeek renderClock v = true <-> isUrgent v = Some true)
  /\ (dueOnDay renderClock v = true <-> urgency v = Some today)
  /\ (dueInstant a = None -> dueInWeek renderClock v = false /\ dueOnDay renderClock v = false).
Proof.
  intros Hday v. subst v.
  destruct (default_views_agree formatClock renderClock a Hday) as [Hweek Hdayv].
  split; [exact Hweek | split; [exact Hdayv |]].
  intros Hnone.
  destruct (dueInWeek renderClock (formatAssignment formatClock a)) eqn:Hw.
  - exfalso. destruct Hweek as [Hweek _]. specialize (Hweek eq_refl).
    unfold dueInstant in Hnone. destruct (truthy (due_at a)) eqn:Ht.
    + destruct (due_at a) as [s |] eqn:Hs; [| discriminate]. cbn in Hnone.
      assert (Hne : s <> []) by (intros ->; cbn in Ht; discriminate Ht).
      destruct (formatAssignment_unparseable formatClock a s Hs Hne Hnone) as (_ & _ & _ & Hu).
      congruence.
    + destruct (formatAssignment_undated formatClock a Ht) as (_ & _ & _ & Hu). congruence.
  - split; [reflexivity |].
    destruct (dueOnDay renderClock (formatAssignment formatClock a)) eqn:Hd; [| reflexivity].
    exfalso. destruct Hdayv as [Hdayv _]. specialize (Hdayv eq_refl).
    unfold dueInstant in Hnone. destruct (truthy (due_at a)) eqn:Ht.
    + destruct (due_at a) as [s |] eqn:Hs; [| discriminate]. cbn in Hnone.
      assert (Hne : s <> []) by (intros ->; cbn in Ht; discriminate Ht).
      destruct (formatAssignment_unparseable formatClock a s Hs Hne Hnone) as (_ & _ & Hk & _).
      congruence.
    + destruct (formatAssignment_undated formatClock a Ht) as (_ & _ & Hk & _). congruence.
Qed.

Lemma default_views_match_flags_witness :
  let a := Sample.assignment (Some (lit "1970-01-04T12:00:00Z")) None in
  let v := formatAssignment (H := Reference.host 0) Sample.eightOClock a in
  (dueInWeek (H := Reference.host 0) (Sample.eightOClock + 60000) v = true
   <-> isUrgent v = Some true)
  /\ (dueOnDay (H := Reference.host 0) (Sample.eightOClock + 60000) v = true
      <-> urgency v = Some today)
  /\ (dueInstant (H := Reference.host 0) a = None ->
      dueInWeek (H := Reference.host 0) (Sample.eightOClock + 60000) v = false
      /\ dueOnDay (H := Reference.host 0) (Sample.eightOClock + 60000) v = false).
Proof.
  exact (default_views_match_flags (H := Reference.host 0) Sample.eightOClock
           (Sample.eightOClock + 60000)
           (Sample.assignment (Some (lit "1970-01-04T12:00:00Z")) None) eq_refl).
Defined.

(** X13: when the default view is the week and completed work is not
    hidden (both hold without configuration), the first list on the page,
    rendered on the day the feed was formatted, is the list of the views
    whose [isUrgent] flag is true, sorted by ascending due instant;
    [hideNoDueDate] makes no difference to it. *)
Theorem first_page_is_urgent {H : Host} {C : Casing} {L : Collation H}
    (filters : option AssignmentFilters) (formatClock renderClock : Z)
    (assignments : option (list RawAssignment)) :
  startOfDay formatClock = startOfDay renderClock ->
  hideCompletedOf filters = false -> defaultViewOf filters = lit "week" ->
  let allAssignments := formatAssignmentData formatClock assignments in
  renderAssignmentsFiltered (filterAssignments filters allAssignments) false
    (defaultViewOf filters) renderClock [] (lit "due-asc")
  = sortAssignments
      (List.filter (fun v => bool_decide (isUrgent v = Some true)) allAssignments)
      (lit "due-asc").
Proof.
  intros Hday Hcompleted Hview allAssignments.
  unfold renderAssignmentsFiltered, filterAssignments. rewrite Hcompleted, Hview.
  cbn [truthy negb]. unfold applyDefaultViewFilter.
  destruct (decide (lit "week" = lit "day")) as [Hbad |]; [discriminate Hbad |].
  destruct (decide (lit "week" = lit "week")) as [_ | Hbad]; [| congruence].
  rewrite sortAssignments_filter. f_equal.
  assert (Hweek : List.filter (dueInWeek renderClock) allAssignments
                  = List.filter (fun v => bool_decide (isUrgent v = Some true)) allAssignments).
  { apply filter_ext_elem. unfold allAssignments, formatAssignmentData.
    apply List.Forall_forall. intros v Hv. apply List.in_map_iff in Hv as (a & <- & _).
    destruct (default_views_agree formatClock renderClock a Hday) as [Hiff _].
    destruct (dueInWeek renderClock (formatAssignment formatClock a)) eqn:Hw.
    - symmetry. apply bool_decide_eq_true, Hiff. reflexivity.
    - symmetry. apply bool_decide_eq_false. intros Hu. apply Hiff in Hu. discriminate. }
  destruct (hideNoDueDateOf filters); [| exact Hweek].
  rewrite filter_filter_implied by apply dueInWeek_hasDueDate. exact Hweek.
Qed.

Lemma first_page_is_urgent_witness :
  let allAssignments :=
    formatAssignmentData (H := Reference.host 0) Sample.eightOClock (Some Sample.feed) in
  renderAssignmentsFiltered (H := Reference.host 0) (C := ReferenceText.casing)
    (filterAssignments (C := ReferenceText.casing) None allAssignments) false
    (defaultViewOf None) (Sample.eightOClock + 60000) [] (lit "due-asc")
  = sortAssignments (H := Reference.host 0)
      (List.filter (fun v => bool_decide (isUrgent v = Some true)) allAssignments)
      (lit "due-asc").
Proof.
  exact (first_page_is_urgent (H := Reference.host 0) (C := ReferenceText.casing)
           (L := ReferenceFacts.host_collation 0) None Sample.eightOClock
           (Sample.eightOClock + 60000) (Some Sample.feed) eq_refl eq_refl eq_refl).
Defined.

(** ** Lower case: completed work and search *)

Module ReferenceTextFacts.

Lemma asciiLower_idem c : asciiLower (asciiLower c) = asciiLower c.
Proof.
  unfold asciiLower.
  destruct ((65 <=? c) && (c <=? 90))%N eqn:Hc; [| rewrite Hc; reflexivity].
  apply andb_true_iff in Hc as [H1%N.leb_le H2%N.leb_le].
  replace ((65 <=? c + 32) && (c + 32 <=? 90))%N with false; [reflexivity |].
  symmetry. apply andb_false_iff. right. apply N.leb_gt. lia.
Qed.

Lemma casing_laws : CasingLaws ReferenceText.casing.
Proof.
  split; cbn.
  - intros p r _. rewrite List.map_app, take_app_le, take_ge; rewrite ?length_map; auto.
  - intros s. rewrite List.map_map. apply List.map_ext, asciiLower_idem.
Qed.

End ReferenceTextFacts.

Section CompletedFacts.

Context {H : Host} {C : Casing} {K : CasingLaws C}.

(** The head of a lowered string, for a string that starts with ASCII
    text. *)
Lemma startsWith_lowered (p r prefix : jsstring) :
  Forall (fun c => (c < 128)%N) p -> (length prefix <= length p)%nat ->
  startsWith (toLowerCase (p ++ r)) prefix
  = bool_decide (take (length prefix) (List.map asciiLower p) = prefix).
Proof.
  intros Hp Hlen. unfold startsWith. rewrite <- (toLowerCase_ascii p r Hp).
  rewrite take_take, Nat.min_l by exact Hlen. reflexivity.
Qed.

Lemma isCompleted_status (v : AssignmentView) (p r : jsstring) :
  status v = p ++ r -> Forall (fun c => (c < 128)%N) p -> (9 <= length p)%nat ->
  isCompleted v
  = bool_decide (take 6 (List.map asciiLower p) = lit "graded")
    || bool_decide (take 9 (List.map asciiLower p) = lit "submitted").
Proof.
  intros Hs Hp Hlen. unfold isCompleted. rewrite Hs.
  rewrite (startsWith_lowered p r (lit "graded") Hp) by (cbn; lia).
  rewrite (startsWith_lowered p r (lit "submitted") Hp) by (cbn; lia).
  reflexivity.
Qed.

Lemma startsWith_graded (r : jsstring) :
  startsWith (toLowerCase (lit "Graded" ++ r)) (lit "graded") = true.
Proof.
  rewrite (startsWith_lowered (lit "Graded") r (lit "graded")); [reflexivity | | cbn; lia].
  vm_compute. repeat constructor.
Qed.

Lemma isCompleted_statusOf (sub : option Submission) (v : AssignmentView) :
  status v = statusOf sub ->
  isCompleted v
  = match sub with
    | Some s => bool_decide (workflow_state s = lit "graded")
                || bool_decide (workflow_state s = lit "submitted")
    | None => false
    end.
Proof.
  intros Hs.
  assert (Hnot : status v = lit "Not submitted" -> isCompleted v = false).
  { intros Hn. rewrite (isCompleted_status v (lit "Not submitted") []);
      [reflexivity | rewrite Hn; symmetry; apply app_nil_r | | cbn; lia].
    vm_compute. repeat constructor. }
  destruct sub as [s |]; [| apply Hnot, Hs].
  unfold statusOf in Hs.
  destruct (decide (workflow_state s = lit "graded")) as [Hg | Hg].
  - rewrite (bool_decide_eq_true_2 _ Hg). cbn [orb].
    unfold isCompleted. apply orb_true_iff. left.
    destruct (gradeTruthy (gradeOrScore s)).
    + rewrite Hs. change (lit "Graded: ") with (lit "Graded" ++ lit ": ").
      rewrite <- app_assoc. apply startsWith_graded.
    + rewrite Hs, <- (app_nil_r (lit "Graded")). apply startsWith_graded.
  - rewrite (bool_decide_eq_false_2 _ Hg). cbn [orb].
    destruct (decide (workflow_state s = lit "submitted")) as [Hsub | Hsub].
    + rewrite (bool_decide_eq_true_2 _ Hsub).
      rewrite (isCompleted_status v (lit "Submitted") []);
        [reflexivity | rewrite Hs; symmetry; apply app_nil_r | | cbn; lia].
      vm_compute. repeat constructor.
    + rewrite (bool_decide_eq_false_2 _ Hsub). apply Hnot, Hs.
Qed.

End CompletedFacts.

(** X14: with [hideCompleted], the views of [formatAssignmentData] that
    stay are exactly those of the assignments that are neither graded nor
    submitted, which are the views with the status [Not submitted]; their
    order is kept. *)
Theorem hideCompleted_keeps_open_work {H : Host} {C : Casing} {K : CasingLaws C}
    (clock : Z) (assignments : option (list RawAssignment)) (filters : option AssignmentFilters) :
  hideNoDueDateOf filters = false -> hideCompletedOf filters = true ->
  filterAssignments filters (formatAssignmentData clock assignments)
  = List.filter (fun v => bool_decide (status v = lit "Not submitted"))
      (formatAssignmentData clock assignments)
  /\ filterAssignments filters (formatAssignmentData clock assignments)
     = List.map (formatAssignment clock)
         (List.filter
            (fun a => match submission a with
                      | Some s => negb (bool_decide (workflow_state s = lit "graded")
                                        || bool_decide (workflow_state s = lit "submitted"))
                      | None => true
                      end)
            (default [] assignments)).
Proof.
  intros Hno Hdone. unfold filterAssignments. rewrite Hno, Hdone.
  unfold formatAssignmentData.
  assert (Hcompleted : forall a,
            isCompleted (formatAssignment clock a)
            = match submission a with
              | Some s => bool_decide (workflow_state s = lit "graded")
                          || bool_decide (workflow_state s = lit "submitted")
              | None => false
              end)
    by (intros a; apply isCompleted_statusOf; reflexivity).
  split.
  - apply filter_ext_elem, List.Forall_forall. intros v Hv.
    apply List.in_map_iff in Hv as (a & <- & _). rewrite Hcompleted.
    change (status (formatAssignment clock a)) with (statusOf (submission a)).
    unfold statusOf. destruct (submission a) as [s |]; [| reflexivity].
    destruct (decide (workflow_state s = lit "graded")) as [Hg | Hg].
    + rewrite (bool_decide_eq_true_2 _ Hg). cbn.
      destruct (gradeTruthy (gradeOrScore s)); reflexivity.
    + rewrite (bool_decide_eq_false_2 _ Hg). cbn [orb].
      destruct (decide (workflow_state s = lit "submitted")) as [Hsub | Hsub].
      * rewrite (bool_decide_eq_true_2 _ Hsub). reflexivity.
      * rewrite (bool_decide_eq_false_2 _ Hsub). reflexivity.
  - induction (default [] assignments) as [| a l IH]; [reflexivity |].
    cbn [List.map List.filter]. rewrite Hcompleted, IH.
    destruct (submission a) as [s |]; [| reflexivity].
    destruct (_ || _); reflexivity.
Qed.

Lemma hideCompleted_keeps_open_work_witness :
  let filters := Some {| hideNoDueDate := Some false; hideCompleted := Some true;
                         defaultView := None |} in
  let views := formatAssignmentData (H := Reference.host 0) Sample.eightOClock
                 (Some Sample.feed) in
  filterAssignments (C := ReferenceText.casing) filters views
  = List.filter (fun v => bool_decide (status v = lit "Not submitted")) views
  /\ filterAssignments (C := ReferenceText.casing) filters views
     = List.map (formatAssignment (H := Reference.host 0) Sample.eightOClock)
         (List.filter
            (fun a => match submission a with
                      | Some s => negb (bool_decide (workflow_state s = lit "graded")
                                        || bool_decide (workflow_state s = lit "submitted"))
                      | None => true
                      end)
            (default [] (Some Sample.feed))).
Proof.
  exact (hideCompleted_keeps_open_work (H := Reference.host 0) (C := ReferenceText.casing)
           (K := ReferenceTextFacts.casing_laws) Sample.eightOClock (Some Sample.feed)
           (Some {| hideNoDueDate := Some false; hideCompleted := Some true;
                    defaultView := None |}) eq_refl eq_refl).
Defined.

Section IncludesFacts.

Lemma startsWith_spec (s prefix : jsstring) :
  startsWith s prefix = true <-> exists back, s = prefix ++ back.
Proof.
  unfold startsWith. rewrite bool_decide_eq_true. split.
  - intros Ht. exists (drop (length prefix) s). rewrite <- Ht at 1. symmetry. apply take_drop.
  - intros [back ->]. rewrite take_app_le, take_ge; auto.
Qed.

Lemma includes_spec (s sub : jsstring) :
  includes s sub = true <-> exists front back, s = front ++ sub ++ back.
Proof.
  induction s as [| c s IH]; cbn [includes].
  - rewrite orb_false_r, startsWith_spec. split.
    + intros [back Hb]. exists [], back. exact Hb.
    + intros (front & back & Hs). symmetry in Hs.
      apply app_eq_nil in Hs as [-> Hs]. exists back. cbn. symmetry. exact Hs.
  - rewrite orb_true_iff, startsWith_spec, IH. split.
    + intros [[back Hb] | (front & back & Hs)].
      * exists [], back. exact Hb.
      * exists (c :: front), back. cbn. f_equal. exact Hs.
    + intros ([| c' front] & back & Hs).
      * left. exists back. exact Hs.
      * right. injection Hs as _ Hs. exists front, back. exact Hs.
Qed.

Lemma includes_refl s : includes s s = true.
Proof. apply includes_spec. exists [], []. cbn. symmetry. apply app_nil_r. Qed.

Lemma includes_nil s : includes s [] = true.
Proof. apply includes_spec. exists [], s. reflexivity. Qed.

Lemma includes_trans s mid sub :
  includes s mid = true -> includes mid sub = true -> includes s sub = true.
Proof.
  rewrite !includes_spec. intros (f1 & b1 & ->) (f2 & b2 & ->).
  exists (f1 ++ f2), (b2 ++ b1). rewrite <- !app_assoc. reflexivity.
Qed.

End IncludesFacts.

Section SearchFacts.

Context {C : Casing}.

Lemma searchAssignments_filter assignments query :
  searchAssignments assignments query
  = List.filter (matchesQuery (toLowerCase query)) assignments
  \/ (query = [] /\ searchAssignments assignments query = assignments).
Proof. destruct query; [right; auto | left; reflexivity]. Qed.

Lemma filter_all {A : Type} (p : A -> bool) (l : list A) :
  (forall x, p x = true) -> List.filter p l = l.
Proof.
  intros Hp. induction l as [| x l IH]; [reflexivity |]. cbn. rewrite Hp, IH. reflexivity.
Qed.

Lemma filter_sublist_implied {A : Type} (p q : A -> bool) (l : list A) :
  (forall x, p x = true -> q x = true) -> sublist (List.filter p l) (List.filter q l).
Proof.
  intros Hpq. induction l as [| x l IH]; cbn; [constructor |].
  destruct (p x) eqn:Hp.
  - rewrite (Hpq x Hp). apply sublist_skip, IH.
  - destruct (q x); [apply sublist_cons, IH | exact IH].
Qed.

Lemma searchAssignments_as_filter assignments query :
  searchAssignments assignments query
  = List.filter (matchesQuery (match query with [] => [] | _ => toLowerCase query end))
      assignments.
Proof.
  destruct query; [| reflexivity]. cbn. symmetry. apply filter_all.
  intros a. unfold matchesQuery. rewrite includes_nil. reflexivity.
Qed.

End SearchFacts.

(** X15: [searchAssignments] looks at the lower case of the query only
    (two queries that are not empty and have the same lower case find the
    same views), finds
    every assignment by its whole name and by its whole course, keeps the
    order of the list, and finds fewer views for a query whose lower case
    contains the lower case of another. *)
Theorem searchAssignments_properties {C : Casing} (assignments : list AssignmentView)
    (query longer : jsstring) :
  (query <> [] -> longer <> [] -> toLowerCase query = toLowerCase longer ->
   searchAssignments assignments query = searchAssignments assignments longer)
  /\ (forall a, List.In a assignments ->
        List.In a (searchAssignments assignments (name a))
        /\ List.In a (searchAssignments assignments (course a)))
  /\ sublist (searchAssignments assignments query) assignments
  /\ (longer <> [] -> includes (toLowerCase longer) (toLowerCase query) = true ->
      sublist (searchAssignments assignments longer) (searchAssignments assignments query)).
Proof.
  split; [| split; [| split]].
  - intros Hq Hl Heq. destruct query, longer; try congruence.
    unfold searchAssignments. rewrite Heq. reflexivity.
  - intros a Ha. split.
    + destruct (name a) eqn:Hn; [exact Ha |]. rewrite <- Hn.
      destruct (searchAssignments_filter assignments (name a)) as [-> | [Hnil _]]; [| congruence].
      apply List.filter_In. split; [exact Ha |].
      unfold matchesQuery. rewrite includes_refl. reflexivity.
    + destruct (course a) eqn:Hn; [exact Ha |]. rewrite <- Hn.
      destruct (searchAssignments_filter assignments (course a)) as [-> | [Hnil _]];
        [| congruence].
      apply List.filter_In. split; [exact Ha |].
      unfold matchesQuery. rewrite includes_refl. apply orb_true_r.
  - rewrite searchAssignments_as_filter.
    rewrite <- (filter_all (fun _ => true) assignments) at 2 by reflexivity.
    apply filter_sublist_implied. reflexivity.
  - intros Hl Hinc. rewrite (searchAssignments_as_filter assignments query).
    destruct longer as [| c l]; [congruence |]. cbn [searchAssignments].
    apply filter_sublist_implied. intros a. unfold matchesQuery.
    assert (Hsub : forall s, includes s (toLowerCase (c :: l)) = true ->
                     includes s (match query with [] => [] | _ => toLowerCase query end) = true).
    { intros s Hs. destruct query; [apply includes_nil |].
      eapply includes_trans; eassumption. }
    rewrite !orb_true_iff. intros [Hn | Hc]; [left | right]; apply Hsub; assumption.
Qed.

(** ** More on notifications *)

Section PassFacts.

Context {H : Host}.

Lemma seen_key_not_notifyKey e : SEEN_ANNOUNCEMENTS_KEY <> notifyKey e.
Proof. unfold notifyKey. vm_compute. discriminate. Qed.

Lemma tokenExpiryWarning_frame clock config w :
  let w' := tokenExpiryWarning clock config w in
  (exists new, shown w' = new ++ shown w /\ (length new <= 1)%nat
               /\ Forall (fun n => isUrgentNotice n = false) new)
  /\ permissionRequests w' = permissionRequests w
  /\ (forall key, (forall e, key <> notifyKey e) ->
        localStorage w' !! key = localStorage w !! key).
Proof.
  intros w'. subst w'.
  destruct (tokenExpiryWarning_outcome clock config w) as [-> _ | e x _ _ _ _ ->].
  - split; [exists []; repeat split; [cbn; lia | constructor] |]. split; reflexivity.
  - split; [eexists [_]; repeat split; [cbn; lia | repeat constructor] |].
    split; [reflexivity |]. intros key Hkey. cbn. apply lookup_insert_ne.
    intros Heq. apply (Hkey e). symmetry. exact Heq.
Qed.

End PassFacts.

(** X16: what a pass of [sendNotifications] can and cannot do, whatever
    its arguments.  It adds at most two notifications on top of those
    shown and takes none away; the only storage keys it can write are
    those of token expiration dates, so the seen ledger reads as before;
    and unless notifications are supported and permission is granted it
    shows nothing and writes nothing (it asks for permission when that is
    undecided). *)
Theorem pass_frame {H : Host} (supported : bool) (permission : Permission) (clock : Z)
    (assignments : list AssignmentView) (config : Config) (w : Browser) :
  let w' := sendNotifications supported permission clock assignments config w in
  (exists new, shown w' = new ++ shown w /\ (length new <= 2)%nat)
  /\ (forall key, (forall e, key <> notifyKey e) ->
        localStorage w' !! key = localStorage w !! key)
  /\ getSeenAnnouncements (localStorage w') = getSeenAnnouncements (localStorage w)
  /\ (supported = false \/ permission <> granted ->
      shown w' = shown w /\ localStorage w' = localStorage w
      /\ permissionRequests w'
         = match supported, permission with
           | true, undecided => S (permissionRequests w)
           | _, _ => permissionRequests w
           end).
Proof.
  intros w'.
  assert (Hparts :
    (exists new, shown w' = new ++ shown w /\ (length new <= 2)%nat)
    /\ (forall key, (forall e, key <> notifyKey e) ->
          localStorage w' !! key = localStorage w !! key)).
  { subst w'. unfold sendNotifications.
    destruct supported; cbn [negb]; [| split; [exists []; split; [reflexivity | cbn; lia] | reflexivity]].
    destruct permission; try (split; [exists []; split; [reflexivity | cbn; lia] | reflexivity]).
    set (w0 := if (0 <? length (List.filter (dueSoon clock) assignments))%nat
               then showNotification (urgentNotification (List.filter (dueSoon clock) assignments)) w
               else w).
    destruct (tokenExpiryWarning_frame clock config w0) as ((new & Hnew & Hlen & _) & _ & Hkeys).
    assert (H0 : exists new0, shown w0 = new0 ++ shown w /\ (length new0 <= 1)%nat
                              /\ localStorage w0 = localStorage w).
    { unfold w0. destruct (0 <? _)%nat.
      - eexists [_]. repeat split. cbn. lia.
      - exists []. repeat split. cbn. lia. }
    destruct H0 as (new0 & Hnew0 & Hlen0 & Hls0).
    split.
    - exists (new ++ new0). rewrite Hnew, Hnew0, length_app, app_assoc. split; [reflexivity | lia].
    - intros key Hkey. rewrite (Hkeys key Hkey), Hls0. reflexivity. }
  destruct Hparts as [Hshown Hkeys].
  split; [exact Hshown | split; [exact Hkeys | split]].
  - unfold getSeenAnnouncements, getItem.
    rewrite (Hkeys SEEN_ANNOUNCEMENTS_KEY seen_key_not_notifyKey). reflexivity.
  - subst w'. unfold sendNotifications. intros [-> | Hperm]; [repeat split |].
    destruct supported; cbn [negb andb]; [| repeat split].
    destruct permission; [congruence | repeat split | repeat split].
Qed.

Section UrgentFacts.

Context {H : Host}.

Lemma urgentNoticeCount_pass clock assignments config w :
  urgentNoticeCount (sendNotifications true granted clock assignments config w)
  = ((if (0 <? length (List.filter (dueSoon clock) assignments))%nat then 1 else 0)
     + urgentNoticeCount w)%nat.
Proof.
  unfold sendNotifications. cbn [negb].
  set (w0 := if (0 <? length (List.filter (dueSoon clock) assignments))%nat
             then showNotification (urgentNotification (List.filter (dueSoon clock) assignments)) w
             else w).
  destruct (tokenExpiryWarning_frame clock config w0) as ((new & Hnew & _ & Hnone) & _ & _).
  unfold urgentNoticeCount. rewrite Hnew, List.filter_app.
  assert (Hf : List.filter isUrgentNotice new = []).
  { clear -Hnone. induction Hnone as [| n l Hn _ IH]; [reflexivity |]. cbn. rewrite Hn. exact IH. }
  rewrite Hf. cbn [app]. unfold w0. destruct (0 <? _)%nat; reflexivity.
Qed.

End UrgentFacts.

(** X17: the notice of urgent assignments has no memory: in a run of
    passes with permission it is shown once in every pass that finds an
    assignment due soon, whatever was shown or stored before. *)
Theorem urgent_notice_every_pass {H : Host} (run : list (Z * list AssignmentView * Config))
    (w : Browser) :
  urgentNoticeCount (passes run w) = (passesWithUrgent run + urgentNoticeCount w)%nat.
Proof.
  revert w. induction run as [| [[clock assignments] config] run IH]; intros w; [reflexivity |].
  cbn [passes passesWithUrgent]. rewrite IH, urgentNoticeCount_pass. lia.
Qed.

(** X18: the day count of the token warning is [n] exactly when the
    expiration instant is more than [n - 1] days and at most [n] days after
    the clock.  So the warning is due from seven days before the
    expiration instant until less than one day after it: a token that
    expired within the last 24 hours is still announced, as expiring in 0
    days. *)
Theorem expiry_window (clock expiry : Z) :
  (forall n, daysUntilExpiry clock expiry = n
             <-> (n - 1) * msPerDay < expiry - clock <= n * msPerDay)
  /\ (0 <= daysUntilExpiry clock expiry <= 7
      <-> - msPerDay < expiry - clock <= 7 * msPerDay)
  /\ (expiry <= clock < expiry + msPerDay -> daysUntilExpiry clock expiry = 0).
Proof.
  assert (Hspec : forall n, daysUntilExpiry clock expiry = n
                            <-> (n - 1) * msPerDay < expiry - clock <= n * msPerDay).
  { intros n. unfold daysUntilExpiry.
    change (1000 * 60 * 60 * 24) with msPerDay. apply ceilDiv_spec. reflexivity. }
  split; [exact Hspec | split].
  - pose proof (Hspec (daysUntilExpiry clock expiry)) as [Hd _]. specialize (Hd eq_refl).
    unfold msPerDay in *. lia.
  - intros Hc. apply Hspec. unfold msPerDay in *. lia.
Qed.

Section DueSoonFacts.

Context {H : Host}.

Lemma dueSoon_dated clock v s d :
  hasDueDate v = true -> dueDate v = Some s -> Date_parse s = Some d ->
  dueSoon clock v
  = (d <=? startOfDay clock + msPerDay) && bool_decide (status v = lit "Not submitted").
Proof.
  intros Hh Hs Hd. unfold dueSoon. rewrite Hh, Hs. cbn [negb newDateOf].
  unfold newDate. rewrite Hd. cbn [addDays setHours Date_le].
  rewrite startOfDay_shift. f_equal. f_equal. lia.
Qed.

End DueSoonFacts.

(** X19: a view of [formatAssignmentData] counts as due soon for the
    notice exactly when its due instant is at most tomorrow's local
    midnight and nothing is submitted; there is no earlier bound.  So an
    assignment that was due before today and has no submission is
    announced at every pass, although its [isUrgent] flag is false and its
    urgency is [null]; a due date that does not parse is never
    announced. *)
Theorem overdue_is_due_soon {H : Host} (clock : Z) (a : RawAssignment) :
  let v := formatAssignment clock a in
  (forall d, dueInstant a = Some d ->
     (dueSoon clock v = true
      <-> d <= startOfDay clock + msPerDay /\ status v = lit "Not submitted")
     /\ (d < startOfDay clock -> status v = lit "Not submitted" ->
         dueSoon clock v = true /\ isUrgent v = Some false /\ urgency v = None))
  /\ (dueInstant a = None -> dueSoon clock v = false).
Proof.
  intros v. subst v. split.
  - intros d Hinst.
    assert (Hs : exists s, due_at a = Some s /\ Date_parse s = Some d).
    { unfold dueInstant in Hinst. destruct (truthy (due_at a)); [| discriminate].
      destruct (due_at a) as [s |]; [| discriminate]. exists s. split; [reflexivity | exact Hinst]. }
    destruct Hs as (s & Hs & Hd).
    destruct (formatAssignment_dated clock a d Hinst) as (Hh & Hu & Hk).
    assert (Hsoon := dueSoon_dated clock (formatAssignment clock a) s d Hh Hs Hd).
    assert (Hiff : dueSoon clock (formatAssignment clock a) = true
                   <-> d <= startOfDay clock + msPerDay
                       /\ status (formatAssignment clock a) = lit "Not submitted").
    { rewrite Hsoon, andb_true_iff, Z.leb_le, bool_decide_eq_true. reflexivity. }
    split; [exact Hiff |].
    intros Hpast Hstatus. split; [apply Hiff; split; [unfold msPerDay; lia | exact Hstatus] |].
    rewrite Hu, Hk. pose proof (startOfDay_bounds d) as Hb.
    split.
    + f_equal. apply andb_false_iff. left. apply Z.leb_gt. exact Hpast.
    + destruct (Z.eqb_spec (startOfDay d) (startOfDay clock)) as [Heq | _]; [lia |].
      replace (startOfDay clock + msPerDay <=? d) with false; [reflexivity |].
      symmetry. apply Z.leb_gt. unfold msPerDay. lia.
  - intros Hnone. unfold dueInstant in Hnone.
    destruct (truthy (due_at a)) eqn:Ht.
    + destruct (due_at a) as [s |] eqn:Hs; [| discriminate]. cbn in Hnone.
      unfold dueSoon. change (dueDate (formatAssignment clock a)) with (due_at a).
      rewrite Hs. cbn [newDateOf]. unfold newDate. rewrite Hnone.
      destruct (negb _); reflexivity.
    + destruct (formatAssignment_undated clock a Ht) as (Hh & _).
      unfold dueSoon. rewrite Hh. reflexivity.
Qed.

(** ** Theme, e-mails and the clock text *)

Ltac theme_cases theme prefersDark :=
  unfold applyTheme, classToggle;
  destruct (decide (theme = lit "dark")); [|
    destruct (decide (theme = lit "light")); [|
      destruct (decide (theme = lit "auto")); [destruct prefersDark |]]];
  cbn [negb].

Ltac class_solver :=
  repeat (rewrite elem_of_union || rewrite elem_of_difference
          || rewrite elem_of_singleton);
  intuition congruence.

Section ThemeFacts.

Lemma theme_classes_differ : lit "dark-theme" <> lit "light-theme".
Proof. vm_compute. discriminate. Qed.

Lemma applyTheme_cases theme prefersDark classList :
  applyTheme theme prefersDark classList
  = {[ lit "dark-theme" ]} ∪ classList ∖ {[ lit "light-theme" ]}
  \/ applyTheme theme prefersDark classList
     = {[ lit "light-theme" ]} ∪ classList ∖ {[ lit "dark-theme" ]}.
Proof.
  pose proof theme_classes_differ as Hne.
  theme_cases theme prefersDark; [left | right | left | right | right];
    apply set_eq; intros c; class_solver.
Qed.

End ThemeFacts.

(** X20: after [applyTheme], whatever the theme asked for and whatever
    classes the body had, the body has exactly one of the classes
    [dark-theme] and [light-theme], every other class is as before, and
    the result does not depend on an earlier [applyTheme]; a theme other
    than [dark], [light] and [auto] gives the light theme. *)
Theorem applyTheme_exclusive (theme : jsstring) (prefersDark : bool)
    (classList : gset jsstring) :
  let after := applyTheme theme prefersDark classList in
  (lit "dark-theme" ∈ after <-> lit "light-theme" ∉ after)
  /\ (forall c, c <> lit "dark-theme" -> c <> lit "light-theme" ->
        (c ∈ after <-> c ∈ classList))
  /\ (forall theme0 prefersDark0,
        applyTheme theme prefersDark (applyTheme theme0 prefersDark0 classList) = after)
  /\ (theme <> lit "dark" -> theme <> lit "auto" -> lit "light-theme" ∈ after).
Proof.
  intros after. subst after. pose proof theme_classes_differ as Hne.
  split; [| split; [| split]].
  - destruct (applyTheme_cases theme prefersDark classList) as [-> | ->]; class_solver.
  - intros c Hd Hl.
    destruct (applyTheme_cases theme prefersDark classList) as [-> | ->]; class_solver.
  - intros theme0 prefersDark0.
    destruct (applyTheme_cases theme0 prefersDark0 classList) as [-> | ->];
      theme_cases theme prefersDark; apply set_eq; intros c;
      destruct (decide (c = lit "light-theme")), (decide (c = lit "dark-theme"));
      class_solver.
  - intros Hdark Hauto. theme_cases theme prefersDark; try congruence; class_solver.
Qed.

Section EmailFacts.

Lemma take_nil_iff {A : Type} (n : nat) (l : list A) : (0 < n)%nat -> take n l = [] <-> l = [].
Proof.
  intros Hn. destruct l as [| x l]; [destruct n; tauto |].
  destruct n as [| n]; [lia |]. cbn. split; discriminate.
Qed.

End EmailFacts.

(** X21: the e-mail section lists the first three accounts of the
    configuration at most, in their order; it lists nothing exactly when
    there is no account or the configuration says [enabled: false].  So
    [enabled: true] without accounts shows nothing, and accounts without
    an [enabled] flag are shown. *)
Theorem emailsOnPage_shown (config : option (option EmailsSetting)) :
  (length (emailsOnPage config) <= 3)%nat
  /\ emailsOnPage config `prefix_of` getEmailAccounts config
  /\ (emailsOnPage config = []
      <-> getEmailAccounts config = []
          \/ exists accounts, config = Some (Some (EmailsObject (Some false) accounts)))
  /\ (emailsOnPage config <> [] -> emailsOnPage config = take 3 (getEmailAccounts config)).
Proof.
  assert (Hcases : emailsOnPage config = take 3 (getEmailAccounts config)
                   \/ emailsOnPage config = []).
  { unfold emailsOnPage. destruct (_ && _); auto. }
  split; [| split; [| split]].
  - destruct Hcases as [-> | ->]; [rewrite length_take; lia | cbn; lia].
  - destruct Hcases as [-> | ->]; [apply prefix_take | apply prefix_nil].
  - unfold emailsOnPage.
    destruct config as [[[accounts | [[|] |] [accounts |]] |] |];
      cbn [getEmailAccounts isEmailsEnabled andb];
      try (destruct accounts as [| e accounts]; cbn);
      split; intros Hx; try discriminate Hx; try reflexivity; eauto;
      try (destruct Hx as [Hx | (accounts' & Hx)]; discriminate Hx).
  - intros Hne. destruct Hcases as [Heq | Heq]; [exact Heq | contradiction].
Qed.

Section ClockFacts.

Lemma minutesOfDay_spec h m : 0 <= h < 24 -> 0 <= m < 60 -> (h, m) ∈ minutesOfDay.
Proof.
  intros Hh Hm. unfold minutesOfDay.
  apply list_elem_of_bind. exists h. split; [| apply elem_of_seqZ; lia].
  apply list_elem_of_bind. exists m. split; [| apply elem_of_seqZ; lia].
  apply list_elem_of_here.
Qed.

Lemma NoDup_fmap_inj_on {A B : Type} (f : A -> B) (l : list A) (x y : A) :
  NoDup (f <$> l) -> x ∈ l -> y ∈ l -> f x = f y -> x = y.
Proof.
  induction l as [| a l IH]; intros Hnd Hx Hy Hf; [inversion Hx |].
  cbn in Hnd. apply NoDup_cons in Hnd as [Ha Hnd].
  apply elem_of_cons in Hx as [-> | Hx]; apply elem_of_cons in Hy as [-> | Hy].
  - reflexivity.
  - exfalso. apply Ha. rewrite Hf. apply list_elem_of_fmap_2. exact Hy.
  - exfalso. apply Ha. rewrite <- Hf. apply list_elem_of_fmap_2. exact Hx.
  - apply IH; assumption.
Qed.

Lemma clock_texts_distinct : NoDup ((fun hm => timeStr hm.1 hm.2) <$> minutesOfDay).
Proof. apply (bool_decide_unpack _). vm_compute. exact I. Qed.

End ClockFacts.

(** X22: the clock text tells the minute of the day: for hours 0 to 23
    and minutes 0 to 59, two instants with the same text [h:mm AM/PM] have
    the same hour and the same minute. *)
Theorem timeStr_distinct (h1 m1 h2 m2 : Z) :
  0 <= h1 < 24 -> 0 <= m1 < 60 -> 0 <= h2 < 24 -> 0 <= m2 < 60 ->
  timeStr h1 m1 = timeStr h2 m2 -> h1 = h2 /\ m1 = m2.
Proof.
  intros Hh1 Hm1 Hh2 Hm2 Heq.
  assert (Hpair : (h1, m1) = (h2, m2)).
  { apply (NoDup_fmap_inj_on (fun hm => timeStr hm.1 hm.2) minutesOfDay).
    - exact clock_texts_distinct.
    - apply minutesOfDay_spec; assumption.
    - apply minutesOfDay_spec; assumption.
    - exact Heq. }
  injection Hpair as -> ->. split; reflexivity.
Qed.

Lemma timeStr_distinct_witness :
  timeStr 0 5 = lit "12:05 AM" /\ (0 <= 0 < 24 /\ 0 <= 5 < 60) /\ (0 = 0 /\ 5 = 5).
Proof.
  split; [vm_compute; reflexivity |].
  split; [lia |].
  apply (timeStr_distinct 0 5 0 5); [lia | lia | lia | lia | reflexivity].
Defined.
